(** * nanoHTTP: the multi-valued mapping and the ASGI gateway

    A shallow embedding of [src/nanohttp.py], [src/response.py] and
    [src/request.py].  Python dictionaries are insertion-ordered, and the
    code observes that order (route lookup, the [Allow] header, dictionary
    comprehensions over colliding keys), so a dictionary is an association
    list with unique keys.  Functions of the Python standard library that
    the gateway calls ([bytes.decode], [json.loads], [re.compile], ...) are
    the fields of a record [Stdlib] that every gateway definition takes;
    [str.lower] is the class [Lower].  The method dictionaries that [route]
    updates in place and [mount] shares live in the heap of [Registry]. *)

From Stdlib Require Import List String Ascii ZArith Bool Lia.
From Stdlib.Strings Require Import Byte.
From Stdlib Require Import DecimalString.
Import ListNotations.
Set Warnings "-register-all".
Local Open Scope string_scope.
Local Open Scope list_scope.

(** ** Python values *)

Module Py.

Definition bytes := list byte.

(** The values that flow through headers, state and handler results.
    [PObj] is an instance of a class that is none of the others and defines
    no special method: it cannot be sliced and is always true. *)
Inductive Any : Type :=
| PNone
| PInt (z : Z)
| PStr (s : string)
| PBytes (b : bytes)
| PList (l : list Any)
| PDict (d : list (string * Any))
| PObj (cls : string).

(** Truth value of an object, as [if x:] computes it. *)
Definition truthy (a : Any) : bool :=
  match a with
  | PNone => false
  | PInt z => negb (Z.eqb z 0)
  | PStr s => negb (String.eqb s "")
  | PBytes b => match b with [] => false | _ => true end
  | PList l => match l with [] => false | _ => true end
  | PDict d => match d with [] => false | _ => true end
  | PObj _ => true
  end.

(** Lowercasing of ASCII text: [A] to [Z] become [a] to [z]. *)
Definition lower_ascii (c : ascii) : ascii :=
  let n := nat_of_ascii c in
  if andb (Nat.leb 65 n) (Nat.leb n 90) then ascii_of_nat (n + 32) else c.

Fixpoint ascii_lower (s : string) : string :=
  match s with
  | EmptyString => EmptyString
  | String c s' => String (lower_ascii c) (ascii_lower s')
  end.

(** Text made of ASCII characters only. *)
Fixpoint is_ascii_text (s : string) : bool :=
  match s with
  | EmptyString => true
  | String c s' => andb (Nat.ltb (nat_of_ascii c) 128) (is_ascii_text s')
  end.

(** [sub in s] for strings. *)
Fixpoint contains (sub s : string) : bool :=
  if String.prefix sub s then true
  else match s with
       | EmptyString => false
       | String _ s' => contains sub s'
       end.

(** [sep.join(xs)]. *)
Fixpoint join (sep : string) (xs : list string) : string :=
  match xs with
  | [] => ""
  | [x] => x
  | x :: rest => x ++ sep ++ join sep rest
  end.

(** [xs[-1]]; [None] stands for [IndexError]. *)
Definition last_item {A} (xs : list A) : option A :=
  match rev xs with
  | [] => None
  | x :: _ => Some x
  end.

End Py.
Import Py.

(** [str.lower].  Python lowercases by the Unicode case mappings, which
    this development does not spell out: [lower] is taken as given, with
    the two properties of it that are used.  Lowercasing twice is
    lowercasing once, and on ASCII text it is [ascii_lower]. *)
Class Lower : Type := {
  lower : string -> string;
  lower_twice : forall s, lower (lower s) = lower s;
  lower_on_ascii : forall s, is_ascii_text s = true -> lower s = ascii_lower s
}.

(** ** The built-in [dict] *)

Module PyDict.
Section Dict.
Context {V : Type}.

Definition t := list (string * V).

Definition empty : t := [].

(** [d.get(k)] without default; [None] is the missing key. *)
Fixpoint get (d : t) (k : string) : option V :=
  match d with
  | [] => None
  | (k', v) :: d' => if String.eqb k k' then Some v else get d' k
  end.

Definition get_default (d : t) (k : string) (dflt : V) : V :=
  match get d k with Some v => v | None => dflt end.

Definition mem (d : t) (k : string) : bool :=
  match get d k with Some _ => true | None => false end.

(** [d[k] = v]: an existing key keeps its position. *)
Fixpoint setitem (d : t) (k : string) (v : V) : t :=
  match d with
  | [] => [(k, v)]
  | (k', v') :: d' =>
      if String.eqb k k' then (k', v) :: d' else (k', v') :: setitem d' k v
  end.

(** [d.setdefault(k, dflt)]: the dictionary afterwards and the value
    returned. *)
Definition setdefault (d : t) (k : string) (dflt : V) : t * V :=
  match get d k with
  | Some v => (d, v)
  | None => (setitem d k dflt, dflt)
  end.

(** [del d[k]] when present. *)
Fixpoint remove (d : t) (k : string) : t :=
  match d with
  | [] => []
  | (k', v') :: d' =>
      if String.eqb k k' then d' else (k', v') :: remove d' k
  end.

(** [d.pop(k, dflt)]. *)
Definition pop (d : t) (k : string) (dflt : V) : t * V :=
  match get d k with
  | Some v => (remove d k, v)
  | None => (d, dflt)
  end.

(** [d.update(items)] for a mapping or an iterable of pairs. *)
Definition update (d : t) (items : list (string * V)) : t :=
  fold_left (fun acc kv => setitem acc (fst kv) (snd kv)) items d.

Definition keys (d : t) : list string := map fst d.
Definition values (d : t) : list V := map snd d.

End Dict.
Arguments t : clear implicits.

(** [{f(k): g(k, v) for k, v in d.items()}]. *)
Definition comprehension {V W} (fk : string -> string) (fv : string -> V -> W)
  (d : t V) : t W :=
  update empty (map (fun kv => (fk (fst kv), fv (fst kv) (snd kv))) d).

End PyDict.

(** ** [MultiDict] *)

Module MultiDict.

(** The storage of a [MultiDict] is the underlying [dict]: lowercased key
    to list of values. *)
Definition t := PyDict.t (list Any).

(** The argument of the constructor, by its run-time type. *)
Inductive Mapping : Type :=
| MNone
| MMulti (m : t)
| MDict (d : PyDict.t Any)
| MPairs (l : list (string * Any))
| MOther.

(** What the constructor leaves as the underlying [dict]: lists of values
    or, from a [MultiDict] argument, values that are not all lists. *)
Inductive Built : Type :=
| Lists (m : t)
| Bare (raw : PyDict.t Any).

(** The underlying [dict], key by key. *)
Definition contents (b : Built) : PyDict.t Any :=
  match b with
  | Lists m => map (fun kl => (fst kl, PList (snd kl))) m
  | Bare raw => raw
  end.

Section Storage.
Context {L : Lower}.

(** [[v] if not isinstance(v, list) else v[:]] *)
Definition as_values (v : Any) : list Any :=
  match v with
  | PList l => l
  | _ => [v]
  end.

(** [{k.lower(): [v] if not isinstance(v, list) else v[:] for k, v in
    mapping.items()}] *)
Definition of_dict (d : PyDict.t Any) : t :=
  PyDict.comprehension lower (fun _ v => as_values v) d.

(** [_setdefault]: the raw list stored under the key, created from
    [default] when missing. *)
Definition _setdefault (m : t) (key : string) (default : list Any) : t * list Any :=
  PyDict.setdefault m (lower key) default.

(** [self._setdefault(key.lower(), []).append(value)] *)
Definition append_pair (m : t) (kv : string * Any) : t :=
  let '(m', l) := _setdefault m (lower (fst kv)) [] in
  PyDict.setitem m' (lower (lower (fst kv))) (l ++ [snd kv]).

Definition of_pairs (l : list (string * Any)) : t :=
  fold_left append_pair l PyDict.empty.

(** [__getitem__]; [None] stands for [KeyError] or [IndexError]. *)
Definition __getitem__ (m : t) (key : string) : option Any :=
  match PyDict.get m (lower key) with
  | Some l => last_item l
  | None => None
  end.

(** [__setitem__]: [super().setdefault(key.lower(), []).append(value)] *)
Definition __setitem__ (m : t) (key : string) (value : Any) : t :=
  let '(m', l) := PyDict.setdefault m (lower key) [] in
  PyDict.setitem m' (lower key) (l ++ [value]).

(** [_get]: all the values of the key. *)
Definition _get (m : t) (key : string) (default : list Any) : list Any :=
  PyDict.get_default m (lower key) default.

(** [get]; [None] stands for [IndexError] on an empty stored list. *)
Definition get (m : t) (key : string) (default : Any) : option Any :=
  last_item (PyDict.get_default m (lower key) [default]).

Definition _items (m : t) : list (string * list Any) := m.

(** [items]; an empty stored list raises [IndexError]. *)
Fixpoint items (m : t) : option (list (string * Any)) :=
  match m with
  | [] => Some []
  | (k, l) :: m' =>
      match last_item l, items m' with
      | Some v, Some r => Some ((lower k, v) :: r)
      | _, _ => None
      end
  end.

(** [v[:]]: a list, a text or bytes give a copy of themselves; any other
    value cannot be sliced, and [None] stands for the exception. *)
Definition slice (v : Any) : option Any :=
  match v with
  | PStr _ | PBytes _ | PList _ => Some v
  | _ => None
  end.

Fixpoint slices (its : list (string * Any)) : option (list (string * Any)) :=
  match its with
  | [] => Some []
  | (k, v) :: rest =>
      match slice v, slices rest with
      | Some copy, Some r => Some ((lower k, copy) :: r)
      | _, _ => None
      end
  end.

(** A dictionary all of whose values are lists, as storage. *)
Fixpoint as_lists (raw : PyDict.t Any) : option t :=
  match raw with
  | [] => Some []
  | (k, PList l) :: rest =>
      match as_lists rest with
      | Some r => Some ((k, l) :: r)
      | None => None
      end
  | _ => None
  end.

(** [{k.lower(): v[:] for k, v in mapping.items()}] for a [MultiDict]:
    its [items()] yields the last value of each key, so what is stored
    under a key is a slice of that value, not the list of the values.
    [None] stands for the exception of an empty stored list or of a value
    that cannot be sliced. *)
Definition of_multidict (m : t) : option Built :=
  match items m with
  | None => None
  | Some its =>
      match slices its with
      | None => None
      | Some sliced =>
          let raw := PyDict.update PyDict.empty sliced in
          Some (match as_lists raw with
                | Some stored => Lists stored
                | None => Bare raw
                end)
      end
  end.

(** [__init__]; [None] stands for an exception: [TypeError("Invalid
    mapping type")], or what [of_multidict] raises. *)
Definition __init__ (mapping : Mapping) : option Built :=
  match mapping with
  | MNone => Some (Lists PyDict.empty)
  | MMulti m => of_multidict m
  | MDict d => Some (Lists (of_dict d))
  | MPairs l => Some (Lists (of_pairs l))
  | MOther => None
  end.

Definition _pop (m : t) (key : string) (default : list Any) : t * list Any :=
  PyDict.pop m (lower key) default.

(** What [pop] returns: a value taken off a list, the whole stored list,
    or the default. *)
Inductive Popped : Type :=
| PoppedValue (v : Any)
| PoppedList (l : list Any)
| PoppedDefault (d : Any).

(** [pop]: with more than one value the stored list loses its last
    element in place; otherwise the key is removed. *)
Definition pop (m : t) (key : string) (default : Any) : t * Popped :=
  let values := PyDict.get_default m (lower key) [] in
  if Nat.ltb 1 (List.length values) then
    (PyDict.setitem m (lower key) (removelast values),
     PoppedValue (List.last values default))
  else
    match PyDict.get m (lower key) with
    | Some l => (PyDict.remove m (lower key), PoppedList l)
    | None => (m, PoppedDefault default)
    end.

(** [setdefault]; the value is [None] on [IndexError]. *)
Definition setdefault (m : t) (key : string) (default : Any) : t * option Any :=
  let '(m', l) := PyDict.setdefault m (lower key) [default] in
  (m', last_item l).

Definition _values (m : t) : list (list Any) := PyDict.values m.

Fixpoint values (m : t) : option (list Any) :=
  match m with
  | [] => Some []
  | (_, l) :: m' =>
      match last_item l, values m' with
      | Some v, Some r => Some (v :: r)
      | _, _ => None
      end
  end.

(** [_update]: the plain [dict.update]. *)
Definition _update (m : t) (items : list (string * list Any)) : t :=
  PyDict.update m items.

End Storage.

(** The positional argument of [update]: a mapping or a sequence of pairs
    (keyword arguments are further entries of it; a [MultiDict] is the
    mapping of its keys to its lists of values). *)
Inductive Source : Type :=
| SMapping (d : PyDict.t Any)
| SPairs (l : list (string * Any)).

Section Updates.
Context {L : Lower}.

(** [new = {}; new.update(source)] *)
Definition collect (s : Source) : PyDict.t Any :=
  match s with
  | SMapping d => PyDict.update PyDict.empty d
  | SPairs l => PyDict.update PyDict.empty l
  end.

(** [update]: [super().update(MultiDict(new))] *)
Definition update (m : t) (s : Source) : t :=
  PyDict.update m (of_dict (collect s)).

(** Every stored key owns at least one value. *)
Definition nonempty_values (m : t) : Prop :=
  forall k l, In (k, l) (_items m) -> l <> [].

(** [k'] is a case variant of [k]. *)
Definition case_variant (k k' : string) : Prop := lower k' = lower k.

End Updates.

End MultiDict.

(** ** Collaborators from the Python standard library *)

(** A compiled regular expression: its source and [fullmatch], which
    gives the [groupdict()] of the match, or [None]. *)
Record Pattern : Type := {
  pattern : string;
  fullmatch : string -> option (PyDict.t Any)
}.

(** A [SimpleCookie], by the values its [output()] prints after
    ["Set-Cookie: "], one per morsel. *)
Definition Jar := list string.

(** An exception that is not a [Response]: class name and message. *)
Record Error : Type := { cls : string; message : string }.

(** A serializer of mappings: the text, or the exception it raises. *)
Definition Serializer := PyDict.t Any -> string + Error.

Record Stdlib : Type := {
  (** [HTTPStatus(code).phrase]; [None] is [ValueError] *)
  http_phrase : Z -> option string;
  (** [b.decode()]; [None] is [UnicodeDecodeError] *)
  decode : bytes -> option string;
  (** [s.encode()] *)
  encode : string -> bytes;
  (** [str(x)] *)
  to_str : Any -> string;
  (** [json.dumps]; it raises on a value it cannot serialize *)
  json_dumps : Serializer;
  (** [json.loads]; [None] is [JSONDecodeError] *)
  json_loads : string -> option Any;
  (** [parse_qs(unquote(x))] *)
  parse_qs : bytes -> PyDict.t Any;
  (** [SimpleCookie.load]; [None] is [CookieError] *)
  cookie_load : Any -> option Jar;
  (** [re.compile]; the right injection is the message of [re.error] *)
  re_compile : string -> Pattern + string
}.

(** ** [Response] *)

Module Response.

(** A response whose [headers] hold lists of values, as [MultiDict] leaves
    them when built from [None], a dictionary or pairs. *)
Record t : Type := {
  status : Z;
  description : string;
  headers : MultiDict.t;
  cookies : Jar;
  body : bytes;
  dumps : Serializer
}.

Definition set_headers (r : t) (h : MultiDict.t) : t :=
  {| status := status r; description := description r; headers := h;
     cookies := cookies r; body := body r; dumps := dumps r |}.

(** What a hook or a handler returns. *)
Inductive Returned : Type :=
| Value (a : Any)
| Instance (r : t).

Definition truthy (v : Returned) : bool :=
  match v with
  | Value a => Py.truthy a
  | Instance _ => true
  end.

(** The attributes that [__init__] assigns, given the headers as
    [setdefault] left them. *)
Definition assign (E : Stdlib) (st : Z) (hdrs : MultiDict.t) (jar : Jar)
  (content : bytes) (serializer : Serializer) : t :=
  {| status := st;
     description := match http_phrase E st with Some p => p | None => "" end;
     headers := hdrs;
     cookies := jar;
     body := content;
     dumps := serializer |}.

Section Construction.
Context {L : Lower}.

(** [__init__]; [hdrs] is [MultiDict(headers)].  The right injection is the
    [IndexError] of [setdefault] on a [content-type] stored without a
    value. *)
Definition __init__ (E : Stdlib) (st : Z) (hdrs : MultiDict.t) (jar : Jar)
  (content : bytes) (serializer : Serializer) : t + Error :=
  match MultiDict.setdefault hdrs "content-type" (PStr "text/html; charset=utf-8") with
  | (h, Some _) => inl (assign E st h jar content serializer)
  | (_, None) => inr {| cls := "IndexError"; message := "list index out of range" |}
  end.

(** [Response(status)] with every keyword at its default; on empty headers
    [__init__] does not raise. *)
Definition of_status (E : Stdlib) (st : Z) : t :=
  match __init__ E st PyDict.empty [] [] (json_dumps E) with
  | inl r => r
  | inr _ => assign E st PyDict.empty [] [] (json_dumps E)
  end.

(** [from_any] *)
Definition from_any (E : Stdlib) (any : Returned) : t + Error :=
  match any with
  | Value (PInt z) =>
      match http_phrase E z with
      | Some p => __init__ E z PyDict.empty [] (encode E p) (json_dumps E)
      | None => inr {| cls := "ValueError"; message := "" |}
      end
  | Value (PStr s) => __init__ E 200 PyDict.empty [] (encode E s) (json_dumps E)
  | Value (PBytes b) => __init__ E 200 PyDict.empty [] b (json_dumps E)
  | Value (PDict d) =>
      match dumps (of_status E 200) d with
      | inl text =>
          __init__ E 200
            (MultiDict.of_dict [("content-type", PStr "application/json")])
            [] (encode E text) (json_dumps E)
      | inr e => inr e
      end
  | Instance r => inl r
  | Value PNone => __init__ E 204 PyDict.empty [] [] (json_dumps E)
  | Value _ => inr {| cls := "TypeError"; message := "" |}
  end.

End Construction.

End Response.

(** ** [Request] *)

Module Request.

Record t : Type := {
  method : string;
  path : string;
  ip : string;
  params : PyDict.t Any;
  args : MultiDict.t;
  headers : MultiDict.t;
  cookies : Jar;
  body : bytes;
  json : option Any;
  form : MultiDict.t;
  state : PyDict.t Any
}.

Section Construction.
Context {L : Lower}.

(** [__init__] as the gateway calls it: [params], [headers], [cookies],
    [body], [json] and [form] at their defaults. *)
Definition __init__ (m p addr : string) (query : PyDict.t Any) (st : PyDict.t Any) : t :=
  {| method := m; path := p; ip := addr;
     params := PyDict.empty;
     args := MultiDict.of_dict query;
     headers := PyDict.empty;
     cookies := [];
     body := [];
     json := None;
     form := PyDict.empty;
     state := st |}.

End Construction.

Definition set_params (r : t) (x : PyDict.t Any) : t :=
  {| method := method r; path := path r; ip := ip r; params := x;
     args := args r; headers := headers r; cookies := cookies r;
     body := body r; json := json r; form := form r; state := state r |}.

Definition set_headers (r : t) (x : MultiDict.t) : t :=
  {| method := method r; path := path r; ip := ip r; params := params r;
     args := args r; headers := x; cookies := cookies r;
     body := body r; json := json r; form := form r; state := state r |}.

Definition set_cookies (r : t) (x : Jar) : t :=
  {| method := method r; path := path r; ip := ip r; params := params r;
     args := args r; headers := headers r; cookies := x;
     body := body r; json := json r; form := form r; state := state r |}.

Definition set_body (r : t) (x : bytes) : t :=
  {| method := method r; path := path r; ip := ip r; params := params r;
     args := args r; headers := headers r; cookies := cookies r;
     body := x; json := json r; form := form r; state := state r |}.

Definition set_json (r : t) (x : option Any) : t :=
  {| method := method r; path := path r; ip := ip r; params := params r;
     args := args r; headers := headers r; cookies := cookies r;
     body := body r; json := x; form := form r; state := state r |}.

Definition set_form (r : t) (x : MultiDict.t) : t :=
  {| method := method r; path := path r; ip := ip r; params := params r;
     args := args r; headers := headers r; cookies := cookies r;
     body := body r; json := json r; form := x; state := state r |}.

End Request.

(** ** [Application] *)

(** What calling a hook or a handler does besides changing the objects it
    was given: it returns a value or raises. *)
Inductive Outcome : Type :=
| Return (v : Response.Returned)
| RaiseResponse (r : Response.t)
| RaiseError (e : Error).

(** A route handler or a before-hook: [func(request)].  The request is a
    mutable object, so the call also yields the request afterwards. *)
Definition Handler := Request.t -> Request.t * Outcome.

(** An after-hook: [func(request, response)]. *)
Definition AfterHook := Request.t -> Response.t -> Request.t * Response.t * Outcome.

(** A startup or shutdown function: [func(state)], mutating the state. *)
Definition LifecycleFn := PyDict.t Any -> PyDict.t Any * option Error.

(** Method name to handler. *)
Definition Methods := PyDict.t Handler.

(** [_routes]: keyed by pattern strings until the startup event replaces
    them by compiled patterns. *)
Inductive Routes : Type :=
| Uncompiled (table : PyDict.t Methods)
| Compiled (table : list (Pattern * Methods)).

Record Application : Type := {
  _routes : Routes;
  _startup : list LifecycleFn;
  _shutdown : list LifecycleFn;
  _before : list Handler;
  _after : list AfterHook;
  _serializer : Serializer;
  _max_content : Z
}.

Definition set_routes (app : Application) (r : Routes) : Application :=
  {| _routes := r; _startup := _startup app; _shutdown := _shutdown app;
     _before := _before app; _after := _after app;
     _serializer := _serializer app; _max_content := _max_content app |}.

(** [Application.__init__] *)
Definition Application_init (E : Stdlib) (routes : option (PyDict.t Methods))
  (startup shutdown : list LifecycleFn) (before : list Handler)
  (after : list AfterHook) (serializer : option Serializer)
  (max_content : Z) : Application :=
  {| _routes := Uncompiled (match routes with Some r => r | None => PyDict.empty end);
     _startup := startup;
     _shutdown := shutdown;
     _before := before;
     _after := after;
     _serializer := match serializer with Some s => s | None => json_dumps E end;
     _max_content := max_content |}.

(** The body of the [route] decorator on the table of pattern strings:
    [setdefault(path, {}).update({method: func for method in methods})],
    for a table whose method dictionaries are separate objects ([Registry]
    below has the general case). *)
Definition route_table (table : PyDict.t Methods) (path : string)
  (methods : list string) (func : Handler) : PyDict.t Methods :=
  let '(table', existing) := PyDict.setdefault table path PyDict.empty in
  PyDict.setitem table' path
    (PyDict.update existing
       (PyDict.update PyDict.empty (map (fun m => (m, func)) methods))).

(** [app.route(path, methods)(func)] while the table holds pattern strings;
    registration into a compiled table is not modelled and leaves it as it
    is. *)
Definition route (app : Application) (path : string) (methods : list string)
  (func : Handler) : Application :=
  match _routes app with
  | Uncompiled table => set_routes app (Uncompiled (route_table table path methods func))
  | Compiled _ => app
  end.

(** The decorators [startup], [shutdown], [before] and [after] append the
    function to the list. *)
Definition startup (app : Application) (func : LifecycleFn) : Application :=
  {| _routes := _routes app; _startup := _startup app ++ [func];
     _shutdown := _shutdown app; _before := _before app; _after := _after app;
     _serializer := _serializer app; _max_content := _max_content app |}.

Definition shutdown (app : Application) (func : LifecycleFn) : Application :=
  {| _routes := _routes app; _startup := _startup app;
     _shutdown := _shutdown app ++ [func]; _before := _before app;
     _after := _after app; _serializer := _serializer app;
     _max_content := _max_content app |}.

Definition before (app : Application) (func : Handler) : Application :=
  {| _routes := _routes app; _startup := _startup app; _shutdown := _shutdown app;
     _before := _before app ++ [func]; _after := _after app;
     _serializer := _serializer app; _max_content := _max_content app |}.

Definition after (app : Application) (func : AfterHook) : Application :=
  {| _routes := _routes app; _startup := _startup app; _shutdown := _shutdown app;
     _before := _before app; _after := _after app ++ [func];
     _serializer := _serializer app; _max_content := _max_content app |}.

(** [mount], while both tables hold pattern strings (otherwise the tables
    are left as they are, as for [route]). *)
Definition mount (self app : Application) (prefix : string) : Application :=
  {| _routes :=
       match _routes self, _routes app with
       | Uncompiled mine, Uncompiled theirs =>
           Uncompiled
             (PyDict.update mine
                (PyDict.comprehension (fun k => (prefix ++ k)%string) (fun _ v => v) theirs))
       | mine, _ => mine
       end;
     _startup := _startup self ++ _startup app;
     _shutdown := _shutdown self ++ _shutdown app;
     _before := _before self ++ _before app;
     _after := _after self ++ _after app;
     _serializer := _serializer self;
     _max_content := Z.max (_max_content self) (_max_content app) |}.

(** *** Method dictionaries as objects

    [route] updates the method dictionary of a path in place, and [mount]
    puts the dictionaries of the mounted application into the table of the
    other one without copying them, so one dictionary can sit under several
    paths, of one table or of several.  In [Registry] the dictionaries live
    in a heap and a table maps a path to the address of its dictionary.
    [route_table] and [mount] above are these operations as one table shows
    them while none of its dictionaries is shared. *)

Module Registry.

Definition Heap := list Methods.
Definition Table := PyDict.t nat.

(** The dictionary at an address. *)
Definition deref (heap : Heap) (a : nat) : Methods := nth a heap PyDict.empty.

(** The heap with the dictionary at an address replaced. *)
Fixpoint store (a : nat) (x : Methods) (heap : Heap) : Heap :=
  match heap, a with
  | [], _ => []
  | _ :: rest, O => x :: rest
  | y :: rest, S a' => y :: store a' x rest
  end.

(** What [_routes] shows: each path with its dictionary. *)
Definition view (heap : Heap) (table : Table) : PyDict.t Methods :=
  map (fun kv => (fst kv, deref heap (snd kv))) table.

(** [self._routes.setdefault(path, {}).update({method: func for method in
    methods})]: a path that is there has its dictionary updated in place; a
    new path gets a new dictionary. *)
Definition route (heap : Heap) (table : Table) (path : string)
  (methods : list string) (func : Handler) : Heap * Table :=
  let new := PyDict.update PyDict.empty (map (fun m => (m, func)) methods) in
  match PyDict.get table path with
  | Some a => (store a (PyDict.update (deref heap a) new) heap, table)
  | None =>
      (heap ++ [PyDict.update PyDict.empty new],
       PyDict.setitem table path (List.length heap))
  end.

(** [self._routes.update({prefix + k: v for k, v in app._routes.items()})]:
    the addresses are copied, the dictionaries are not. *)
Definition mount (mine theirs : Table) (prefix : string) : Table :=
  PyDict.update mine
    (PyDict.comprehension (fun k => (prefix ++ k)%string) (fun _ a => a) theirs).

End Registry.

(** [{re.compile(k): v for k, v in self._routes.items()}]; compiling a
    compiled pattern gives it back. *)
Fixpoint compile_table (E : Stdlib) (table : PyDict.t Methods)
  : list (Pattern * Methods) + string :=
  match table with
  | [] => inl []
  | (k, v) :: rest =>
      match re_compile E k with
      | inr msg => inr msg
      | inl p =>
          match compile_table E rest with
          | inr msg => inr msg
          | inl rest' => inl ((p, v) :: rest')
          end
      end
  end.

Definition compile_routes (E : Stdlib) (r : Routes) : Routes + string :=
  match r with
  | Uncompiled table =>
      match compile_table E table with
      | inl t => inl (Compiled t)
      | inr msg => inr msg
      end
  | Compiled t => inl (Compiled t)
  end.

(** *** Protocol events *)

(** What [receive()] delivers on the lifespan protocol. *)
Inductive LifespanEvent : Type :=
| LifespanStartup
| LifespanShutdown
| LifespanOther (type : string).

(** What [receive()] delivers on the HTTP protocol. *)
Record BodyEvent : Type := { chunk : bytes; more_body : bool }.

(** What the application passes to [send]. *)
Inductive Sent : Type :=
| StartupComplete
| StartupFailed (message : string)
| ShutdownComplete
| ShutdownFailed (message : string)
| ResponseStart (status : Z) (headers : list (bytes * bytes))
| ResponseBody (body : bytes).

(** The HTTP connection scope. *)
Record Scope : Type := {
  scope_method : string;
  scope_path : string;
  scope_client : option (string * Z);
  scope_query_string : bytes;
  scope_headers : list (bytes * bytes);
  scope_state : option (PyDict.t Any)
}.

(** *** The lifespan protocol *)

(** Which lifecycle function was called, by its list and position. *)
Inductive LifecycleCall : Type :=
| CallStartup (i : nat)
| CallShutdown (i : nat).

(** [for func in funcs: await asyncfy(func, state)]: the state afterwards,
    the positions called, and the exception that ended the loop. *)
Fixpoint run_lifecycle (funcs : list LifecycleFn) (i : nat) (state : PyDict.t Any)
  : PyDict.t Any * list nat * option Error :=
  match funcs with
  | [] => (state, [], None)
  | func :: rest =>
      match func state with
      | (state', Some e) => (state', [i], Some e)
      | (state', None) =>
          let '(state'', called, err) := run_lifecycle rest (S i) state' in
          (state'', i :: called, err)
      end
  end.

(** [f"{type(e).__name__}: {e}"] *)
Definition describe (e : Error) : string := cls e ++ ": " ++ message e.



Record LifespanRun : Type := {
  ls_app : Application;
  ls_state : PyDict.t Any;
  ls_calls : list LifecycleCall;
  ls_sent : list Sent;
  (** [true] once the [while True] loop was left; [false] while the
      application awaits the next event *)
  ls_terminated : bool
}.

Definition ls_prepend (calls : list LifecycleCall) (sent : list Sent) (r : LifespanRun)
  : LifespanRun :=
  {| ls_app := ls_app r; ls_state := ls_state r;
     ls_calls := calls ++ ls_calls r; ls_sent := sent ++ ls_sent r;
     ls_terminated := ls_terminated r |}.

(** The lifespan branch of [__call__], over the events that [receive()]
    delivers in turn. *)
Fixpoint lifespan (E : Stdlib) (app : Application) (state : PyDict.t Any)
  (events : list LifespanEvent) : LifespanRun :=
  match events with
  | [] => {| ls_app := app; ls_state := state; ls_calls := []; ls_sent := [];
             ls_terminated := false |}
  | LifespanStartup :: rest =>
      let '(state', called, err) := run_lifecycle (_startup app) 0 state in
      match err with
      | Some e =>
          {| ls_app := app; ls_state := state'; ls_calls := map CallStartup called;
             ls_sent := [StartupFailed (describe e)]; ls_terminated := true |}
      | None =>
          match compile_routes E (_routes app) with
          | inr msg =>
              {| ls_app := app; ls_state := state';
                 ls_calls := map CallStartup called;
                 ls_sent := [StartupFailed (describe {| cls := "error"; message := msg |})];
                 ls_terminated := true |}
          | inl routes =>
              ls_prepend (map CallStartup called) [StartupComplete]
                (lifespan E (set_routes app routes) state' rest)
          end
      end
  | LifespanShutdown :: rest =>
      let '(state', called, err) := run_lifecycle (_shutdown app) 0 state in
      match err with
      | Some e =>
          {| ls_app := app; ls_state := state'; ls_calls := map CallShutdown called;
             ls_sent := [ShutdownFailed (describe e)]; ls_terminated := true |}
      | None =>
          {| ls_app := app; ls_state := state'; ls_calls := map CallShutdown called;
             ls_sent := [ShutdownComplete]; ls_terminated := true |}
      end
  | LifespanOther _ :: rest => lifespan E app state rest
  end.

(** *** The HTTP protocol *)

(** A call of application code made while serving a request, with the
    objects it was given. *)
Inductive Call : Type :=
| CallBefore (i : nat) (req : Request.t)
| CallHandler (route : string) (method : string) (req : Request.t)
| CallAfter (i : nat) (req : Request.t) (resp : Response.t).

(** What a transaction owns: the request object, the body events not yet
    received, and the calls made so far. *)
Record Tx : Type := {
  request : Request.t;
  inbox : list BodyEvent;
  calls : list Call
}.

(** How a step ends when it does not complete: a raised [Response], any
    other exception, or [receive()] that never returns. *)
Inductive Exn : Type :=
| Early (r : Response.t)
| Fatal (e : Error)
| Pending.

(** Steps of a transaction: state passing with exceptions. *)
Definition M (A : Type) : Type := Tx -> (A + Exn) * Tx.

Definition ret {A} (a : A) : M A := fun tx => (inl a, tx).

Definition raise {A} (e : Exn) : M A := fun tx => (inr e, tx).

Definition bind {A B} (m : M A) (f : A -> M B) : M B :=
  fun tx =>
    match m tx with
    | (inl a, tx') => f a tx'
    | (inr e, tx') => (inr e, tx')
    end.

Declare Scope tx_scope.
Delimit Scope tx_scope with tx.
Notation "x <- m ;; k" := (bind m (fun x => k))
  (at level 61, m at next level, right associativity) : tx_scope.
Notation "m ;;; k" := (bind m (fun _ => k))
  (at level 61, right associativity) : tx_scope.
Local Open Scope tx_scope.

Section Serving.
Context {L : Lower}.

(** [try: ... except Response as early_response: response = early_response] *)
Definition except_response (m : M Response.t) : M Response.t :=
  fun tx =>
    match m tx with
    | (inr (Early r), tx') => (inl r, tx')
    | other => other
    end.

Definition get_request : M Request.t := fun tx => (inl (request tx), tx).

Definition put_request (r : Request.t) : M unit :=
  fun tx => (inl tt, {| request := r; inbox := inbox tx; calls := calls tx |}).

Definition record_call (c : Call) : M unit :=
  fun tx => (inl tt, {| request := request tx; inbox := inbox tx;
                        calls := calls tx ++ [c] |}).

(** [await receive()] *)
Definition receive : M BodyEvent :=
  fun tx =>
    match inbox tx with
    | [] => (inr Pending, tx)
    | ev :: rest =>
        (inl ev, {| request := request tx; inbox := rest; calls := calls tx |})
    end.

Definition of_outcome (o : Outcome) : M Response.Returned :=
  match o with
  | Return v => ret v
  | RaiseResponse r => raise (Early r)
  | RaiseError e => raise (Fatal e)
  end.

(** [raise Response.from_any(ret)] *)
Definition raise_from_any {A} (E : Stdlib) (v : Response.Returned) : M A :=
  match Response.from_any E v with
  | inl r => raise (Early r)
  | inr e => raise (Fatal e)
  end.

(** [Response.from_any(ret)] *)
Definition normalize (E : Stdlib) (v : Response.Returned) : M Response.t :=
  match Response.from_any E v with
  | inl r => ret r
  | inr e => raise (Fatal e)
  end.

(** [[[k.decode(), v.decode()] for k, v in scope["headers"]]]; [None]
    is [UnicodeDecodeError]. *)
Fixpoint decode_headers (E : Stdlib) (raw : list (bytes * bytes))
  : option (list (string * Any)) :=
  match raw with
  | [] => Some []
  | (k, v) :: rest =>
      match decode E k, decode E v, decode_headers E rest with
      | Some k', Some v', Some rest' => Some ((k', PStr v') :: rest')
      | _, _, _ => None
      end
  end.

(** Step 2: the request headers. *)
Definition load_headers (E : Stdlib) (scope : Scope) : M unit :=
  match decode_headers E (scope_headers scope) with
  | Some pairs =>
      req <- get_request ;;
      put_request (Request.set_headers req (MultiDict.of_pairs pairs))
  | None => raise (Early (Response.of_status E 400))
  end.

(** Step 3: the cookie header. *)
Definition load_cookies (E : Stdlib) : M unit :=
  req <- get_request ;;
  match MultiDict.get (Request.headers req) "cookie" (PStr "") with
  | None => raise (Fatal {| cls := "IndexError"; message := "" |})
  | Some header =>
      match cookie_load E header with
      | Some jar => put_request (Request.set_cookies req (Request.cookies req ++ jar))
      | None => raise (Early (Response.of_status E 400))
      end
  end.

(** Step 4: the [while True] loop over body events, on the events still to
    come; it yields the body, the events left and how the loop ended. *)
Fixpoint body_loop (E : Stdlib) (max_content : Z) (body : bytes)
  (events : list BodyEvent) : bytes * list BodyEvent * (unit + Exn) :=
  match events with
  | [] => (body, [], inr Pending)
  | event :: rest =>
      let body' := body ++ chunk event in
      if Z.ltb max_content (Z.of_nat (List.length body')) then
        (body', rest, inr (Early (Response.of_status E 413)))
      else if negb (more_body event) then (body', rest, inl tt)
      else body_loop E max_content body' rest
  end.

Definition read_body (E : Stdlib) (max_content : Z) : M unit :=
  fun tx =>
    let '(body', rest, r) :=
      body_loop E max_content (Request.body (request tx)) (inbox tx) in
    (r, {| request := Request.set_body (request tx) body'; inbox := rest;
           calls := calls tx |}).

(** Step 5: JSON and URL-encoded bodies. *)
Definition decode_content (E : Stdlib) : M unit :=
  req <- get_request ;;
  match MultiDict.get (Request.headers req) "content-type" (PStr "") with
  | Some (PStr content_type) =>
      if contains "application/json" content_type then
        match decode E (Request.body req) with
        | None => raise (Early (Response.of_status E 400))
        | Some text =>
            match json_loads E text with
            | None => raise (Early (Response.of_status E 400))
            | Some v => put_request (Request.set_json req (Some v))
            end
        end
      else if contains "application/x-www-form-urlencoded" content_type then
        put_request (Request.set_form req (MultiDict.of_dict (parse_qs E (Request.body req))))
      else ret tt
  | Some _ => raise (Fatal {| cls := "TypeError"; message := "" |})
  | None => raise (Fatal {| cls := "IndexError"; message := "" |})
  end.

(** [await asyncfy(func, request)] for the before-hook at position [i]. *)
Definition call_before (i : nat) (func : Handler) : M Response.Returned :=
  req <- get_request ;;
  record_call (CallBefore i req) ;;;
  let '(req', o) := func req in
  put_request req' ;;;
  of_outcome o.

(** Step 6: the before-chain. *)
Fixpoint run_before (E : Stdlib) (hooks : list Handler) (i : nat) : M unit :=
  match hooks with
  | [] => ret tt
  | func :: rest =>
      v <- call_before i func ;;
      if Response.truthy v then raise_from_any E v
      else run_before E rest (S i)
  end.

(** [await asyncfy(func, request)] for the handler of a route. *)
Definition call_handler (route : Pattern) (func : Handler) : M Response.Returned :=
  req <- get_request ;;
  record_call (CallHandler (pattern route) (Request.method req) req) ;;;
  let '(req', o) := func req in
  put_request req' ;;;
  of_outcome o.

(** [response = Response(METHOD_NOT_ALLOWED); response.headers["allow"] =
    ", ".join(methods)] *)
Definition method_not_allowed (E : Stdlib) (methods : Methods) : Response.t :=
  let response := Response.of_status E 405 in
  Response.set_headers response
    (MultiDict.__setitem__ (Response.headers response) "allow"
       (PStr (join ", " (PyDict.keys methods)))).

(** Step 7 on a compiled table: [for route, methods in ...: ... else: ...] *)
Fixpoint resolve (E : Stdlib) (table : list (Pattern * Methods)) : M Response.t :=
  match table with
  | [] => ret (Response.of_status E 404)
  | (route, methods) :: rest =>
      req <- get_request ;;
      match fullmatch route (Request.path req) with
      | Some groups =>
          put_request (Request.set_params req groups) ;;;
          match PyDict.get methods (Request.method req) with
          | Some func =>
              v <- call_handler route func ;;
              normalize E v
          | None => ret (method_not_allowed E methods)
          end
      | None => resolve E rest
      end
  end.

(** Step 7.  A key that was never compiled is a [str], which has no
    [fullmatch]. *)
Definition dispatch (E : Stdlib) (routes : Routes) : M Response.t :=
  match routes with
  | Compiled table => resolve E table
  | Uncompiled [] => ret (Response.of_status E 404)
  | Uncompiled (_ :: _) =>
      raise (Fatal {| cls := "AttributeError";
                      message := "'str' object has no attribute 'fullmatch'" |})
  end.

(** Steps 2 to 7: the body of the outer [try]. *)
Definition steps (E : Stdlib) (app : Application) (scope : Scope) : M Response.t :=
  load_headers E scope ;;;
  load_cookies E ;;;
  read_body E (_max_content app) ;;;
  decode_content E ;;;
  run_before E (_before app) 0 ;;;
  dispatch E (_routes app).

(** The outer [try: ... except Response as early_response]. *)
Definition respond (E : Stdlib) (app : Application) (scope : Scope) : M Response.t :=
  except_response (steps E app scope).

(** [await asyncfy(func, request, response)] for the after-hook at
    position [i]: the response object afterwards and what was returned. *)
Definition call_after (i : nat) (func : AfterHook) (response : Response.t)
  : M (Response.t * Response.Returned) :=
  req <- get_request ;;
  record_call (CallAfter i req response) ;;;
  let '(req', response', o) := func req response in
  put_request req' ;;;
  v <- of_outcome o ;;
  ret (response', v).

Fixpoint after_loop (E : Stdlib) (hooks : list AfterHook) (i : nat)
  (response : Response.t) : M Response.t :=
  match hooks with
  | [] => ret response
  | func :: rest =>
      rv <- call_after i func response ;;
      if Response.truthy (snd rv) then raise_from_any E (snd rv)
      else after_loop E rest (S i) (fst rv)
  end.

(** Step 9: the after-chain, inside its own [try: ... except Response]. *)
Definition run_after (E : Stdlib) (hooks : list AfterHook) (response : Response.t)
  : M Response.t :=
  except_response (after_loop E hooks 0 response).

(** Step 10: [content-length] when absent, and the [set-cookie] entry.
    The right injection is the [IndexError] of [setdefault] on a
    [content-length] stored without a value. *)
Definition finalize (response : Response.t) : Response.t + Error :=
  match MultiDict.setdefault (Response.headers response) "content-length"
          (PInt (Z.of_nat (List.length (Response.body response)))) with
  | (h, Some _) =>
      inl (Response.set_headers response
             (MultiDict._update h
                [("set-cookie", map PStr (Response.cookies response))]))
  | (_, None) => inr {| cls := "IndexError"; message := "list index out of range" |}
  end.

(** [[[str(k).encode(), str(v).encode()] for k, l in _items() for v in l]] *)
Definition wire_headers (E : Stdlib) (h : MultiDict.t) : list (bytes * bytes) :=
  flat_map (fun kl => map (fun v => (encode E (fst kl), encode E (to_str E v))) (snd kl))
    (MultiDict._items h).

(** Step 11: the two events sent. *)
Definition emit (E : Stdlib) (response : Response.t) : list Sent :=
  [ResponseStart (Response.status response) (wire_headers E (Response.headers response));
   ResponseBody (Response.body response)].

(** [Request(...)] of the HTTP branch. *)
Definition request_of_scope (E : Stdlib) (scope : Scope) : Request.t :=
  Request.__init__ (scope_method scope) (scope_path scope)
    (match scope_client scope with Some (host, _) => host | None => "" end)
    (parse_qs E (scope_query_string scope))
    (match scope_state scope with Some s => s | None => PyDict.empty end).

(** Steps 2 to 9: the response in flight. *)
Definition transaction (E : Stdlib) (app : Application) (scope : Scope) : M Response.t :=
  response <- respond E app scope ;;
  run_after E (_after app) response.

Record HttpRun : Type := {
  (** the events sent, or how the coroutine ended instead *)
  http_sent : list Sent + Exn;
  http_tx : Tx
}.

(** The HTTP branch of [__call__], over the body events that [receive()]
    delivers in turn. *)
Definition http (E : Stdlib) (app : Application) (scope : Scope)
  (events : list BodyEvent) : HttpRun :=
  let tx := {| request := request_of_scope E scope; inbox := events; calls := [] |} in
  match transaction E app scope tx with
  | (inl response, tx') =>
      {| http_sent := match finalize response with
                      | inl final => inl (emit E final)
                      | inr e => inr (Fatal e)
                      end;
         http_tx := tx' |}
  | (inr e, tx') => {| http_sent := inr e; http_tx := tx' |}
  end.

(** *** States named in the statements *)

(** The transaction as [__call__] starts it. *)
Definition start (E : Stdlib) (scope : Scope) (events : list BodyEvent) : Tx :=
  {| request := request_of_scope E scope; inbox := events; calls := [] |}.

(** The routes that do not match the path of the request. *)
Definition no_match (tx : Tx) (entry : Pattern * Methods) : Prop :=
  fullmatch (fst entry) (Request.path (request tx)) = None.

(** The state in which the code after a successful [fullmatch] runs. *)
Definition matched (tx : Tx) (groups : PyDict.t Any) : Tx :=
  {| request := Request.set_params (request tx) groups;
     inbox := inbox tx; calls := calls tx |}.

(** What the call of a handler leaves: the call is logged with the request
    it was given, and the request object is as the handler left it. *)
Definition handled (tx : Tx) (route : Pattern) (func : Handler) : Tx :=
  {| request := fst (func (request tx));
     inbox := inbox tx;
     calls := calls tx ++ [CallHandler (pattern route) (Request.method (request tx))
                             (request tx)] |}.

(** The calls of after-hooks. *)
Definition is_after_call (c : Call) : Prop :=
  match c with
  | CallAfter _ _ _ => True
  | _ => False
  end.

(** Steps 2 to 6: what runs before route resolution. *)
Definition before_routing (E : Stdlib) (app : Application) (scope : Scope) : M unit :=
  load_headers E scope ;;;
  load_cookies E ;;;
  read_body E (_max_content app) ;;;
  decode_content E ;;;
  run_before E (_before app) 0.

(** The keys of a [MultiDict] built through its own methods are stored
    lowercased. *)
Definition lowercase_keys (m : MultiDict.t) : Prop :=
  Forall (fun k => lower k = k) (PyDict.keys m).

(** Which chain a call belongs to, and its position there. *)
Inductive CallKind : Type :=
| BeforeHook (i : nat)
| RouteHandler
| AfterHookCall (i : nat).

Definition kind_of (c : Call) : CallKind :=
  match c with
  | CallBefore i _ => BeforeHook i
  | CallHandler _ _ _ => RouteHandler
  | CallAfter i _ _ => AfterHookCall i
  end.

End Serving.

(** ** A standard library for running the model

    The general theorems hold for every [Stdlib].  To run the gateway on
    concrete requests the fields need values; the ones below agree with
    Python on the inputs the examples use: ASCII text, flat dictionaries of
    integers and strings, and the three route patterns of [compile]. *)

Module Sample.

Definition phrase (code : Z) : option string :=
  match code with
  | 200 => Some "OK"
  | 201 => Some "Created"
  | 204 => Some "No Content"
  | 400 => Some "Bad Request"
  | 401 => Some "Unauthorized"
  | 403 => Some "Forbidden"
  | 404 => Some "Not Found"
  | 405 => Some "Method Not Allowed"
  | 413 => Some "Request Entity Too Large"
  | 500 => Some "Internal Server Error"
  | _ => None
  end%Z.

Definition is_ascii (b : byte) : bool := N.ltb (Byte.to_N b) 128.

(** ASCII bytes decode to themselves; a byte from 128 up is rejected (the
    examples use [0xff] only, which no UTF-8 text contains). *)
Definition ascii_decode (b : bytes) : option string :=
  if forallb is_ascii b then Some (string_of_list_byte b) else None.

Definition ascii_encode (s : string) : bytes := list_byte_of_string s.

Definition decimal (z : Z) : string := NilZero.string_of_int (Z.to_int z).

Definition quote (s : string) : string := (String "034" s ++ String "034" "")%string.

Definition str (a : Any) : string :=
  match a with
  | PStr s => s
  | PInt z => decimal z
  | PNone => "None"
  | _ => ""
  end.

(** [json.dumps] with its default separators, on values made of
    integers, [None], texts that need no escape, lists and dictionaries;
    bytes and other objects are not serializable. *)
Fixpoint dumps_value (a : Any) : option string :=
  match a with
  | PNone => Some "null"
  | PInt z => Some (decimal z)
  | PStr s => Some (quote s)
  | PList l =>
      option_map (fun parts => ("[" ++ join ", " parts ++ "]")%string)
        ((fix each (l : list Any) : option (list string) :=
            match l with
            | [] => Some []
            | x :: rest =>
                match dumps_value x, each rest with
                | Some text, Some texts => Some (text :: texts)
                | _, _ => None
                end
            end) l)
  | PDict d =>
      option_map (fun parts => ("{" ++ join ", " parts ++ "}")%string)
        ((fix each (d : list (string * Any)) : option (list string) :=
            match d with
            | [] => Some []
            | (k, x) :: rest =>
                match dumps_value x, each rest with
                | Some text, Some texts =>
                    Some ((quote k ++ ": " ++ text)%string :: texts)
                | _, _ => None
                end
            end) d)
  | PBytes _ | PObj _ => None
  end.

Definition dumps : Serializer :=
  fun d =>
    match dumps_value (PDict d) with
    | Some text => inl text
    | None => inr {| cls := "TypeError";
                     message := "Object is not JSON serializable" |}
    end.

Definition loads (s : string) : option Any :=
  if String.eqb s "{}" then Some (PDict []) else None.

(** An illegal cookie key raises [CookieError]. *)
Definition load_cookie (header : Any) : option Jar :=
  match header with
  | PStr s => if String.eqb s "a,b=1" then None else Some []
  | _ => Some []
  end.

Definition literal (s : string) : Pattern :=
  {| pattern := s;
     fullmatch := fun p => if String.eqb p s then Some PyDict.empty else None |}.

Definition newline : string := String "010"%char EmptyString.

(** [/.*]: a slash, then anything up to a line end. *)
Definition any_path : Pattern :=
  {| pattern := "/.*";
     fullmatch := fun p =>
       if andb (String.prefix "/" p) (negb (contains newline p))
       then Some PyDict.empty else None |}.

Fixpoint all_digits (s : string) : bool :=
  match s with
  | EmptyString => true
  | String c s' =>
      andb (andb (Nat.leb 48 (nat_of_ascii c)) (Nat.leb (nat_of_ascii c) 57))
           (all_digits s')
  end.

(** [/items/(?P<id>[0-9]+)] *)
Definition item_path : Pattern :=
  {| pattern := "/items/(?P<id>[0-9]+)";
     fullmatch := fun p =>
       let rest := String.substring 7 (String.length p - 7) p in
       if andb (String.prefix "/items/" p)
               (andb (negb (String.eqb rest "")) (all_digits rest))
       then Some [("id", PStr rest)] else None |}.

Definition is_meta (c : ascii) : bool :=
  existsb (Ascii.eqb c)
    (list_ascii_of_string ".^$*+?{}[]\|()").

Definition compile (s : string) : Pattern + string :=
  if String.eqb s "/.*" then inl any_path
  else if String.eqb s "/items/(?P<id>[0-9]+)" then inl item_path
  else if existsb is_meta (list_ascii_of_string s)
       then inr "unsupported pattern"
       else inl (literal s).

Lemma lower_ascii_idempotent (c : ascii) : lower_ascii (lower_ascii c) = lower_ascii c.
Proof. destruct c as [[] [] [] [] [] [] [] []]; reflexivity. Qed.

Lemma ascii_lower_idempotent (s : string) : ascii_lower (ascii_lower s) = ascii_lower s.
Proof.
  induction s as [|c s IH]; simpl.
  - reflexivity.
  - now rewrite lower_ascii_idempotent, IH.
Qed.

(** [str.lower] on ASCII text, for the examples: their keys are ASCII
    text, on which every [Lower] is this one. *)
Definition ascii : Lower :=
  {| lower := ascii_lower;
     lower_twice := ascii_lower_idempotent;
     lower_on_ascii := fun s _ => eq_refl |}.

Definition python : Stdlib :=
  {| http_phrase := phrase;
     decode := ascii_decode;
     encode := ascii_encode;
     to_str := str;
     json_dumps := dumps;
     json_loads := loads;
     parse_qs := fun _ => PyDict.empty;
     cookie_load := load_cookie;
     re_compile := compile |}.

(** [lambda request: "hi"] *)
Definition hello : Handler := fun req => (req, Return (Response.Value (PStr "hi"))).

(** [lambda request: "other"] *)
Definition other : Handler := fun req => (req, Return (Response.Value (PStr "other"))).

(** [lambda request: {"a": 1}] *)
Definition mapping : Handler :=
  fun req => (req, Return (Response.Value (PDict [("a", PInt 1)]))).

(** [lambda request: {"id": request.params["id"]}] *)
Definition show_id : Handler :=
  fun req =>
    (req, Return (Response.Value
                    (PDict [("id", PyDict.get_default (Request.params req) "id" PNone)]))).

(** [lambda request, response: None] *)
Definition quiet : AfterHook :=
  fun req resp => (req, resp, Return (Response.Value PNone)).

(** [lambda request, response: "replaced"] *)
Definition replace : AfterHook :=
  fun req resp => (req, resp, Return (Response.Value (PStr "replaced"))).



Definition get_x : Scope :=
  {| scope_method := "GET"; scope_path := "/x"; scope_client := None;
     scope_query_string := []; scope_headers := []; scope_state := None |}.

Definition app (routes : PyDict.t Methods) (after : list AfterHook) (max : Z)
  : Application :=
  Application_init python (Some routes) [] [] [] after None max.

End Sample.


(** * Properties *)

(** ** Facts about [str.lower] *)

Lemma lower_idempotent {L : Lower} (s : string) : lower (lower s) = lower s.
Proof. apply lower_twice. Qed.

(** A key written in ASCII is lowercased as ASCII text. *)
Ltac lower_keys :=
  repeat match goal with
         | |- context [lower ?s] => rewrite (lower_on_ascii s eq_refl)
         end.

Lemma last_item_snoc {A} (l : list A) (x : A) : last_item (l ++ [x]) = Some x.
Proof. unfold last_item. now rewrite rev_unit. Qed.

(** ** Facts about [dict] *)

Module PyDictFacts.
Section Facts.
Context {V : Type}.
Implicit Types (d : PyDict.t V) (k : string) (v : V).

Lemma get_setitem_eq d k v : PyDict.get (PyDict.setitem d k v) k = Some v.
Proof.
  induction d as [|[k' v'] d IH]; simpl.
  - now rewrite String.eqb_refl.
  - destruct (String.eqb k k') eqn:Hk; simpl; rewrite Hk; auto.
Qed.

Lemma get_setitem_neq d k k' v :
  k' <> k -> PyDict.get (PyDict.setitem d k v) k' = PyDict.get d k'.
Proof.
  intros Hne. induction d as [|[k0 v0] d IH]; simpl.
  - apply String.eqb_neq in Hne. now rewrite Hne.
  - destruct (String.eqb k k0) eqn:Hk; simpl.
    + apply String.eqb_eq in Hk. subst k0.
      apply String.eqb_neq in Hne. now rewrite Hne.
    + destruct (String.eqb k' k0); auto.
Qed.

Lemma get_In d k v : PyDict.get d k = Some v -> In (k, v) d.
Proof.
  induction d as [|[k0 v0] d IH]; simpl; [discriminate|].
  destruct (String.eqb k k0) eqn:Hk.
  - apply String.eqb_eq in Hk. intros [= ->]. subst. now left.
  - intros H. right. auto.
Qed.

Lemma In_get d k v : NoDup (PyDict.keys d) -> In (k, v) d -> PyDict.get d k = Some v.
Proof.
  induction d as [|[k0 v0] d IH]; simpl; [tauto|].
  intros Hnd. inversion Hnd as [|? ? Hnin Hnd']; subst.
  intros [[= -> ->]|Hin].
  - now rewrite String.eqb_refl.
  - destruct (String.eqb k k0) eqn:Hk; [|auto].
    apply String.eqb_eq in Hk. subst. exfalso. apply Hnin.
    change k0 with (fst (k0, v)). now apply in_map.
Qed.

Lemma get_none_keys d k : PyDict.get d k = None <-> ~ In k (PyDict.keys d).
Proof.
  induction d as [|[k0 v0] d IH]; simpl.
  - tauto.
  - destruct (String.eqb k k0) eqn:Hk.
    + apply String.eqb_eq in Hk. subst. split; [discriminate|]. intros H. exfalso. auto.
    + apply String.eqb_neq in Hk. rewrite IH. split.
      * intros H [H1|H1]; [congruence|auto].
      * intros H H1. auto.
Qed.

Lemma In_setitem d k v k0 v0 :
  In (k0, v0) (PyDict.setitem d k v) -> (k0 = k /\ v0 = v) \/ In (k0, v0) d.
Proof.
  induction d as [|[k1 v1] d IH]; simpl.
  - intros [[= <- <-]|[]]. now left.
  - destruct (String.eqb k k1) eqn:Hk; simpl.
    + apply String.eqb_eq in Hk. subst k1.
      intros [[= <- <-]|H]; [now left|right; now right].
    + intros [H|H]; [right; now left|].
      destruct (IH H) as [?|?]; [now left|right; now right].
Qed.

Lemma In_remove d k k0 v0 : In (k0, v0) (PyDict.remove d k) -> In (k0, v0) d.
Proof.
  induction d as [|[k1 v1] d IH]; simpl; [tauto|].
  destruct (String.eqb k k1); simpl; intuition.
Qed.

Lemma keys_setitem_present d k v :
  In k (PyDict.keys d) -> PyDict.keys (PyDict.setitem d k v) = PyDict.keys d.
Proof.
  induction d as [|[k1 v1] d IH]; simpl; [tauto|].
  destruct (String.eqb k k1) eqn:Hk; simpl; [reflexivity|].
  apply String.eqb_neq in Hk. intros [H|H]; [congruence|]. now rewrite IH.
Qed.

Lemma keys_setitem_absent d k v :
  ~ In k (PyDict.keys d) -> PyDict.keys (PyDict.setitem d k v) = PyDict.keys d ++ [k].
Proof.
  induction d as [|[k1 v1] d IH]; simpl; [reflexivity|].
  intros H. destruct (String.eqb k k1) eqn:Hk; simpl.
  - apply String.eqb_eq in Hk. exfalso. auto.
  - rewrite IH; auto.
Qed.

(** A dictionary has each key once; [setitem] and [remove] keep it so. *)
Lemma NoDup_setitem d k v :
  NoDup (PyDict.keys d) -> NoDup (PyDict.keys (PyDict.setitem d k v)).
Proof.
  intros Hd. destruct (in_dec string_dec k (PyDict.keys d)) as [Hin|Hin].
  - now rewrite keys_setitem_present.
  - rewrite keys_setitem_absent by assumption.
    apply NoDup_app; auto.
    + constructor; [intros []|constructor].
    + intros x Hx [<-|[]]. auto.
Qed.

Lemma keys_remove_incl d k x : In x (PyDict.keys (PyDict.remove d k)) -> In x (PyDict.keys d).
Proof.
  induction d as [|[k1 v1] d IH]; simpl; [tauto|].
  destruct (String.eqb k k1); simpl; intuition.
Qed.

Lemma NoDup_remove d k : NoDup (PyDict.keys d) -> NoDup (PyDict.keys (PyDict.remove d k)).
Proof.
  induction d as [|[k1 v1] d IH]; simpl; [auto|].
  intros Hd. inversion Hd as [|? ? Hnin Hd']; subst.
  destruct (String.eqb k k1); simpl; [assumption|].
  constructor; auto. intros H. apply Hnin. eapply keys_remove_incl; eauto.
Qed.

Lemma get_remove_eq d k : NoDup (PyDict.keys d) -> PyDict.get (PyDict.remove d k) k = None.
Proof.
  induction d as [|[k1 v1] d IH]; simpl; [auto|].
  intros Hd. inversion Hd as [|? ? Hnin Hd']; subst.
  destruct (String.eqb k k1) eqn:Hk; simpl.
  - apply String.eqb_eq in Hk. subst. now apply get_none_keys.
  - rewrite Hk. auto.
Qed.

Lemma get_remove_neq d k k' : k' <> k -> PyDict.get (PyDict.remove d k) k' = PyDict.get d k'.
Proof.
  intros Hne. induction d as [|[k1 v1] d IH]; simpl; [auto|].
  destruct (String.eqb k k1) eqn:Hk; simpl.
  - apply String.eqb_eq in Hk. subst. apply String.eqb_neq in Hne. now rewrite Hne.
  - destruct (String.eqb k' k1); auto.
Qed.

Lemma update_app d (xs ys : list (string * V)) :
  PyDict.update d (xs ++ ys) = PyDict.update (PyDict.update d xs) ys.
Proof. unfold PyDict.update. apply fold_left_app. Qed.

(** A key that [items] does not mention keeps its value. *)
Lemma get_update_other d (items : list (string * V)) k :
  ~ In k (map fst items) -> PyDict.get (PyDict.update d items) k = PyDict.get d k.
Proof.
  revert d. induction items as [|[k0 v0] items IH]; intros d Hnin; simpl.
  - reflexivity.
  - simpl in Hnin. rewrite IH by tauto. apply get_setitem_neq. intros ->. tauto.
Qed.

(** The last item of a key decides its value. *)
Lemma get_update_last d (xs ys : list (string * V)) k v :
  ~ In k (map fst ys) -> PyDict.get (PyDict.update d (xs ++ (k, v) :: ys)) k = Some v.
Proof.
  intros Hnin. rewrite update_app. simpl.
  change (PyDict.get (PyDict.update (PyDict.setitem (PyDict.update d xs) k v) ys) k = Some v).
  rewrite get_update_other by assumption. apply get_setitem_eq.
Qed.

Lemma NoDup_update d (items : list (string * V)) :
  NoDup (PyDict.keys d) -> NoDup (PyDict.keys (PyDict.update d items)).
Proof.
  revert d. induction items as [|[k0 v0] items IH]; intros d Hd; simpl; auto.
  apply IH. now apply NoDup_setitem.
Qed.

(** Copying a dictionary into an empty one gives the dictionary. *)
Lemma update_empty_prefix (pre d : PyDict.t V) :
  NoDup (PyDict.keys (pre ++ d)) -> PyDict.update pre d = pre ++ d.
Proof.
  revert pre. induction d as [|[k v] d IH]; intros pre Hnd; simpl.
  - now rewrite app_nil_r.
  - assert (Hset : PyDict.setitem pre k v = pre ++ [(k, v)]).
    { clear IH. induction pre as [|[k1 v1] pre IHp]; simpl; [reflexivity|].
      simpl in Hnd. inversion Hnd as [|? ? Hnin Hnd']; subst.
      destruct (String.eqb k k1) eqn:Hk.
      - apply String.eqb_eq in Hk. subst. exfalso. apply Hnin.
        unfold PyDict.keys. rewrite map_app, in_app_iff. right. now left.
      - f_equal. now apply IHp. }
    change (PyDict.update (PyDict.setitem pre k v) d = pre ++ (k, v) :: d).
    rewrite Hset, IH; rewrite <- app_assoc; [reflexivity|exact Hnd].
Qed.

Lemma update_empty d : NoDup (PyDict.keys d) -> PyDict.update PyDict.empty d = d.
Proof. intros H. now apply (update_empty_prefix []). Qed.

Lemma get_split d k v :
  PyDict.get d k = Some v ->
  exists xs ys, d = xs ++ (k, v) :: ys /\ ~ In k (PyDict.keys xs).
Proof.
  induction d as [|[k0 v0] d IH]; simpl; [discriminate|].
  destruct (String.eqb k k0) eqn:Hk.
  - apply String.eqb_eq in Hk. subst. intros [= ->].
    exists [], d. split; [reflexivity|intros []].
  - apply String.eqb_neq in Hk. intros H.
    destruct (IH H) as (xs & ys & -> & Hnin).
    exists ((k0, v0) :: xs), ys. split; [reflexivity|].
    simpl. intros [H1|H1]; [congruence|auto].
Qed.

(** [d.update(other)] for a dictionary [other]: its entries win. *)
Lemma get_update_dict d (other : PyDict.t V) k :
  NoDup (PyDict.keys other) ->
  PyDict.get (PyDict.update d other) k =
  match PyDict.get other k with
  | Some v => Some v
  | None => PyDict.get d k
  end.
Proof.
  intros Hnd. destruct (PyDict.get other k) as [v|] eqn:Hget.
  - destruct (get_split other k v Hget) as (xs & ys & -> & Hxs).
    apply get_update_last.
    unfold PyDict.keys in Hnd. rewrite map_app in Hnd. simpl in Hnd.
    apply NoDup_remove_2 in Hnd. rewrite in_app_iff in Hnd. tauto.
  - apply get_update_other. now apply get_none_keys.
Qed.

End Facts.
End PyDictFacts.

(** ** [MultiDict] *)

Module MultiDictFacts.

Import PyDictFacts.

Section Stored.
Context {L : Lower}.

Lemma setitem_stored (m : MultiDict.t) (key : string) (value : Any) :
  MultiDict.__setitem__ m key value =
  PyDict.setitem m (lower key) (PyDict.get_default m (lower key) [] ++ [value]).
Proof.
  unfold MultiDict.__setitem__, PyDict.setdefault, PyDict.get_default.
  destruct (PyDict.get m (lower key)) as [l|] eqn:Hget; [reflexivity|].
  simpl. clear Hget.
  induction m as [|[k0 l0] m IH]; simpl.
  - now rewrite String.eqb_refl.
  - destruct (String.eqb (lower key) k0) eqn:Hk; simpl; rewrite Hk; [reflexivity|].
    now rewrite IH.
Qed.

Lemma get_setitem_same (m : MultiDict.t) (key : string) (value : Any) :
  PyDict.get (MultiDict.__setitem__ m key value) (lower key) =
  Some (PyDict.get_default m (lower key) [] ++ [value]).
Proof. rewrite setitem_stored. apply get_setitem_eq. Qed.

Lemma setitem_nonempty (m : MultiDict.t) (key : string) (value : Any) :
  MultiDict.nonempty_values m -> MultiDict.nonempty_values (MultiDict.__setitem__ m key value).
Proof.
  intros Hm k l Hin. rewrite setitem_stored in Hin.
  apply In_setitem in Hin. destruct Hin as [[_ ->]|Hin].
  - intros H. now apply app_eq_nil in H.
  - eauto.
Qed.

Lemma setitem_NoDup (m : MultiDict.t) (key : string) (value : Any) :
  NoDup (PyDict.keys m) -> NoDup (PyDict.keys (MultiDict.__setitem__ m key value)).
Proof. rewrite setitem_stored. apply NoDup_setitem. Qed.

Lemma removelast_nonempty {A} (l : list A) : 1 < List.length l -> removelast l <> [].
Proof.
  destruct l as [|a [|b l]]; simpl; try lia. discriminate.
Qed.

(** With unique keys, the invariant reads: what [get] finds is not empty. *)
Lemma nonempty_values_get (m : MultiDict.t) :
  NoDup (PyDict.keys m) ->
  (MultiDict.nonempty_values m <-> forall k l, PyDict.get m k = Some l -> l <> []).
Proof.
  intros Hnd. split.
  - intros Hm k l Hget. apply (Hm k). now apply get_In.
  - intros Hm k l Hin. apply (Hm k). now apply In_get.
Qed.

End Stored.

End MultiDictFacts.

Import PyDictFacts MultiDictFacts.

(** C10.  On a [MultiDict] whose keys all own at least one value,
    [__setitem__], [setdefault] and [pop] give a [MultiDict] with the same
    property.  [__setitem__] appends to the values of the key, starting from
    an empty list when the key is absent; [setdefault] stores the singleton
    of the default when the key is absent and changes nothing otherwise;
    [pop] drops the last value only when the key has more than one, and
    otherwise removes the key. *)
Theorem setitem_setdefault_pop_keep_values_nonempty {L : Lower}
  (m : MultiDict.t) (key : string) (value default : Any) :
  NoDup (PyDict.keys m) ->
  MultiDict.nonempty_values m ->
  let values := MultiDict._get m key [] in
  (MultiDict.nonempty_values (MultiDict.__setitem__ m key value)
   /\ MultiDict._get (MultiDict.__setitem__ m key value) key [] = values ++ [value])
  /\ (MultiDict.nonempty_values (fst (MultiDict.setdefault m key default))
      /\ (PyDict.get m (lower key) = None ->
          MultiDict._get (fst (MultiDict.setdefault m key default)) key [] = [default])
      /\ (PyDict.get m (lower key) <> None ->
          fst (MultiDict.setdefault m key default) = m))
  /\ (MultiDict.nonempty_values (fst (MultiDict.pop m key default))
      /\ (1 < List.length values ->
          MultiDict._get (fst (MultiDict.pop m key default)) key [] = removelast values)
      /\ (List.length values <= 1 ->
          PyDict.get (fst (MultiDict.pop m key default)) (lower key) = None)).
Proof.
  intros Hnd Hm values. repeat split.
  - now apply setitem_nonempty.
  - unfold MultiDict._get, PyDict.get_default at 1. now rewrite get_setitem_same.
  - unfold MultiDict.setdefault, PyDict.setdefault.
    destruct (PyDict.get m (lower key)) as [stored|]; simpl; [assumption|].
    intros k l Hin. apply In_setitem in Hin. destruct Hin as [[_ ->]|Hin].
    + discriminate.
    + eauto.
  - intros Habsent. unfold MultiDict.setdefault, PyDict.setdefault.
    rewrite Habsent. simpl. unfold MultiDict._get, PyDict.get_default.
    now rewrite get_setitem_eq.
  - intros Hpresent. unfold MultiDict.setdefault, PyDict.setdefault.
    destruct (PyDict.get m (lower key)); [reflexivity|congruence].
  - unfold MultiDict.pop. fold values.
    change (PyDict.get_default m (lower key) []) with values.
    destruct (Nat.ltb 1 (List.length values)) eqn:Hlen; simpl.
    + apply Nat.ltb_lt in Hlen. intros k l Hin.
      apply In_setitem in Hin. destruct Hin as [[_ ->]|Hin].
      * now apply removelast_nonempty.
      * eauto.
    + destruct (PyDict.get m (lower key)) as [stored|]; simpl; [|assumption].
      intros k l Hin. apply In_remove in Hin. eauto.
  - intros Hlen. unfold MultiDict.pop.
    change (PyDict.get_default m (lower key) []) with values.
    apply Nat.ltb_lt in Hlen. rewrite Hlen. simpl.
    unfold MultiDict._get, PyDict.get_default. now rewrite get_setitem_eq.
  - intros Hlen. unfold MultiDict.pop.
    change (PyDict.get_default m (lower key) []) with values.
    apply Nat.ltb_ge in Hlen. rewrite Hlen.
    destruct (PyDict.get m (lower key)) eqn:Hget; simpl.
    + now apply get_remove_eq.
    + assumption.
Qed.

Section SetitemSetdefaultPopKeepValuesNonemptyRun.
#[local] Existing Instance Sample.ascii.

Lemma setitem_setdefault_pop_keep_values_nonempty_witness :
  let m : MultiDict.t := [("a", [PInt 1; PInt 2]); ("b", [PStr "x"])] in
  MultiDict.nonempty_values (MultiDict.__setitem__ m "A" (PInt 3))
  /\ MultiDict._get (fst (MultiDict.pop m "A" PNone)) "A" [] = [PInt 1]
  /\ PyDict.get (fst (MultiDict.pop m "B" PNone)) "b" = None.
Proof.
  intros m.
  assert (Hnd : NoDup (PyDict.keys m)).
  { repeat constructor; simpl; intuition discriminate. }
  assert (Hm : MultiDict.nonempty_values m).
  { intros k l [[= <- <-]|[[= <- <-]|[]]]; discriminate. }
  pose proof (setitem_setdefault_pop_keep_values_nonempty m "A" (PInt 3) PNone Hnd Hm)
    as HA.
  pose proof (setitem_setdefault_pop_keep_values_nonempty m "B" (PInt 3) PNone Hnd Hm)
    as HB.
  cbv zeta in HA, HB.
  destruct HA as ((Hset & _) & _ & (_ & Hpop & _)).
  destruct HB as (_ & _ & (_ & _ & Hgone)).
  split; [exact Hset|]. split.
  - exact (Hpop ltac:(simpl; lia)).
  - exact (Hgone ltac:(simpl; lia)).
Defined.

End SetitemSetdefaultPopKeepValuesNonemptyRun.

Section AllValuesKeepEarlierOnesRun.
#[local] Existing Instance Sample.ascii.

(** C8 as stated fails on a [MultiDict] that already holds a value for the
    key: after inserting 1 then 2 under ["k"] into [{"k": [0]}], all the
    values of ["k"] are [[0, 1, 2]], not [[1, 2]]. *)
Lemma all_values_keep_earlier_ones :
  let m : MultiDict.t := [("k", [PInt 0])] in
  let m2 := MultiDict.__setitem__ (MultiDict.__setitem__ m "k" (PInt 1)) "k" (PInt 2) in
  MultiDict._get m2 "k" [PNone] = [PInt 0; PInt 1; PInt 2]
  /\ MultiDict._get m2 "k" [PNone] <> [PInt 1; PInt 2].
Proof. split; [reflexivity|discriminate]. Qed.

End AllValuesKeepEarlierOnesRun.

(** C8, amended.  For every [MultiDict] and all case variants [k1], [k2],
    [k3] of a key: after inserting [v1] under [k1] and then [v2] under [k2],
    the single value read under [k3] (by [get] and by [__getitem__]) is
    [v2], and all the values read under [k3] are the values the key had
    before followed by [v1] and [v2]; they are exactly [[v1, v2]] when the
    key was absent. *)
Theorem insert_twice_read_back {L : Lower}
  (m : MultiDict.t) (k k1 k2 k3 : string) (v1 v2 default : Any) (defaults : list Any) :
  MultiDict.case_variant k k1 ->
  MultiDict.case_variant k k2 ->
  MultiDict.case_variant k k3 ->
  let m2 := MultiDict.__setitem__ (MultiDict.__setitem__ m k1 v1) k2 v2 in
  MultiDict.get m2 k3 default = Some v2
  /\ MultiDict.__getitem__ m2 k3 = Some v2
  /\ MultiDict._get m2 k3 defaults = MultiDict._get m k [] ++ [v1; v2]
  /\ (PyDict.get m (lower k) = None -> MultiDict._get m2 k3 defaults = [v1; v2]).
Proof.
  intros H1 H2 H3 m2. unfold MultiDict.case_variant in H1, H2, H3.
  assert (Hstored : PyDict.get m2 (lower k) =
                    Some (PyDict.get_default m (lower k) [] ++ [v1; v2])).
  { unfold m2. rewrite <- H2 at 1. rewrite get_setitem_same.
    rewrite H2. unfold PyDict.get_default at 1.
    rewrite <- H1 at 1. rewrite get_setitem_same. rewrite H1.
    now rewrite <- app_assoc. }
  assert (Hall : MultiDict._get m2 k3 defaults = MultiDict._get m k [] ++ [v1; v2]).
  { unfold MultiDict._get at 1. rewrite H3. unfold PyDict.get_default at 1.
    now rewrite Hstored. }
  repeat split.
  - unfold MultiDict.get. rewrite H3. unfold PyDict.get_default at 1.
    rewrite Hstored.
    change [v1; v2] with ([v1] ++ [v2]). rewrite app_assoc. apply last_item_snoc.
  - unfold MultiDict.__getitem__. rewrite H3, Hstored.
    change [v1; v2] with ([v1] ++ [v2]). rewrite app_assoc. apply last_item_snoc.
  - exact Hall.
  - intros Habsent. rewrite Hall. unfold MultiDict._get, PyDict.get_default.
    now rewrite Habsent.
Qed.

Section InsertTwiceReadBackRun.
#[local] Existing Instance Sample.ascii.

Lemma insert_twice_read_back_witness :
  let m : MultiDict.t := [("accept", [PStr "a"])] in
  let m2 := MultiDict.__setitem__ (MultiDict.__setitem__ m "Accept" (PStr "b")) "ACCEPT" (PStr "c") in
  MultiDict.case_variant "accept" "Accept"
  /\ MultiDict.case_variant "accept" "ACCEPT"
  /\ MultiDict.case_variant "accept" "aCCept"
  /\ MultiDict.get m2 "aCCept" PNone = Some (PStr "c")
  /\ MultiDict._get m2 "aCCept" [PNone] = [PStr "a"; PStr "b"; PStr "c"].
Proof.
  intros m m2.
  assert (H1 : MultiDict.case_variant "accept" "Accept") by reflexivity.
  assert (H2 : MultiDict.case_variant "accept" "ACCEPT") by reflexivity.
  assert (H3 : MultiDict.case_variant "accept" "aCCept") by reflexivity.
  pose proof (insert_twice_read_back m "accept" "Accept" "ACCEPT" "aCCept"
                (PStr "b") (PStr "c") PNone [PNone] H1 H2 H3)
    as (Hget & _ & Hall & _).
  repeat split; assumption.
Defined.

End InsertTwiceReadBackRun.

Section CaseCollidingKeysLoseAValueRun.
#[local] Existing Instance Sample.ascii.

(** C9 as stated fails on a dictionary with two keys that differ by case
    only: [MultiDict({"A": 1, "a": 2})] stores [[2]] under ["a"], which is
    not the singleton of the value of ["A"]. *)
Lemma case_colliding_keys_lose_a_value :
  let d : PyDict.t Any := [("A", PInt 1); ("a", PInt 2)] in
  NoDup (PyDict.keys d)
  /\ PyDict.get d "A" = Some (PInt 1)
  /\ MultiDict.__init__ (MultiDict.MDict d) = Some (MultiDict.Lists [("a", [PInt 2])])
  /\ PyDict.get [("a", [PInt 2])] (lower "A") <> Some [PInt 1].
Proof.
  repeat split.
  - repeat constructor; simpl; intuition discriminate.
  - discriminate.
Qed.

End CaseCollidingKeysLoseAValueRun.

(** C9, amended.  For every flat dictionary [d] and every key [k] of [d]
    with value [v] such that no later key of [d] has the same lowercase
    form (so for every key, when the keys of [d] are distinct up to case),
    [MultiDict(d)] stores under the lowercased key the singleton [[v]]. *)
Theorem flat_dict_values_become_singletons {L : Lower}
  (d1 d2 : PyDict.t Any) (k : string) (v : Any) :
  (forall l, v <> PList l) ->
  (forall k', In k' (PyDict.keys d2) -> lower k' <> lower k) ->
  exists m, MultiDict.__init__ (MultiDict.MDict (d1 ++ (k, v) :: d2))
            = Some (MultiDict.Lists m)
            /\ PyDict.get m (lower k) = Some [v]
            /\ MultiDict._get m k [] = [v]
            /\ MultiDict.get m k PNone = Some v.
Proof.
  intros Hflat Hlater. eexists. split; [reflexivity|].
  assert (Hstored : PyDict.get (MultiDict.of_dict (d1 ++ (k, v) :: d2)) (lower k)
                    = Some [v]).
  { unfold MultiDict.of_dict, PyDict.comprehension. rewrite map_app. simpl.
    replace (MultiDict.as_values v) with [v]
      by (destruct v; try reflexivity; exfalso; eapply Hflat; reflexivity).
    apply get_update_last. rewrite map_map. simpl.
    intros Hin. apply in_map_iff in Hin. destruct Hin as ([k' v'] & Heq & Hin).
    simpl in Heq. apply (Hlater k'); [|assumption].
    change k' with (fst (k', v')). now apply in_map. }
  repeat split.
  - exact Hstored.
  - unfold MultiDict._get, PyDict.get_default. now rewrite Hstored.
  - unfold MultiDict.get, PyDict.get_default. now rewrite Hstored.
Qed.

Section FlatDictValuesBecomeSingletonsRun.
#[local] Existing Instance Sample.ascii.

Lemma flat_dict_values_become_singletons_witness :
  exists m,
    MultiDict.__init__ (MultiDict.MDict [("Host", PStr "h"); ("Accept", PStr "*/*"); ("X-N", PInt 3)])
    = Some (MultiDict.Lists m)
    /\ PyDict.get m (lower "Accept") = Some [PStr "*/*"]
    /\ MultiDict._get m "Accept" [] = [PStr "*/*"]
    /\ MultiDict.get m "Accept" PNone = Some (PStr "*/*").
Proof.
  apply (flat_dict_values_become_singletons
           [("Host", PStr "h")] [("X-N", PInt 3)] "Accept" (PStr "*/*")).
  - intros l. discriminate.
  - simpl. intros k' [<-|[]]. discriminate.
Defined.

End FlatDictValuesBecomeSingletonsRun.

Section UpdateReplacesExistingValuesRun.
#[local] Existing Instance Sample.ascii.

(** C5 as stated fails: updating [{"a": [1]}] with [{"a": 2}] leaves
    [{"a": [2]}].  The value 1 is gone, and the result is not what
    inserting the entry with [__setitem__] gives, which is [{"a": [1, 2]}]. *)
Lemma update_replaces_existing_values :
  let m : MultiDict.t := [("a", [PInt 1])] in
  let s := MultiDict.SMapping [("a", PInt 2)] in
  MultiDict.update m s = [("a", [PInt 2])]
  /\ ~ In (PInt 1) (MultiDict._get (MultiDict.update m s) "a" [])
  /\ MultiDict.__setitem__ m "a" (PInt 2) = [("a", [PInt 1; PInt 2])]
  /\ MultiDict.update m s <> MultiDict.__setitem__ m "a" (PInt 2).
Proof.
  repeat split.
  - simpl. intros [H|[]]. discriminate.
  - discriminate.
Qed.

End UpdateReplacesExistingValuesRun.

Lemma keys_of_dict {L : Lower} (c : PyDict.t Any) (x : string) :
  In x (PyDict.keys (MultiDict.of_dict c)) -> In x (map lower (PyDict.keys c)).
Proof.
  intros Hin.
  destruct (in_dec string_dec x (map lower (PyDict.keys c))) as [|Hnin]; [assumption|].
  exfalso.
  assert (Hnone : PyDict.get (MultiDict.of_dict c) x = None).
  { unfold MultiDict.of_dict, PyDict.comprehension.
    rewrite get_update_other; [reflexivity|].
    rewrite map_map. unfold PyDict.keys in Hnin. rewrite map_map in Hnin. exact Hnin. }
  apply get_none_keys in Hnone. contradiction.
Qed.

Lemma of_dict_NoDup {L : Lower} (c : PyDict.t Any) : NoDup (PyDict.keys (MultiDict.of_dict c)).
Proof.
  unfold MultiDict.of_dict, PyDict.comprehension. apply NoDup_update. constructor.
Qed.

(** C5, amended.  [m.update(s)] first collects [s] into a plain dictionary
    (for a sequence of pairs, the last value of each key), and then, for
    each key of that dictionary, replaces the whole value sequence stored
    under the lowercased key: by the singleton of the new value, or by the
    new value itself when it is a list.  Between keys with the same
    lowercase form the last one decides.  The keys of [m] that [s] does not
    mention keep their value sequences. *)
Theorem update_replaces_value_sequences {L : Lower} (m : MultiDict.t) (s : MultiDict.Source) :
  (forall k,
      ~ In (lower k) (map lower (PyDict.keys (MultiDict.collect s))) ->
      PyDict.get (MultiDict.update m s) (lower k) = PyDict.get m (lower k))
  /\ (forall c1 k v c2,
         MultiDict.collect s = c1 ++ (k, v) :: c2 ->
         ~ In (lower k) (map lower (PyDict.keys c2)) ->
         PyDict.get (MultiDict.update m s) (lower k) = Some (MultiDict.as_values v))
  /\ (forall d, s = MultiDict.SMapping d -> NoDup (PyDict.keys d) ->
                MultiDict.collect s = d).
Proof.
  repeat split.
  - intros k Hnin. unfold MultiDict.update.
    rewrite get_update_dict by apply of_dict_NoDup.
    destruct (PyDict.get (MultiDict.of_dict (MultiDict.collect s)) (lower k))
      as [l|] eqn:Hget; [|reflexivity].
    exfalso. apply Hnin. apply keys_of_dict.
    apply get_In in Hget. change (lower k) with (fst (lower k, l)). now apply in_map.
  - intros c1 k v c2 Hc Hnin. unfold MultiDict.update.
    rewrite get_update_dict by apply of_dict_NoDup.
    rewrite Hc. unfold MultiDict.of_dict, PyDict.comprehension.
    rewrite map_app. simpl. rewrite get_update_last; [reflexivity|].
    rewrite map_map. simpl. unfold PyDict.keys in Hnin. rewrite map_map in Hnin.
    exact Hnin.
  - intros d -> Hnd. simpl. now apply update_empty.
Qed.

Section UpdateReplacesValueSequencesRun.
#[local] Existing Instance Sample.ascii.

Lemma update_replaces_value_sequences_witness :
  let m : MultiDict.t := [("a", [PInt 1; PInt 2]); ("b", [PInt 3])] in
  let s := MultiDict.SPairs [("A", PInt 7); ("c", PInt 8); ("A", PInt 9)] in
  PyDict.get (MultiDict.update m s) (lower "B") = Some [PInt 3]
  /\ PyDict.get (MultiDict.update m s) (lower "A") = Some [PInt 9].
Proof.
  intros m s.
  destruct (update_replaces_value_sequences m s) as (Hkeep & Hreplace & _).
  split.
  - rewrite (Hkeep "B"); [reflexivity|].
    simpl. intros [H|[H|[]]]; discriminate.
  - apply (Hreplace [] "A" (PInt 9) [("c", PInt 8)]).
    + reflexivity.
    + simpl. intros [H|[]]. discriminate.
Defined.

End UpdateReplacesValueSequencesRun.

(** ** The lifespan protocol *)

(** The loop over lifecycle functions calls them in order from the first,
    and stops at the first one that raises. *)
Lemma run_lifecycle_spec (funcs : list LifecycleFn) (i : nat) (state : PyDict.t Any) :
  forall state' called err,
    run_lifecycle funcs i state = (state', called, err) ->
    exists n,
      called = seq i n /\ n <= List.length funcs
      /\ match err with
         | None => n = List.length funcs
         | Some e =>
             0 < n /\ exists func s, nth_error funcs (n - 1) = Some func
                                     /\ func s = (state', Some e)
         end.
Proof.
  revert i state. induction funcs as [|func funcs IH]; intros i state state' called err; simpl.
  - intros [= <- <- <-]. exists 0. simpl. auto.
  - destruct (func state) as [s1 [e|]] eqn:Hf.
    + intros [= <- <- <-]. exists 1. simpl. repeat split; try lia.
      exists func, state. auto.
    + destruct (run_lifecycle funcs (S i) s1) as [[s2 called'] err'] eqn:Hrest.
      intros [= <- <- <-].
      destruct (IH _ _ _ _ _ Hrest) as (n & -> & Hle & Herr).
      exists (S n). simpl. repeat split; try lia.
      destruct err' as [e|]; [|lia].
      destruct Herr as (Hpos & f & s & Hnth & Hfs). split; [lia|].
      exists f, s. split; [|assumption].
      replace (n - 0) with (S (n - 1)) by lia. exact Hnth.
Qed.




Section FailedShutdownSendsNoCompleteRun.
#[local] Existing Instance Sample.ascii.


End FailedShutdownSendsNoCompleteRun.


Section ShutdownEventRun.
#[local] Existing Instance Sample.ascii.


End ShutdownEventRun.

(** ** The HTTP protocol *)

Section Gateway.

Variable E : Stdlib.
Context {L : Lower}.

Lemma bind_ok {A B} (m : M A) (f : A -> M B) tx a tx' :
  m tx = (inl a, tx') -> bind m f tx = f a tx'.
Proof. intros H. unfold bind. now rewrite H. Qed.

Lemma bind_raise {A B} (m : M A) (f : A -> M B) tx e tx' :
  m tx = (inr e, tx') -> bind m f tx = (inr e, tx').
Proof. intros H. unfold bind. now rewrite H. Qed.

Lemma resolve_skip (skipped table : list (Pattern * Methods)) (tx : Tx) :
  Forall (no_match tx) skipped -> resolve E (skipped ++ table) tx = resolve E table tx.
Proof.
  induction 1 as [|[route methods] skipped Hno _ IH]; simpl; [reflexivity|].
  unfold bind at 1, get_request. unfold no_match in Hno. simpl in Hno.
  now rewrite Hno.
Qed.

Lemma resolve_first (route : Pattern) (methods : Methods)
  (table : list (Pattern * Methods)) (tx : Tx) (groups : PyDict.t Any) :
  fullmatch route (Request.path (request tx)) = Some groups ->
  resolve E ((route, methods) :: table) tx =
  match PyDict.get methods (Request.method (request tx)) with
  | Some func => (v <- call_handler route func ;; normalize E v) (matched tx groups)
  | None => (inl (method_not_allowed E methods), matched tx groups)
  end.
Proof.
  intros Hm. simpl. unfold bind at 1, get_request. rewrite Hm.
  unfold bind at 1, put_request.
  destruct (PyDict.get methods (Request.method (request tx))); reflexivity.
Qed.

Lemma resolve_no_match (table : list (Pattern * Methods)) (tx : Tx) :
  Forall (no_match tx) table -> resolve E table tx = (inl (Response.of_status E 404), tx).
Proof.
  intros H. rewrite <- (app_nil_r table). now rewrite resolve_skip.
Qed.

Lemma call_handler_spec (route : Pattern) (func : Handler) (tx : Tx) :
  call_handler route func tx =
  match snd (func (request tx)) with
  | Return v => (inl v, handled tx route func)
  | RaiseResponse r => (inr (Early r), handled tx route func)
  | RaiseError e => (inr (Fatal e), handled tx route func)
  end.
Proof.
  unfold call_handler, handled, bind, get_request, record_call. simpl.
  destruct (func (request tx)) as [req' o]. simpl.
  destruct o; reflexivity.
Qed.

(** C2.  Route resolution over a compiled table takes the first route, in
    the order of the table, whose pattern fully matches the path: the routes
    after it play no part, whether they match or not.  When the method set
    of that route holds the request method, its handler is called once, with
    the request whose [params] are the named groups of the match, and what
    it returns is normalized into the response.  When no pattern matches,
    no handler is called and the response has status 404. *)
Theorem first_full_match_wins (tx : Tx) :
  (forall skipped route methods later groups,
      Forall (no_match tx) skipped ->
      fullmatch route (Request.path (request tx)) = Some groups ->
      resolve E (skipped ++ (route, methods) :: later) tx
      = resolve E [(route, methods)] tx
      /\ forall func,
          PyDict.get methods (Request.method (request tx)) = Some func ->
          let given := Request.set_params (request tx) groups in
          let tx' := {| request := fst (func given);
                        inbox := inbox tx;
                        calls := calls tx
                                 ++ [CallHandler (pattern route)
                                       (Request.method (request tx)) given] |} in
          Request.params given = groups
          /\ resolve E (skipped ++ (route, methods) :: later) tx =
             match snd (func given) with
             | Return v =>
                 match Response.from_any E v with
                 | inl response => (inl response, tx')
                 | inr e => (inr (Fatal e), tx')
                 end
             | RaiseResponse r => (inr (Early r), tx')
             | RaiseError e => (inr (Fatal e), tx')
             end)
  /\ (forall table,
         Forall (no_match tx) table ->
         resolve E table tx = (inl (Response.of_status E 404), tx)
         /\ Response.status (Response.of_status E 404) = 404%Z).
Proof.
  split.
  - intros skipped route methods later groups Hskip Hmatch. split.
    + rewrite (resolve_skip _ _ _ Hskip).
      now rewrite !(resolve_first _ _ _ _ _ Hmatch).
    + intros func Hfunc given tx'. split; [reflexivity|].
      rewrite (resolve_skip _ _ _ Hskip), (resolve_first _ _ _ _ _ Hmatch), Hfunc.
      unfold bind. rewrite call_handler_spec. simpl.
      fold given. destruct (snd (func given)) as [v| |]; try reflexivity.
      unfold normalize. destruct (Response.from_any E v); reflexivity.
  - intros table Hno. split; [now apply resolve_no_match|reflexivity].
Qed.

(** C7, amended.  When the first route whose pattern fully matches the
    path has a method set without the request method, route resolution
    calls no handler and gives a response with status 405 whose [Allow]
    header is the one value made of the methods registered for that route,
    in registration order, joined by a comma and a space. *)
Theorem method_not_allowed_lists_the_methods_of_the_route
  (tx : Tx) (skipped : list (Pattern * Methods)) (route : Pattern) (methods : Methods)
  (later : list (Pattern * Methods)) (groups : PyDict.t Any) :
  Forall (no_match tx) skipped ->
  fullmatch route (Request.path (request tx)) = Some groups ->
  PyDict.get methods (Request.method (request tx)) = None ->
  exists response,
    resolve E (skipped ++ (route, methods) :: later) tx = (inl response, matched tx groups)
    /\ calls (matched tx groups) = calls tx
    /\ Response.status response = 405%Z
    /\ MultiDict._get (Response.headers response) "Allow" []
       = [PStr (join ", " (PyDict.keys methods))]
    /\ MultiDict.get (Response.headers response) "Allow" PNone
       = Some (PStr (join ", " (PyDict.keys methods))).
Proof.
  intros Hskip Hmatch Hnone. exists (method_not_allowed E methods).
  rewrite (resolve_skip _ _ _ Hskip), (resolve_first _ _ _ _ _ Hmatch), Hnone.
  repeat split.
  - unfold method_not_allowed, Response.of_status, Response.__init__,
      MultiDict.setdefault, MultiDict.__setitem__, MultiDict._get.
    lower_keys. reflexivity.
  - unfold method_not_allowed, Response.of_status, Response.__init__,
      MultiDict.setdefault, MultiDict.__setitem__, MultiDict.get.
    lower_keys. reflexivity.
Qed.

End Gateway.

Section Transaction.

Variable E : Stdlib.
Context {L : Lower}.

(** The body loop stops at the first event that takes the body over the
    limit, and leaves the events after it unread. *)
Lemma body_loop_overflow (max_content : Z) (body : bytes)
  (before : list BodyEvent) (event : BodyEvent) (rest : list BodyEvent) :
  Forall (fun ev => more_body ev = true) before ->
  (before <> [] ->
   (Z.of_nat (List.length (body ++ List.concat (map chunk before))) <= max_content)%Z) ->
  (max_content < Z.of_nat (List.length (body ++ List.concat (map chunk before) ++ chunk event)))%Z ->
  body_loop E max_content body (before ++ event :: rest)
  = (body ++ List.concat (map chunk before) ++ chunk event, rest,
     inr (Early (Response.of_status E 413))).
Proof.
  revert body. induction before as [|ev before IH]; intros body Hmore Hfit Hover; simpl.
  - simpl in Hover. apply Z.ltb_lt in Hover. now rewrite Hover.
  - inversion Hmore as [|? ? Hev Hmore']; subst.
    assert (Hfit' : (Z.of_nat (List.length (body ++ chunk ev
                                            ++ List.concat (map chunk before)))
                     <= max_content)%Z) by (apply Hfit; discriminate).
    simpl in Hover. rewrite <- app_assoc in Hover.
    assert (Hstep : Z.ltb max_content (Z.of_nat (List.length (body ++ chunk ev))) = false).
    { apply Z.ltb_ge. rewrite !length_app in Hfit'. rewrite length_app. lia. }
    rewrite Hstep, Hev. simpl.
    rewrite (IH (body ++ chunk ev)); try assumption.
    + now rewrite <- !app_assoc.
    + intros _. rewrite <- app_assoc. exact Hfit'.
    + rewrite <- app_assoc. exact Hover.
Qed.

(** The after-chain reads no body event, and the only calls it makes are
    calls of after-hooks. *)
Lemma after_loop_calls (hooks : list AfterHook) (i : nat) (response : Response.t) (tx : Tx) :
  inbox (snd (after_loop E hooks i response tx)) = inbox tx
  /\ exists made, calls (snd (after_loop E hooks i response tx)) = calls tx ++ made
                  /\ Forall is_after_call made.
Proof.
  revert i response tx. induction hooks as [|func hooks IH]; intros i response tx; simpl.
  - split; [reflexivity|]. exists []. now rewrite app_nil_r.
  - unfold bind at 1. unfold call_after, bind, get_request, record_call. simpl.
    destruct (func (request tx) response) as [[req' response'] o]. simpl.
    destruct o as [v|r|e]; simpl.
    + destruct (Response.truthy v).
      * unfold raise_from_any. destruct (Response.from_any E v); simpl;
          (split; [reflexivity|]; eexists; split; [reflexivity|]; repeat constructor).
      * match goal with |- context [after_loop E hooks ?j ?r ?t] =>
          destruct (IH j r t) as (Hin & made & Hcalls & Hmade) end.
        split; [exact Hin|].
        eexists. split.
        -- rewrite Hcalls. simpl. rewrite <- app_assoc. reflexivity.
        -- constructor; [exact I|assumption].
    + split; [reflexivity|]. eexists. split; [reflexivity|]. repeat constructor.
    + split; [reflexivity|]. eexists. split; [reflexivity|]. repeat constructor.
Qed.

Lemma run_after_calls (hooks : list AfterHook) (response : Response.t) (tx : Tx) :
  inbox (snd (run_after E hooks response tx)) = inbox tx
  /\ exists made, calls (snd (run_after E hooks response tx)) = calls tx ++ made
                  /\ Forall is_after_call made.
Proof.
  unfold run_after, except_response.
  pose proof (after_loop_calls hooks 0 response tx) as H.
  destruct (after_loop E hooks 0 response tx) as [[r|[r|e|]] tx']; exact H.
Qed.

(** The after-chain over a list in two parts: the second part runs when the
    first ran to its end, on the response that the first part left. *)
Lemma after_loop_app (first second : list AfterHook) (i : nat)
  (response : Response.t) (tx : Tx) :
  after_loop E (first ++ second) i response tx =
  match after_loop E first i response tx with
  | (inl response', tx') => after_loop E second (i + List.length first) response' tx'
  | (inr e, tx') => (inr e, tx')
  end.
Proof.
  revert i response tx. induction first as [|func first IH]; intros i response tx; simpl.
  - now rewrite Nat.add_0_r.
  - unfold bind at 1 2.
    destruct (call_after i func response tx) as [[rv|e] tx']; [|reflexivity].
    destruct (Response.truthy (snd rv)).
    + unfold raise_from_any, raise. destruct (Response.from_any E (snd rv)); reflexivity.
    + rewrite IH. now rewrite Nat.add_succ_r.
Qed.

Lemma load_headers_ok (scope : Scope) (pairs : list (string * Any)) (tx : Tx) :
  decode_headers E (scope_headers scope) = Some pairs ->
  load_headers E scope tx
  = (inl tt, {| request := Request.set_headers (request tx) (MultiDict.of_pairs pairs);
                inbox := inbox tx; calls := calls tx |}).
Proof. intros H. unfold load_headers. now rewrite H. Qed.

Lemma load_cookies_ok (header : Any) (jar : Jar) (tx : Tx) :
  MultiDict.get (Request.headers (request tx)) "cookie" (PStr "") = Some header ->
  cookie_load E header = Some jar ->
  load_cookies E tx
  = (inl tt, {| request := Request.set_cookies (request tx)
                             (Request.cookies (request tx) ++ jar);
                inbox := inbox tx; calls := calls tx |}).
Proof.
  intros Hget Hload. unfold load_cookies, bind, get_request. now rewrite Hget, Hload.
Qed.

(** After-hooks that return a falsy value and leave the response as they
    got it: the after-chain ends with that response. *)
Lemma run_after_observers (hooks : list AfterHook) (response : Response.t) (tx : Tx) :
  (forall func, In func hooks ->
                forall req, exists req' v,
                  func req response = (req', response, Return v)
                  /\ Response.truthy v = false) ->
  exists tx', run_after E hooks response tx = (inl response, tx').
Proof.
  intros Hobs.
  assert (Hloop : forall i tx0, exists tx', after_loop E hooks i response tx0
                                            = (inl response, tx')).
  { induction hooks as [|func hooks IH]; intros i tx0.
    - exists tx0. reflexivity.
    - destruct (Hobs func (or_introl eq_refl) (request tx0)) as (req' & v & Hf & Hv).
      simpl. unfold bind at 1. unfold call_after, bind, get_request, record_call. simpl.
      rewrite Hf. simpl. rewrite Hv.
      apply (IH (fun f Hin => Hobs f (or_intror Hin))). }
  destruct (Hloop 0 tx) as (tx' & Hrun).
  exists tx'. unfold run_after, except_response. now rewrite Hrun.
Qed.

(** What step 10 makes of [Response(413)]. *)
Lemma finalize_413 :
  finalize (Response.of_status E 413)
  = inl (Response.set_headers (Response.of_status E 413)
           [("content-type", [PStr "text/html; charset=utf-8"]);
            ("content-length", [PInt 0]);
            ("set-cookie", [])]).
Proof.
  unfold finalize, Response.of_status, Response.__init__, MultiDict.setdefault,
    MultiDict._update.
  lower_keys. reflexivity.
Qed.

(** C1, amended.  When the headers and the cookie header of a request were
    read and the body events, each announcing more, stay within
    [max_content] until one event takes the accumulated body over it, then:
    that event is the last one received; the outer [try] ends with a
    response of status 413; no before-hook and no handler was called; the
    after-chain runs on that response, and the transaction as a whole calls
    nothing but after-hooks.  What is sent is what the after-chain leaves:
    whenever it ends with a response, that response goes through step 10
    and is sent; it is the 413 response when every after-hook returns a
    falsy value and leaves the response as it got it, so in particular when
    no after-hook is registered. *)
Theorem oversized_body_yields_413 (app : Application) (scope : Scope)
  (pairs : list (string * Any)) (header : Any) (jar : Jar)
  (before : list BodyEvent) (event : BodyEvent) (rest : list BodyEvent) :
  decode_headers E (scope_headers scope) = Some pairs ->
  MultiDict.get (MultiDict.of_pairs pairs) "cookie" (PStr "") = Some header ->
  cookie_load E header = Some jar ->
  Forall (fun ev => more_body ev = true) before ->
  (before <> [] ->
   (Z.of_nat (List.length (List.concat (map chunk before))) <= _max_content app)%Z) ->
  (_max_content app
   < Z.of_nat (List.length (List.concat (map chunk before) ++ chunk event)))%Z ->
  let events := before ++ event :: rest in
  let run := http E app scope events in
  exists tx,
    respond E app scope (start E scope events) = (inl (Response.of_status E 413), tx)
    /\ Response.status (Response.of_status E 413) = 413%Z
    /\ calls tx = []
    /\ inbox tx = rest
    /\ Request.body (request tx) = List.concat (map chunk before) ++ chunk event
    /\ transaction E app scope (start E scope events)
       = run_after E (_after app) (Response.of_status E 413) tx
    /\ Forall is_after_call (calls (http_tx run))
    /\ inbox (http_tx run) = rest
    /\ (forall response tx',
           run_after E (_after app) (Response.of_status E 413) tx = (inl response, tx') ->
           http_sent run = match finalize response with
                           | inl final => inl (emit E final)
                           | inr e => inr (Fatal e)
                           end)
    /\ ((forall func,
            In func (_after app) ->
            forall req, exists req' v,
              func req (Response.of_status E 413)
              = (req', Response.of_status E 413, Return v)
              /\ Response.truthy v = false) ->
        http_sent run
        = inl [ResponseStart 413
                 (wire_headers E
                    [("content-type", [PStr "text/html; charset=utf-8"]);
                     ("content-length", [PInt 0]);
                     ("set-cookie", [])]);
               ResponseBody []]).
Proof.
  intros Hdecode Hcookie Hjar Hmore Hfit Hover events run.
  set (tx0 := start E scope events).
  set (tx1 := {| request := Request.set_headers (request tx0) (MultiDict.of_pairs pairs);
                 inbox := inbox tx0; calls := calls tx0 |}).
  set (tx2 := {| request := Request.set_cookies (request tx1)
                              (Request.cookies (request tx1) ++ jar);
                 inbox := inbox tx1; calls := calls tx1 |}).
  set (tx3 := {| request := Request.set_body (request tx2)
                              (List.concat (map chunk before) ++ chunk event);
                 inbox := rest; calls := calls tx2 |}).
  assert (Hbody : read_body E (_max_content app) tx2
                  = (inr (Early (Response.of_status E 413)), tx3)).
  { unfold read_body.
    change (inbox tx2) with (before ++ event :: rest).
    change (Request.body (request tx2)) with (@nil byte).
    rewrite (body_loop_overflow (_max_content app) [] before event rest Hmore Hfit Hover).
    reflexivity. }
  assert (Hsteps : steps E app scope tx0 = (inr (Early (Response.of_status E 413)), tx3)).
  { unfold steps.
    rewrite (bind_ok _ _ _ _ _ (load_headers_ok scope pairs tx0 Hdecode)). fold tx1.
    rewrite (bind_ok _ _ _ _ _ (load_cookies_ok header jar tx1 Hcookie Hjar)). fold tx2.
    now rewrite (bind_raise _ _ _ _ _ Hbody). }
  assert (Hrespond : respond E app scope tx0 = (inl (Response.of_status E 413), tx3)).
  { unfold respond, except_response. now rewrite Hsteps. }
  assert (Htrans : transaction E app scope tx0
                   = run_after E (_after app) (Response.of_status E 413) tx3).
  { unfold transaction. now rewrite (bind_ok _ _ _ _ _ Hrespond). }
  assert (Hrun : http_tx run = snd (run_after E (_after app) (Response.of_status E 413) tx3)).
  { unfold run, http. fold (start E scope events). fold tx0. rewrite Htrans.
    destruct (run_after E (_after app) (Response.of_status E 413) tx3) as [[r|e] t];
      reflexivity. }
  destruct (run_after_calls (_after app) (Response.of_status E 413) tx3)
    as (Hinbox & made & Hcalls & Hmade).
  exists tx3. repeat match goal with |- _ /\ _ => split end; try assumption; try reflexivity.
  - rewrite Hrun, Hcalls. exact Hmade.
  - now rewrite Hrun, Hinbox.
  - intros response tx' Hafter. unfold run, http.
    fold (start E scope events). fold tx0. now rewrite Htrans, Hafter.
  - intros Hobs.
    destruct (run_after_observers (_after app) (Response.of_status E 413) tx3 Hobs)
      as (tx' & Hafter).
    unfold run, http. fold (start E scope events). fold tx0.
    rewrite Htrans, Hafter, finalize_413. reflexivity.
Qed.

(** The first after-hook is called with the response in flight. *)
Lemma after_loop_first_call (func : AfterHook) (later : list AfterHook) (i : nat)
  (response : Response.t) (tx : Tx) :
  exists made,
    calls (snd (after_loop E (func :: later) i response tx))
    = calls tx ++ CallAfter i (request tx) response :: made.
Proof.
  simpl. unfold bind at 1. unfold call_after, bind, get_request, record_call. simpl.
  destruct (func (request tx) response) as [[req' response'] o]. simpl.
  destruct o as [v|r|e]; simpl; try (exists []; reflexivity).
  destruct (Response.truthy v).
  - unfold raise_from_any. destruct (Response.from_any E v); exists []; reflexivity.
  - match goal with |- context [after_loop E later ?j ?r ?t] =>
      destruct (after_loop_calls later j r t) as (_ & made & Hcalls & _) end.
    exists made. rewrite Hcalls. simpl. now rewrite <- app_assoc.
Qed.

Lemma transaction_after_early (app : Application) (scope : Scope) (tx0 tx : Tx)
  (r : Response.t) :
  steps E app scope tx0 = (inr (Early r), tx) ->
  transaction E app scope tx0 = run_after E (_after app) r tx.
Proof.
  intros H. unfold transaction, bind, respond, except_response. now rewrite H.
Qed.

Lemma transaction_after_response (app : Application) (scope : Scope) (tx0 tx : Tx)
  (r : Response.t) :
  steps E app scope tx0 = (inl r, tx) ->
  transaction E app scope tx0 = run_after E (_after app) r tx.
Proof.
  intros H. unfold transaction, bind, respond, except_response. now rewrite H.
Qed.

(** C4.  Whichever step of the outer [try] raises a [Response] (reading
    the headers, the cookie header or the body, decoding the content, the
    before-chain, the handler), and also when route resolution gives the
    response, the after-chain then runs on that response, from the state
    that the step left; its first hook is called with exactly that
    response.  In the after-chain, when the hooks before some hook returned
    nothing truthy and that hook returns a truthy value that normalizes to
    a response, that response replaces the one in flight, and the last call
    made is the call of that hook: the hooks after it are not called.  When
    the loop runs to its end, the response in flight stays. *)
Theorem after_chain_runs_on_the_current_response
  (app : Application) (scope : Scope) (tx0 : Tx) :
  (forall r tx,
      load_headers E scope tx0 = (inr (Early r), tx) ->
      transaction E app scope tx0 = run_after E (_after app) r tx)
  /\ (forall tx1 r tx,
         load_headers E scope tx0 = (inl tt, tx1) ->
         load_cookies E tx1 = (inr (Early r), tx) ->
         transaction E app scope tx0 = run_after E (_after app) r tx)
  /\ (forall tx1 tx2 r tx,
         load_headers E scope tx0 = (inl tt, tx1) ->
         load_cookies E tx1 = (inl tt, tx2) ->
         read_body E (_max_content app) tx2 = (inr (Early r), tx) ->
         transaction E app scope tx0 = run_after E (_after app) r tx)
  /\ (forall tx1 tx2 tx3 r tx,
         load_headers E scope tx0 = (inl tt, tx1) ->
         load_cookies E tx1 = (inl tt, tx2) ->
         read_body E (_max_content app) tx2 = (inl tt, tx3) ->
         decode_content E tx3 = (inr (Early r), tx) ->
         transaction E app scope tx0 = run_after E (_after app) r tx)
  /\ (forall tx1 tx2 tx3 tx4 r tx,
         load_headers E scope tx0 = (inl tt, tx1) ->
         load_cookies E tx1 = (inl tt, tx2) ->
         read_body E (_max_content app) tx2 = (inl tt, tx3) ->
         decode_content E tx3 = (inl tt, tx4) ->
         run_before E (_before app) 0 tx4 = (inr (Early r), tx) ->
         transaction E app scope tx0 = run_after E (_after app) r tx)
  /\ (forall tx1 tx2 tx3 tx4 tx5 r tx,
         load_headers E scope tx0 = (inl tt, tx1) ->
         load_cookies E tx1 = (inl tt, tx2) ->
         read_body E (_max_content app) tx2 = (inl tt, tx3) ->
         decode_content E tx3 = (inl tt, tx4) ->
         run_before E (_before app) 0 tx4 = (inl tt, tx5) ->
         dispatch E (_routes app) tx5 = (inr (Early r), tx)
         \/ dispatch E (_routes app) tx5 = (inl r, tx) ->
         transaction E app scope tx0 = run_after E (_after app) r tx)
  /\ (forall func later response tx,
         _after app = func :: later ->
         exists made,
           calls (snd (run_after E (_after app) response tx))
           = calls tx ++ CallAfter 0 (request tx) response :: made)
  /\ (forall first func later response tx response1 tx1 req' response' v replacement,
         _after app = first ++ func :: later ->
         after_loop E first 0 response tx = (inl response1, tx1) ->
         func (request tx1) response1 = (req', response', Return v) ->
         Response.truthy v = true ->
         Response.from_any E v = inl replacement ->
         run_after E (_after app) response tx
         = (inl replacement,
            {| request := req'; inbox := inbox tx1;
               calls := calls tx1
                        ++ [CallAfter (List.length first) (request tx1) response1] |}))
  /\ (forall response tx response' tx',
         after_loop E (_after app) 0 response tx = (inl response', tx') ->
         run_after E (_after app) response tx = (inl response', tx')).
Proof.
  repeat match goal with |- _ /\ _ => split end.
  - intros r tx H. apply transaction_after_early. unfold steps.
    now rewrite (bind_raise _ _ _ _ _ H).
  - intros tx1 r tx H1 H2. apply transaction_after_early. unfold steps.
    rewrite (bind_ok _ _ _ _ _ H1). now rewrite (bind_raise _ _ _ _ _ H2).
  - intros tx1 tx2 r tx H1 H2 H3. apply transaction_after_early. unfold steps.
    rewrite (bind_ok _ _ _ _ _ H1), (bind_ok _ _ _ _ _ H2).
    now rewrite (bind_raise _ _ _ _ _ H3).
  - intros tx1 tx2 tx3 r tx H1 H2 H3 H4. apply transaction_after_early. unfold steps.
    rewrite (bind_ok _ _ _ _ _ H1), (bind_ok _ _ _ _ _ H2), (bind_ok _ _ _ _ _ H3).
    now rewrite (bind_raise _ _ _ _ _ H4).
  - intros tx1 tx2 tx3 tx4 r tx H1 H2 H3 H4 H5. apply transaction_after_early.
    unfold steps.
    rewrite (bind_ok _ _ _ _ _ H1), (bind_ok _ _ _ _ _ H2), (bind_ok _ _ _ _ _ H3),
      (bind_ok _ _ _ _ _ H4).
    now rewrite (bind_raise _ _ _ _ _ H5).
  - intros tx1 tx2 tx3 tx4 tx5 r tx H1 H2 H3 H4 H5 [H6|H6].
    + apply transaction_after_early. unfold steps.
      rewrite (bind_ok _ _ _ _ _ H1), (bind_ok _ _ _ _ _ H2), (bind_ok _ _ _ _ _ H3),
        (bind_ok _ _ _ _ _ H4), (bind_ok _ _ _ _ _ H5). exact H6.
    + apply transaction_after_response. unfold steps.
      rewrite (bind_ok _ _ _ _ _ H1), (bind_ok _ _ _ _ _ H2), (bind_ok _ _ _ _ _ H3),
        (bind_ok _ _ _ _ _ H4), (bind_ok _ _ _ _ _ H5). exact H6.
  - intros func later response tx ->.
    destruct (after_loop_first_call func later 0 response tx) as (made & Hmade).
    unfold run_after, except_response.
    destruct (after_loop E (func :: later) 0 response tx) as [[r|[r|e|]] tx'];
      exists made; exact Hmade.
  - intros first func later response tx response1 tx1 req' response' v replacement
      -> Hfirst Hfunc Htruthy Hnorm.
    unfold run_after, except_response. rewrite after_loop_app, Hfirst. simpl.
    unfold bind at 1. unfold call_after, bind, get_request, record_call. simpl.
    rewrite Hfunc. simpl. rewrite Htruthy. unfold raise_from_any. rewrite Hnorm.
    reflexivity.
  - intros response tx response' tx' H. unfold run_after, except_response. now rewrite H.
Qed.

End Transaction.

(** ** Runs of the gateway *)


Section ConfiguredSerializerIsNotUsedRun.
#[local] Existing Instance Sample.ascii.

(** C3.  An application configured with its own serializer, serving a
    handler that returns [{"a": 1}]: the response has status 200 and
    content type [application/json], but its body is what [json.dumps]
    gives, [{"a": 1}], not what the configured serializer gives. *)
Theorem configured_serializer_is_not_used :
  let custom : Serializer := fun _ => inl "custom" in
  let app :=
    route (Application_init Sample.python None [] [] [] [] (Some custom) 1048576)
      "/x" ["GET"] Sample.mapping in
  let started := ls_app (lifespan Sample.python app PyDict.empty [LifespanStartup]) in
  let run := http Sample.python started Sample.get_x [{| chunk := []; more_body := false |}] in
  let body := [x7b; x22; x61; x22; x3a; x20; x31; x7d] in
  _serializer started [("a", PInt 1)] = inl "custom"
  /\ http_sent run
     = inl [ResponseStart 200
              [(Sample.ascii_encode "content-type", Sample.ascii_encode "application/json");
               (Sample.ascii_encode "content-length", Sample.ascii_encode "8")];
            ResponseBody body]
  /\ Sample.dumps [("a", PInt 1)] = inl (string_of_list_byte body)
  /\ Sample.ascii_encode (string_of_list_byte body) = body
  /\ body <> Sample.ascii_encode "custom".
Proof.
  repeat split. discriminate.
Qed.

End ConfiguredSerializerIsNotUsedRun.

Section TruthyAfterHookReplacesThe413Run.
#[local] Existing Instance Sample.ascii.

(** C1 as stated fails when an after-hook returns a truthy value: with
    [max_content] 3 and the body events [ab], [cd], the accumulated body
    exceeds the maximum and the outer [try] ends with the 413 response, but
    the after-hook that returns ["replaced"] replaces it, and the response
    sent has status 200. *)
Lemma truthy_after_hook_replaces_the_413 :
  let app := Sample.app [("/x", [("GET", Sample.hello)])] [Sample.replace] 3 in
  let started := ls_app (lifespan Sample.python app PyDict.empty [LifespanStartup]) in
  let first := {| chunk := [x61; x62]; more_body := true |} in
  let second := {| chunk := [x63; x64]; more_body := true |} in
  let third := {| chunk := [x65]; more_body := false |} in
  let run := http Sample.python started Sample.get_x [first; second; third] in
  (_max_content started < Z.of_nat (List.length (chunk first ++ chunk second)))%Z
  /\ fst (respond Sample.python started Sample.get_x
            (start Sample.python Sample.get_x [first; second; third]))
     = inl (Response.of_status Sample.python 413)
  /\ inbox (http_tx run) = [third]
  /\ http_sent run
     = inl [ResponseStart 200
              [(Sample.ascii_encode "content-type",
                Sample.ascii_encode "text/html; charset=utf-8");
               (Sample.ascii_encode "content-length", Sample.ascii_encode "8")];
            ResponseBody (Sample.ascii_encode "replaced")]
  /\ forall headers body, http_sent run <> inl [ResponseStart 413 headers; ResponseBody body].
Proof.
  repeat split. intros headers body. discriminate.
Qed.

End TruthyAfterHookReplacesThe413Run.

Section OversizedBodyYields413Run.
#[local] Existing Instance Sample.ascii.

Lemma oversized_body_yields_413_witness :
  let app := Sample.app [("/x", [("GET", Sample.hello)])] [Sample.quiet] (-1) in
  let started := ls_app (lifespan Sample.python app PyDict.empty [LifespanStartup]) in
  let first := {| chunk := []; more_body := true |} in
  let second := {| chunk := [x63; x64]; more_body := true |} in
  let run := http Sample.python started Sample.get_x [first; second] in
  inbox (http_tx run) = [second]
  /\ Forall is_after_call (calls (http_tx run))
  /\ http_sent run
     = inl [ResponseStart 413
              (wire_headers Sample.python
                 [("content-type", [PStr "text/html; charset=utf-8"]);
                  ("content-length", [PInt 0]);
                  ("set-cookie", [])]);
            ResponseBody []].
Proof.
  intros app started first second run.
  destruct (oversized_body_yields_413 Sample.python started Sample.get_x
              [] (PStr "") [] [] first [second])
    as (tx & _ & _ & _ & _ & _ & _ & Hcalls & Hinbox & _ & Hsent).
  - reflexivity.
  - reflexivity.
  - reflexivity.
  - constructor.
  - intros H. now contradiction H.
  - simpl. lia.
  - split; [exact Hinbox|]. split; [exact Hcalls|]. apply Hsent.
    intros func [<-|[]] req. exists req, (Response.Value PNone). split; reflexivity.
Defined.

End OversizedBodyYields413Run.

Section FirstFullMatchWinsRun.
#[local] Existing Instance Sample.ascii.

Lemma first_full_match_wins_witness :
  let scope := {| scope_method := "GET"; scope_path := "/items/42";
                  scope_client := None; scope_query_string := [];
                  scope_headers := []; scope_state := None |} in
  let tx := start Sample.python scope [] in
  let skipped := [(Sample.literal "/x", [("GET", Sample.hello)])] in
  let later := [(Sample.any_path, [("GET", Sample.other)])] in
  let methods := [("GET", Sample.show_id)] in
  let given := Request.set_params (request tx) [("id", PStr "42")] in
  Forall (no_match tx) skipped
  /\ fullmatch Sample.any_path "/items/42" = Some []
  /\ resolve Sample.python (skipped ++ (Sample.item_path, methods) :: later) tx
     = (inl (Response.assign Sample.python 200
               [("content-type", [PStr "application/json"])] []
               [x7b; x22; x69; x64; x22; x3a; x20; x22; x34; x32; x22; x7d] Sample.dumps),
        {| request := given; inbox := [];
           calls := [CallHandler "/items/(?P<id>[0-9]+)" "GET" given] |}).
Proof.
  intros scope tx skipped later methods given.
  assert (Hskip : Forall (no_match tx) skipped) by (repeat constructor).
  assert (Hmatch : fullmatch Sample.item_path (Request.path (request tx))
                   = Some [("id", PStr "42")]) by reflexivity.
  split; [exact Hskip|]. split; [reflexivity|].
  destruct (proj1 (first_full_match_wins Sample.python tx)
              skipped Sample.item_path methods later [("id", PStr "42")] Hskip Hmatch)
    as (_ & Hcall).
  pose proof (Hcall Sample.show_id eq_refl) as Hrun. cbv zeta in Hrun.
  exact (eq_trans (proj2 Hrun) eq_refl).
Defined.

End FirstFullMatchWinsRun.

Section OverlappingRouteWithoutTheMethodGivesNo405Run.
#[local] Existing Instance Sample.ascii.

(** C7 as stated fails when patterns overlap: with [/x] registered for GET
    and then [/.*] for POST, a GET of [/x] fully matches the registered
    pattern [/.*], whose methods do not include GET, and yet the response
    is the 200 of the handler of [/x], with no [Allow] header. *)
Lemma overlapping_route_without_the_method_gives_no_405 :
  let app :=
    route (route (Sample.app [] [] 1048576) "/x" ["GET"] Sample.hello)
      "/.*" ["POST"] Sample.other in
  let started := ls_app (lifespan Sample.python app PyDict.empty [LifespanStartup]) in
  let run := http Sample.python started Sample.get_x [{| chunk := []; more_body := false |}] in
  (exists table, _routes started = Compiled table
                 /\ In (Sample.any_path, [("POST", Sample.other)]) table)
  /\ fullmatch Sample.any_path (scope_path Sample.get_x) = Some []
  /\ PyDict.get [("POST", Sample.other)] (scope_method Sample.get_x) = None
  /\ http_sent run
     = inl [ResponseStart 200
              [(Sample.ascii_encode "content-type",
                Sample.ascii_encode "text/html; charset=utf-8");
               (Sample.ascii_encode "content-length", Sample.ascii_encode "2")];
            ResponseBody (Sample.ascii_encode "hi")].
Proof.
  repeat split. eexists. split; [reflexivity|]. right. left. reflexivity.
Qed.

End OverlappingRouteWithoutTheMethodGivesNo405Run.

Section MethodNotAllowedListsTheMethodsOfTheRouteRun.
#[local] Existing Instance Sample.ascii.

Lemma method_not_allowed_lists_the_methods_of_the_route_witness :
  let tx := start Sample.python Sample.get_x [] in
  let skipped := [(Sample.literal "/y", [("GET", Sample.hello)])] in
  let methods := [("POST", Sample.hello); ("PUT", Sample.other)] in
  let later := [(Sample.any_path, [("GET", Sample.other)])] in
  Forall (no_match tx) skipped
  /\ exists response,
      resolve Sample.python (skipped ++ (Sample.literal "/x", methods) :: later) tx
      = (inl response, matched tx [])
      /\ Response.status response = 405%Z
      /\ MultiDict._get (Response.headers response) "Allow" [] = [PStr "POST, PUT"].
Proof.
  intros tx skipped methods later.
  assert (Hskip : Forall (no_match tx) skipped) by (repeat constructor).
  split; [exact Hskip|].
  destruct (method_not_allowed_lists_the_methods_of_the_route Sample.python tx skipped
              (Sample.literal "/x") methods later [] Hskip eq_refl eq_refl)
    as (response & Hres & _ & Hstatus & Hallow & _).
  exists response. repeat split; assumption.
Defined.

End MethodNotAllowedListsTheMethodsOfTheRouteRun.

Section PostOnlyRouteAnswersGetWith405Run.
#[local] Existing Instance Sample.ascii.

(** Registering only [POST /x] and issuing [GET /x]: 405 with
    [Allow: POST]. *)
Example post_only_route_answers_get_with_405 :
  let app := route (Sample.app [] [] 1048576) "/x" ["POST"] Sample.hello in
  let started := ls_app (lifespan Sample.python app PyDict.empty [LifespanStartup]) in
  http_sent (http Sample.python started Sample.get_x [{| chunk := []; more_body := false |}])
  = inl [ResponseStart 405
           [(Sample.ascii_encode "content-type",
             Sample.ascii_encode "text/html; charset=utf-8");
            (Sample.ascii_encode "allow", Sample.ascii_encode "POST");
            (Sample.ascii_encode "content-length", Sample.ascii_encode "0")];
         ResponseBody []].
Proof. reflexivity. Qed.

End PostOnlyRouteAnswersGetWith405Run.

Section UnregisteredPathAnswers404Run.
#[local] Existing Instance Sample.ascii.

(** A request to an unregistered path: 404 with the HTML content type. *)
Example unregistered_path_answers_404 :
  let app := route (Sample.app [] [] 1048576) "/y" ["GET"] Sample.hello in
  let started := ls_app (lifespan Sample.python app PyDict.empty [LifespanStartup]) in
  http_sent (http Sample.python started Sample.get_x [{| chunk := []; more_body := false |}])
  = inl [ResponseStart 404
           [(Sample.ascii_encode "content-type",
             Sample.ascii_encode "text/html; charset=utf-8");
            (Sample.ascii_encode "content-length", Sample.ascii_encode "0")];
         ResponseBody []].
Proof. reflexivity. Qed.

End UnregisteredPathAnswers404Run.

Section AfterChainRunsOnTheCurrentResponseWitnessRun.
#[local] Existing Instance Sample.ascii.

Lemma after_chain_runs_on_the_current_response_witness :
  let scope := {| scope_method := "GET"; scope_path := "/x"; scope_client := None;
                  scope_query_string := []; scope_headers := [([xff], [x61])];
                  scope_state := None |} in
  let app := Sample.app [("/x", [("GET", Sample.hello)])]
               [Sample.quiet; Sample.replace; Sample.quiet] 1048576 in
  let started := ls_app (lifespan Sample.python app PyDict.empty [LifespanStartup]) in
  let tx0 := start Sample.python scope [{| chunk := []; more_body := false |}] in
  let bad_request := Response.of_status Sample.python 400 in
  load_headers Sample.python scope tx0 = (inr (Early bad_request), tx0)
  /\ transaction Sample.python started scope tx0
     = (inl (Response.assign Sample.python 200
               [("content-type", [PStr "text/html; charset=utf-8"])] []
               (Sample.ascii_encode "replaced") Sample.dumps),
        {| request := request tx0;
           inbox := inbox tx0;
           calls := [CallAfter 0 (request tx0) bad_request;
                     CallAfter 1 (request tx0) bad_request] |}).
Proof.
  intros scope app started tx0 bad_request.
  assert (Hload : load_headers Sample.python scope tx0 = (inr (Early bad_request), tx0))
    by reflexivity.
  split; [exact Hload|].
  destruct (after_chain_runs_on_the_current_response Sample.python started scope tx0)
    as (Hheaders & _ & _ & _ & _ & _ & _ & Hreplace & _).
  rewrite (Hheaders bad_request tx0 Hload).
  exact (Hreplace [Sample.quiet] Sample.replace [Sample.quiet] bad_request tx0
           bad_request
           {| request := request tx0; inbox := inbox tx0;
              calls := [CallAfter 0 (request tx0) bad_request] |}
           (request tx0) bad_request (Response.Value (PStr "replaced"))
           (Response.assign Sample.python 200
               [("content-type", [PStr "text/html; charset=utf-8"])] []
              (Sample.ascii_encode "replaced") Sample.dumps)
           eq_refl eq_refl eq_refl eq_refl eq_refl).
Defined.

End AfterChainRunsOnTheCurrentResponseWitnessRun.

(** ** Where early responses come from *)

Section EarlyResponses.

Variable E : Stdlib.
Context {L : Lower}.

(** Header bytes that do not decode: 400. *)
Lemma load_headers_bad (scope : Scope) (tx : Tx) :
  decode_headers E (scope_headers scope) = None ->
  load_headers E scope tx = (inr (Early (Response.of_status E 400)), tx).
Proof. intros H. unfold load_headers. now rewrite H. Qed.

(** A cookie header that the jar rejects: 400. *)
Lemma load_cookies_bad (header : Any) (tx : Tx) :
  MultiDict.get (Request.headers (request tx)) "cookie" (PStr "") = Some header ->
  cookie_load E header = None ->
  load_cookies E tx = (inr (Early (Response.of_status E 400)), tx).
Proof.
  intros Hget Hload. unfold load_cookies, bind, get_request. now rewrite Hget, Hload.
Qed.

(** A JSON body that is not UTF-8 or not JSON: 400. *)
Lemma decode_content_bad_json (content_type : string) (tx : Tx) :
  MultiDict.get (Request.headers (request tx)) "content-type" (PStr "")
  = Some (PStr content_type) ->
  contains "application/json" content_type = true ->
  match decode E (Request.body (request tx)) with
  | Some text => json_loads E text = None
  | None => True
  end ->
  decode_content E tx = (inr (Early (Response.of_status E 400)), tx).
Proof.
  intros Hget Hjson Hbad. unfold decode_content, bind, get_request.
  rewrite Hget, Hjson.
  destruct (decode E (Request.body (request tx))) as [text|]; [|reflexivity].
  now rewrite Hbad.
Qed.

(** A before-hook that returns a truthy value ends the before-chain with
    the normalized value as an early response; the hooks after it are not
    called. *)
Lemma run_before_interrupt (func : Handler) (later : list Handler) (i : nat)
  (tx : Tx) (v : Response.Returned) (r : Response.t) :
  snd (func (request tx)) = Return v ->
  Response.truthy v = true ->
  Response.from_any E v = inl r ->
  run_before E (func :: later) i tx
  = (inr (Early r),
     {| request := fst (func (request tx)); inbox := inbox tx;
        calls := calls tx ++ [CallBefore i (request tx)] |}).
Proof.
  intros Hret Htruthy Hnorm. simpl.
  unfold bind at 1. unfold call_before, bind, get_request, record_call. simpl.
  destruct (func (request tx)) as [req' o]. simpl in *. subst o. simpl.
  rewrite Htruthy. unfold raise_from_any. now rewrite Hnorm.
Qed.

(** The before-chain makes no call of a handler. *)
Lemma run_before_falsy (func : Handler) (later : list Handler) (i : nat)
  (tx : Tx) (v : Response.Returned) :
  snd (func (request tx)) = Return v ->
  Response.truthy v = false ->
  run_before E (func :: later) i tx
  = run_before E later (S i)
      {| request := fst (func (request tx)); inbox := inbox tx;
         calls := calls tx ++ [CallBefore i (request tx)] |}.
Proof.
  intros Hret Hfalsy. simpl.
  unfold bind at 1. unfold call_before, bind, get_request, record_call. simpl.
  destruct (func (request tx)) as [req' o]. simpl in *. subst o. simpl.
  now rewrite Hfalsy.
Qed.

End EarlyResponses.

Section ItemRouteAnswersWithTheCapturedIdRun.
#[local] Existing Instance Sample.ascii.

(** [GET /items/42] on [/items/(?P<id>[0-9]+)] with a handler returning
    [{"id": request.params["id"]}]: 200, JSON, the captured string. *)
Example item_route_answers_with_the_captured_id :
  let app := route (Sample.app [] [] 1048576) "/items/(?P<id>[0-9]+)" ["GET"]
               Sample.show_id in
  let started := ls_app (lifespan Sample.python app PyDict.empty [LifespanStartup]) in
  let scope := {| scope_method := "GET"; scope_path := "/items/42";
                  scope_client := None; scope_query_string := [];
                  scope_headers := []; scope_state := None |} in
  http_sent (http Sample.python started scope [{| chunk := []; more_body := false |}])
  = inl [ResponseStart 200
           [(Sample.ascii_encode "content-type", Sample.ascii_encode "application/json");
            (Sample.ascii_encode "content-length", Sample.ascii_encode "12")];
         ResponseBody [x7b; x22; x69; x64; x22; x3a; x20; x22; x34; x32; x22; x7d]].
Proof. reflexivity. Qed.

End ItemRouteAnswersWithTheCapturedIdRun.

Section NoneNormalizesTo204Run.
#[local] Existing Instance Sample.ascii.

(** A handler returning [None]: 204 with an empty body. *)
Example none_normalizes_to_204 :
  exists response,
    Response.from_any Sample.python (Response.Value PNone) = inl response
    /\ Response.status response = 204%Z /\ Response.body response = [].
Proof. eexists. repeat split. Qed.

End NoneNormalizesTo204Run.


(** * Further properties *)

(** ** More about [dict] *)

Module PyDictMore.
Section More.
Context {V : Type}.
Implicit Types (d : PyDict.t V) (k : string) (v : V).

Lemma setitem_absent d k v :
  PyDict.get d k = None -> PyDict.setitem d k v = d ++ [(k, v)].
Proof.
  induction d as [|[k0 v0] d IH]; simpl; [reflexivity|].
  destruct (String.eqb k k0); [discriminate|]. intros H. now rewrite IH.
Qed.

Lemma setitem_setitem d k v v' :
  PyDict.setitem (PyDict.setitem d k v) k v' = PyDict.setitem d k v'.
Proof.
  induction d as [|[k0 v0] d IH]; simpl.
  - now rewrite String.eqb_refl.
  - destruct (String.eqb k k0) eqn:Hk; simpl; rewrite Hk; [reflexivity|].
    now rewrite IH.
Qed.

Lemma setitem_same d k v : PyDict.get d k = Some v -> PyDict.setitem d k v = d.
Proof.
  induction d as [|[k0 v0] d IH]; simpl; [discriminate|].
  destruct (String.eqb k k0) eqn:Hk.
  - intros [= ->]. reflexivity.
  - intros H. now rewrite IH.
Qed.

Lemma remove_appended d k v : PyDict.get d k = None -> PyDict.remove (d ++ [(k, v)]) k = d.
Proof.
  induction d as [|[k0 v0] d IH]; simpl.
  - now rewrite String.eqb_refl.
  - destruct (String.eqb k k0); [discriminate|]. intros H. now rewrite IH.
Qed.

Lemma keys_setitem_Forall (P : string -> Prop) d k v :
  Forall P (PyDict.keys d) -> P k -> Forall P (PyDict.keys (PyDict.setitem d k v)).
Proof.
  intros Hd Hk. destruct (in_dec string_dec k (PyDict.keys d)) as [Hin|Hin].
  - now rewrite PyDictFacts.keys_setitem_present.
  - rewrite PyDictFacts.keys_setitem_absent by assumption.
    apply Forall_app. split; [assumption|]. now constructor.
Qed.

Lemma keys_update_Forall (P : string -> Prop) d (items : list (string * V)) :
  Forall P (PyDict.keys d) -> Forall P (map fst items) ->
  Forall P (PyDict.keys (PyDict.update d items)).
Proof.
  revert d. induction items as [|[k v] items IH]; intros d Hd Hitems; simpl; [assumption|].
  inversion Hitems; subst. apply IH; [|assumption]. now apply keys_setitem_Forall.
Qed.

Lemma keys_remove_Forall (P : string -> Prop) d k :
  Forall P (PyDict.keys d) -> Forall P (PyDict.keys (PyDict.remove d k)).
Proof.
  rewrite !Forall_forall. intros H x Hx. apply H.
  eapply PyDictFacts.keys_remove_incl; eauto.
Qed.

End More.
End PyDictMore.

(** ** More about [MultiDict] *)

Import PyDictMore.

Lemma get_setitem_other_key {L : Lower} (m : MultiDict.t) (key other : string) (value : Any) :
  lower other <> lower key ->
  PyDict.get (MultiDict.__setitem__ m key value) (lower other) = PyDict.get m (lower other).
Proof. intros H. rewrite setitem_stored. now apply get_setitem_neq. Qed.

Lemma append_pair_is_setitem {L : Lower} (m : MultiDict.t) (kv : string * Any) :
  MultiDict.append_pair m kv = MultiDict.__setitem__ m (fst kv) (snd kv).
Proof.
  unfold MultiDict.append_pair, MultiDict._setdefault, MultiDict.__setitem__.
  now rewrite !lower_idempotent.
Qed.

Lemma all_values_after_inserts {L : Lower} (l : list (string * Any)) (m : MultiDict.t) (k : string) :
  MultiDict._get (fold_left MultiDict.append_pair l m) k []
  = MultiDict._get m k []
    ++ map snd (filter (fun kv => String.eqb (lower (fst kv)) (lower k)) l).
Proof.
  revert m. induction l as [|[k0 v0] l IH]; intros m; simpl.
  - now rewrite app_nil_r.
  - rewrite IH, append_pair_is_setitem. simpl.
    unfold MultiDict._get, PyDict.get_default.
    destruct (String.eqb (lower k0) (lower k)) eqn:Hk.
    + apply String.eqb_eq in Hk. rewrite <- Hk, get_setitem_same. rewrite Hk.
      simpl. now rewrite <- app_assoc.
    + apply String.eqb_neq in Hk. rewrite get_setitem_other_key by congruence.
      reflexivity.
Qed.

Lemma inserts_keep_values_nonempty {L : Lower} (l : list (string * Any)) (m : MultiDict.t) :
  MultiDict.nonempty_values m ->
  MultiDict.nonempty_values (fold_left MultiDict.append_pair l m).
Proof.
  revert m. induction l as [|kv l IH]; intros m Hm; simpl; [exact Hm|].
  apply IH. rewrite append_pair_is_setitem. now apply setitem_nonempty.
Qed.

Lemma of_pairs_nonempty {L : Lower} (l : list (string * Any)) :
  MultiDict.nonempty_values (MultiDict.of_pairs l).
Proof. apply inserts_keep_values_nonempty. intros ? ? []. Qed.

Lemma last_item_last {A} (xs : list A) (d : A) :
  xs <> [] -> last_item xs = Some (List.last xs d).
Proof.
  destruct xs as [|x xs] using rev_ind; [congruence|]. intros _.
  now rewrite last_item_snoc, last_last.
Qed.

(** X1.  A [MultiDict] built from a sequence of pairs holds, for every key,
    all the values of the pairs whose key is a case variant of it, in the
    order of the sequence; the single value read is the last of them, and
    the default when there is none. *)
Theorem pairs_keep_every_value_in_order {L : Lower} (l : list (string * Any)) (k : string)
  (default : Any) :
  let mine := map snd (filter (fun kv => String.eqb (lower (fst kv)) (lower k)) l) in
  MultiDict.__init__ (MultiDict.MPairs l) = Some (MultiDict.Lists (MultiDict.of_pairs l))
  /\ MultiDict._get (MultiDict.of_pairs l) k [] = mine
  /\ MultiDict.get (MultiDict.of_pairs l) k default = Some (List.last mine default).
Proof.
  intros mine.
  assert (Hall : MultiDict._get (MultiDict.of_pairs l) k [] = mine)
    by apply (all_values_after_inserts l PyDict.empty k).
  repeat split; [exact Hall|].
  unfold MultiDict.get. unfold MultiDict._get in Hall.
  unfold PyDict.get_default in *.
  destruct (PyDict.get (MultiDict.of_pairs l) (lower k)) as [stored|] eqn:Hget.
  - rewrite <- Hall. apply last_item_last.
    apply get_In in Hget. exact (of_pairs_nonempty l _ _ Hget).
  - rewrite <- Hall. reflexivity.
Qed.

Lemma In_update {V} (d : PyDict.t V) (items : list (string * V)) (k : string) (v : V) :
  In (k, v) (PyDict.update d items) -> In (k, v) d \/ In (k, v) items.
Proof.
  revert d. induction items as [|[k0 v0] items IH]; intros d; simpl; [tauto|].
  intros H. apply IH in H. destruct H as [H|H]; [|tauto].
  apply In_setitem in H. destruct H as [[-> ->]|H]; tauto.
Qed.

Lemma setitem_lowercase {L : Lower} (m : MultiDict.t) (key : string) (value : Any) :
  lowercase_keys m -> lowercase_keys (MultiDict.__setitem__ m key value).
Proof.
  intros H. rewrite setitem_stored. apply keys_setitem_Forall; [exact H|].
  apply lower_idempotent.
Qed.

Lemma of_pairs_keys {L : Lower} (l : list (string * Any)) (m : MultiDict.t) :
  NoDup (PyDict.keys m) -> lowercase_keys m ->
  NoDup (PyDict.keys (fold_left MultiDict.append_pair l m))
  /\ lowercase_keys (fold_left MultiDict.append_pair l m).
Proof.
  revert m. induction l as [|kv l IH]; intros m Hnd Hlow; simpl; [tauto|].
  apply IH; rewrite append_pair_is_setitem.
  - now apply setitem_NoDup.
  - now apply setitem_lowercase.
Qed.

Lemma of_dict_lowercase {L : Lower} (d : PyDict.t Any) :
  lowercase_keys (MultiDict.of_dict d).
Proof.
  unfold lowercase_keys, MultiDict.of_dict, PyDict.comprehension.
  apply keys_update_Forall; [constructor|].
  rewrite map_map. simpl. apply Forall_forall. intros x Hx.
  apply in_map_iff in Hx. destruct Hx as (kv & <- & _). apply lower_idempotent.
Qed.

Lemma of_dict_nonempty {L : Lower} (d : PyDict.t Any) :
  (forall k, ~ In (k, PList []) d) -> MultiDict.nonempty_values (MultiDict.of_dict d).
Proof.
  intros Hflat k stored Hin. unfold MultiDict._items, MultiDict.of_dict,
    PyDict.comprehension in Hin.
  apply In_update in Hin. destruct Hin as [[]|Hin].
  apply in_map_iff in Hin. destruct Hin as ([k0 v0] & [= <- <-] & Hin). simpl.
  destruct v0 as [| | | |items| |]; simpl; try discriminate.
  destruct items; [|discriminate]. exfalso. exact (Hflat k0 Hin).
Qed.

(** What [items()] yields: for each stored key, in order, its lowercase
    form and the last of its values. *)
Lemma items_some {L : Lower} (m : MultiDict.t) (its : list (string * Any)) :
  MultiDict.items m = Some its ->
  Forall2 (fun kl kv => fst kv = lower (fst kl) /\ last_item (snd kl) = Some (snd kv))
    m its.
Proof.
  revert its. induction m as [|[k stored] m IH]; intros its; simpl.
  - intros [= <-]. constructor.
  - destruct (last_item stored) as [v|] eqn:Hlast; [|discriminate].
    destruct (MultiDict.items m) as [r|]; [|discriminate].
    intros [= <-]. constructor; [auto|]. now apply IH.
Qed.

Lemma items_none {L : Lower} (m : MultiDict.t) :
  MultiDict.items m = None <-> exists k stored, In (k, stored) m /\ last_item stored = None.
Proof.
  induction m as [|[k stored] m IH]; simpl.
  - split; [discriminate|]. intros (? & ? & [] & _).
  - destruct (last_item stored) as [v|] eqn:Hlast.
    + destruct (MultiDict.items m) as [r|].
      * split; [discriminate|]. intros (k' & l' & [[= <- <-]|Hin] & Hnone).
        -- congruence.
        -- assert (Hrest : Some r = None) by (apply IH; eauto). discriminate.
      * split; [|reflexivity]. intros _.
        destruct (proj1 IH eq_refl) as (k' & l' & Hin & Hnone). eauto.
    + split; [|reflexivity]. intros _. exists k, stored. auto.
Qed.

Lemma slice_some (v copy : Any) : MultiDict.slice v = Some copy -> copy = v.
Proof. destruct v; simpl; congruence. Qed.

Lemma slices_some {L : Lower} (its sliced : list (string * Any)) :
  MultiDict.slices its = Some sliced ->
  sliced = map (fun kv => (lower (fst kv), snd kv)) its.
Proof.
  revert sliced. induction its as [|[k v] its IH]; intros sliced; simpl.
  - now intros [= <-].
  - destruct (MultiDict.slice v) as [copy|] eqn:Hv; [|discriminate].
    destruct (MultiDict.slices its) as [r|]; [|discriminate].
    intros [= <-]. rewrite (slice_some _ _ Hv). now rewrite (IH r eq_refl).
Qed.

Lemma slices_none {L : Lower} (its : list (string * Any)) :
  MultiDict.slices its = None <-> exists k v, In (k, v) its /\ MultiDict.slice v = None.
Proof.
  induction its as [|[k v] its IH]; simpl.
  - split; [discriminate|]. intros (? & ? & [] & _).
  - destruct (MultiDict.slice v) as [copy|] eqn:Hv.
    + destruct (MultiDict.slices its) as [r|].
      * split; [discriminate|]. intros (k' & v' & [[= <- <-]|Hin] & Hnone).
        -- congruence.
        -- assert (Hrest : Some r = None) by (apply IH; eauto). discriminate.
      * split; [|reflexivity]. intros _.
        destruct (proj1 IH eq_refl) as (k' & v' & Hin & Hnone). eauto.
    + split; [|reflexivity]. intros _. exists k, v. auto.
Qed.

Lemma as_lists_contents (raw : PyDict.t Any) (stored : MultiDict.t) :
  MultiDict.as_lists raw = Some stored -> MultiDict.contents (MultiDict.Lists stored) = raw.
Proof.
  revert stored. induction raw as [|[k v] raw IH]; intros stored; simpl.
  - now intros [= <-].
  - destruct v; try discriminate.
    destruct (MultiDict.as_lists raw) as [r|]; [|discriminate].
    intros [= <-]. simpl. f_equal. now apply IH.
Qed.

(** What the constructor leaves when given a [MultiDict]. *)
Lemma of_multidict_contents {L : Lower} (m : MultiDict.t) (built : MultiDict.Built) :
  MultiDict.of_multidict m = Some built ->
  exists its,
    MultiDict.items m = Some its
    /\ MultiDict.contents built
       = PyDict.update PyDict.empty (map (fun kv => (lower (fst kv), snd kv)) its).
Proof.
  unfold MultiDict.of_multidict.
  destruct (MultiDict.items m) as [its|]; [|discriminate].
  destruct (MultiDict.slices its) as [sliced|] eqn:Hs; [|discriminate].
  intros [= <-]. exists its. split; [reflexivity|].
  rewrite <- (slices_some _ _ Hs).
  destruct (MultiDict.as_lists (PyDict.update PyDict.empty sliced)) as [stored|] eqn:Hl.
  - now apply as_lists_contents.
  - reflexivity.
Qed.

(** X2.  What the constructor stores, by the type of its argument.  From a
    dictionary or a sequence of pairs (or nothing) it stores lists of
    values under keys that are lowercase and stored once; from pairs every
    key owns at least one value, from a dictionary this holds as long as no
    value of the dictionary is the empty list.  From a [MultiDict] the
    lists of values are not copied: the constructor raises when a key owns
    no value or the last value of a key cannot be sliced, and otherwise
    stores, under keys that are lowercase and stored once, the last value
    of a key of the argument, not its list of values.  Any other argument
    raises. *)
Theorem constructors_store_lowercase_unique_keys {L : Lower}
  (d : PyDict.t Any) (l : list (string * Any)) (m0 : MultiDict.t) :
  (exists m,
      MultiDict.__init__ (MultiDict.MDict d) = Some (MultiDict.Lists m)
      /\ NoDup (PyDict.keys m)
      /\ lowercase_keys m
      /\ ((forall k, ~ In (k, PList []) d) -> MultiDict.nonempty_values m))
  /\ (exists m,
         MultiDict.__init__ (MultiDict.MPairs l) = Some (MultiDict.Lists m)
         /\ NoDup (PyDict.keys m)
         /\ lowercase_keys m
         /\ MultiDict.nonempty_values m)
  /\ MultiDict.__init__ MultiDict.MNone = Some (MultiDict.Lists PyDict.empty)
  /\ MultiDict.__init__ MultiDict.MOther = None
  /\ (MultiDict.__init__ (MultiDict.MMulti m0) = None
      <-> exists k stored,
           In (k, stored) m0
           /\ match last_item stored with
              | None => True
              | Some v => MultiDict.slice v = None
              end)
  /\ (forall built,
         MultiDict.__init__ (MultiDict.MMulti m0) = Some built ->
         NoDup (PyDict.keys (MultiDict.contents built))
         /\ Forall (fun k => lower k = k) (PyDict.keys (MultiDict.contents built))
         /\ forall k v,
             PyDict.get (MultiDict.contents built) k = Some v ->
             exists k0 stored,
               In (k0, stored) m0 /\ k = lower k0 /\ last_item stored = Some v).
Proof.
  repeat match goal with |- _ /\ _ => split end; try reflexivity.
  - exists (MultiDict.of_dict d). split; [reflexivity|]. split; [|split].
    + apply of_dict_NoDup.
    + apply of_dict_lowercase.
    + apply of_dict_nonempty.
  - exists (MultiDict.of_pairs l). split; [reflexivity|]. split; [|split].
    + apply (of_pairs_keys l PyDict.empty); constructor.
    + apply (of_pairs_keys l PyDict.empty); constructor.
    + apply of_pairs_nonempty.
  - split.
    + simpl. unfold MultiDict.of_multidict.
      destruct (MultiDict.items m0) as [its|] eqn:Hits.
      * destruct (MultiDict.slices its) as [sliced|] eqn:Hs;
          [intros Hbuilt; cbv zeta in Hbuilt; discriminate Hbuilt|].
        intros _. apply slices_none in Hs. destruct Hs as (k & v & Hin & Hnone).
        pose proof (items_some _ _ Hits) as Hall.
        clear Hits. induction Hall as [|[k0 stored] [k1 v1] m its (Hk & Hlast) Hall IH].
        -- destruct Hin.
        -- simpl in Hk, Hlast. destruct Hin as [[= -> ->]|Hin].
           ++ exists k0, stored. split; [now left|]. now rewrite Hlast.
           ++ destruct (IH Hin) as (k' & l' & Hin' & Hbad). exists k', l'.
              split; [now right|exact Hbad].
      * intros _. apply items_none in Hits. destruct Hits as (k & stored & Hin & Hnone).
        exists k, stored. split; [exact Hin|]. now rewrite Hnone.
    + intros (k & stored & Hin & Hbad). simpl. unfold MultiDict.of_multidict.
      destruct (MultiDict.items m0) as [its|] eqn:Hits; [|reflexivity].
      assert (Hs : MultiDict.slices its = None); [|now rewrite Hs].
      apply slices_none.
      pose proof (items_some _ _ Hits) as Hall.
      clear Hits. induction Hall as [|[k0 stored0] [k1 v1] m its (Hk & Hlast) Hall IH].
      * destruct Hin.
      * simpl in Hk, Hlast. destruct Hin as [[= -> ->]|Hin].
        -- rewrite Hlast in Hbad. exists k1, v1. split; [now left|exact Hbad].
        -- destruct (IH Hin) as (k' & v' & Hin' & Hnone). exists k', v'.
           split; [now right|exact Hnone].
  - intros built Hbuilt.
    destruct (of_multidict_contents m0 built Hbuilt) as (its & Hits & Hraw).
    rewrite Hraw. split; [|split].
    + apply NoDup_update. constructor.
    + apply keys_update_Forall; [constructor|].
      rewrite map_map. simpl. apply Forall_forall. intros x Hx.
      apply in_map_iff in Hx. destruct Hx as (kv & <- & _). apply lower_idempotent.
    + intros k v Hget. apply get_In in Hget. apply In_update in Hget.
      destruct Hget as [[]|Hin].
      apply in_map_iff in Hin. destruct Hin as ([k1 v1] & [= <- <-] & Hin).
      pose proof (items_some _ _ Hits) as Hall.
      clear Hits Hraw Hbuilt.
      induction Hall as [|[k0 stored] [k2 v2] m its (Hk & Hlast) Hall IH].
      * destruct Hin.
      * simpl in Hk, Hlast. destruct Hin as [[= -> ->]|Hin].
        -- exists k0, stored. split; [now left|]. split; [|exact Hlast].
           simpl. rewrite Hk. apply lower_idempotent.
        -- destruct (IH Hin) as (k' & l' & Hin' & Hrest). exists k', l'.
           split; [now right|exact Hrest].
Qed.

Section ConstructorsStoreLowercaseUniqueKeysRun.
#[local] Existing Instance Sample.ascii.

Lemma constructors_store_lowercase_unique_keys_witness :
  let d : PyDict.t Any := [("Host", PStr "h"); ("X-A", PList [PInt 1; PInt 2])] in
  let m0 : MultiDict.t := [("a", [PInt 1; PStr "x"]); ("b", [PList [PInt 2]])] in
  (forall k, ~ In (k, PList []) d)
  /\ MultiDict.__init__ (MultiDict.MMulti m0)
     = Some (MultiDict.Bare [("a", PStr "x"); ("b", PList [PInt 2])])
  /\ (exists m, MultiDict.__init__ (MultiDict.MDict d) = Some (MultiDict.Lists m)
                /\ MultiDict.nonempty_values m)
  /\ exists k0 stored, In (k0, stored) m0 /\ "a" = lower k0
                       /\ last_item stored = Some (PStr "x").
Proof.
  intros d m0.
  assert (Hflat : forall k, ~ In (k, PList []) d).
  { intros k [H|[H|[]]]; discriminate. }
  assert (Hbuilt : MultiDict.__init__ (MultiDict.MMulti m0)
                   = Some (MultiDict.Bare [("a", PStr "x"); ("b", PList [PInt 2])]))
    by reflexivity.
  destruct (constructors_store_lowercase_unique_keys d [] m0)
    as ((m & Hm & _ & _ & Hne) & _ & _ & _ & _ & Hmulti).
  split; [exact Hflat|]. split; [exact Hbuilt|]. split.
  - exists m. split; [exact Hm|]. exact (Hne Hflat).
  - destruct (Hmulti _ Hbuilt) as (_ & _ & Hget).
    exact (Hget "a" (PStr "x") eq_refl).
Defined.

End ConstructorsStoreLowercaseUniqueKeysRun.

Section MultiDictOfAMultiDictRun.
#[local] Existing Instance Sample.ascii.

(** [MultiDict(MultiDict({"a": [1, 2]}))] stores the list that [items]
    gives for ["a"], and [MultiDict(MultiDict({"a": 1}))] raises: the
    integer cannot be sliced. *)
Example multidict_of_a_multidict :
  MultiDict.__init__ (MultiDict.MMulti [("a", [PInt 0; PList [PInt 1; PInt 2]])])
  = Some (MultiDict.Lists [("a", [PInt 1; PInt 2])])
  /\ MultiDict.__init__ (MultiDict.MMulti (MultiDict.of_dict [("a", PInt 1)])) = None.
Proof. split; reflexivity. Qed.

End MultiDictOfAMultiDictRun.

(** X3.  [__setitem__], [setdefault] and [pop] on one key leave the values
    of every key that is not a case variant of it as they are, and keep the
    stored keys lowercase and stored once. *)
Theorem operations_on_a_key_leave_the_other_keys {L : Lower}
  (m : MultiDict.t) (key other : string) (value default : Any) :
  lower other <> lower key ->
  NoDup (PyDict.keys m) ->
  lowercase_keys m ->
  (PyDict.get (MultiDict.__setitem__ m key value) (lower other) = PyDict.get m (lower other)
   /\ NoDup (PyDict.keys (MultiDict.__setitem__ m key value))
   /\ lowercase_keys (MultiDict.__setitem__ m key value))
  /\ (PyDict.get (fst (MultiDict.setdefault m key default)) (lower other)
      = PyDict.get m (lower other)
      /\ NoDup (PyDict.keys (fst (MultiDict.setdefault m key default)))
      /\ lowercase_keys (fst (MultiDict.setdefault m key default)))
  /\ (PyDict.get (fst (MultiDict.pop m key default)) (lower other)
      = PyDict.get m (lower other)
      /\ NoDup (PyDict.keys (fst (MultiDict.pop m key default)))
      /\ lowercase_keys (fst (MultiDict.pop m key default))).
Proof.
  intros Hother Hnd Hlow.
  split; [|split].
  - split; [now apply get_setitem_other_key|].
    split; [now apply setitem_NoDup|now apply setitem_lowercase].
  - unfold MultiDict.setdefault, PyDict.setdefault.
    destruct (PyDict.get m (lower key)) as [stored|]; simpl; [tauto|].
    split; [now apply get_setitem_neq|].
    split; [now apply NoDup_setitem|].
    apply keys_setitem_Forall; [exact Hlow|apply lower_idempotent].
  - unfold MultiDict.pop.
    destruct (Nat.ltb 1 (List.length (PyDict.get_default m (lower key) []))); simpl.
    + split; [now apply get_setitem_neq|].
      split; [now apply NoDup_setitem|].
      apply keys_setitem_Forall; [exact Hlow|apply lower_idempotent].
    + destruct (PyDict.get m (lower key)) as [stored|]; simpl; [|tauto].
      split; [now apply get_remove_neq|].
      split; [now apply NoDup_remove|now apply keys_remove_Forall].
Qed.

Section OperationsOnAKeyLeaveTheOtherKeysRun.
#[local] Existing Instance Sample.ascii.

Lemma operations_on_a_key_leave_the_other_keys_witness :
  let m : MultiDict.t := [("accept", [PStr "a"; PStr "b"]); ("host", [PStr "h"])] in
  PyDict.get (fst (MultiDict.pop m "Accept" PNone)) (lower "Host") = Some [PStr "h"]
  /\ PyDict.get (MultiDict.__setitem__ m "HOST" (PStr "x")) (lower "Accept")
     = Some [PStr "a"; PStr "b"].
Proof.
  intros m.
  assert (Hnd : NoDup (PyDict.keys m)).
  { repeat constructor; simpl; intuition discriminate. }
  assert (Hlow : lowercase_keys m) by (repeat constructor).
  split.
  - assert (Hne : lower "Host" <> lower "Accept") by discriminate.
    rewrite (proj1 (proj2 (proj2 (operations_on_a_key_leave_the_other_keys
                                    m "Accept" "Host" PNone PNone Hne Hnd Hlow)))).
    reflexivity.
  - assert (Hne : lower "Accept" <> lower "HOST") by discriminate.
    rewrite (proj1 (proj1 (operations_on_a_key_leave_the_other_keys
                             m "HOST" "Accept" (PStr "x") PNone Hne Hnd Hlow))).
    reflexivity.
Defined.

End OperationsOnAKeyLeaveTheOtherKeysRun.

(** X4.  Inserting a value and popping the key at once undoes the
    insertion: the [MultiDict] is what it was.  What [pop] returns depends
    on what the key held before: the value itself when the key already had
    values, and the one-element list holding the value when the key was
    new. *)
Theorem pop_undoes_setitem {L : Lower} (m : MultiDict.t) (key : string) (value default : Any) :
  MultiDict.nonempty_values m ->
  let popped := MultiDict.pop (MultiDict.__setitem__ m key value) key default in
  fst popped = m
  /\ snd popped = match PyDict.get m (lower key) with
                  | Some _ => MultiDict.PoppedValue value
                  | None => MultiDict.PoppedList [value]
                  end.
Proof.
  intros Hm popped.
  pose proof (get_setitem_same m key value) as Hstored.
  assert (Hvalues : PyDict.get_default (MultiDict.__setitem__ m key value) (lower key) []
                    = PyDict.get_default m (lower key) [] ++ [value]).
  { unfold PyDict.get_default at 1. now rewrite Hstored. }
  unfold popped, MultiDict.pop. rewrite Hvalues, Hstored.
  rewrite setitem_stored. unfold PyDict.get_default.
  destruct (PyDict.get m (lower key)) as [stored|] eqn:Hget.
  - assert (Hne : stored <> []) by (apply get_In in Hget; exact (Hm _ _ Hget)).
    assert (Hlen : Nat.ltb 1 (List.length (stored ++ [value])) = true).
    { apply Nat.ltb_lt. rewrite length_app. simpl.
      destruct stored; [congruence|simpl; lia]. }
    rewrite Hlen. simpl. rewrite setitem_setitem, removelast_last, last_last.
    split; [now apply setitem_same|reflexivity].
  - simpl. rewrite (setitem_absent m (lower key) [value] Hget).
    split; [now apply remove_appended|reflexivity].
Qed.

Section PopUndoesSetitemRun.
#[local] Existing Instance Sample.ascii.

Lemma pop_undoes_setitem_witness :
  let m : MultiDict.t := [("a", [PInt 1])] in
  MultiDict.nonempty_values m
  /\ MultiDict.pop (MultiDict.__setitem__ m "A" (PInt 2)) "a" PNone
     = (m, MultiDict.PoppedValue (PInt 2))
  /\ MultiDict.pop (MultiDict.__setitem__ m "B" (PInt 2)) "b" PNone
     = (m, MultiDict.PoppedList [PInt 2]).
Proof.
  intros m.
  assert (Hm : MultiDict.nonempty_values m).
  { intros k l [[= <- <-]|[]]. discriminate. }
  split; [exact Hm|]. split.
  - destruct (pop_undoes_setitem m "A" (PInt 2) PNone Hm) as (H1 & H2).
    apply injective_projections; [exact H1|exact H2].
  - destruct (pop_undoes_setitem m "B" (PInt 2) PNone Hm) as (H1 & H2).
    apply injective_projections; [exact H1|exact H2].
Defined.

End PopUndoesSetitemRun.

(** X5.  On a [MultiDict] whose keys all own at least one value, [get]
    never fails: for a missing key it gives the default (where
    [__getitem__] raises), and for a stored key it gives the last value,
    the same as [__getitem__]. *)
Theorem get_gives_the_last_value_or_the_default {L : Lower}
  (m : MultiDict.t) (key : string) (default : Any) :
  MultiDict.nonempty_values m ->
  (exists v, MultiDict.get m key default = Some v)
  /\ (PyDict.get m (lower key) = None ->
      MultiDict.get m key default = Some default /\ MultiDict.__getitem__ m key = None)
  /\ (forall stored, PyDict.get m (lower key) = Some stored ->
                     MultiDict.get m key default = Some (List.last stored default)
                     /\ MultiDict.__getitem__ m key = MultiDict.get m key default).
Proof.
  intros Hm. unfold MultiDict.get, MultiDict.__getitem__, PyDict.get_default.
  destruct (PyDict.get m (lower key)) as [stored|] eqn:Hget.
  - assert (Hne : stored <> []) by (apply get_In in Hget; exact (Hm _ _ Hget)).
    rewrite (last_item_last stored default Hne).
    split; [eauto|]. split; [discriminate|].
    intros stored' [= <-]. split; reflexivity.
  - split; [exists default; reflexivity|]. split; [split; reflexivity|discriminate].
Qed.

Section GetGivesTheLastValueOrTheDefaultRun.
#[local] Existing Instance Sample.ascii.

Lemma get_gives_the_last_value_or_the_default_witness :
  let m : MultiDict.t := [("a", [PInt 1; PInt 2])] in
  MultiDict.nonempty_values m
  /\ MultiDict.get m "A" PNone = Some (PInt 2)
  /\ MultiDict.get m "b" (PStr "none") = Some (PStr "none").
Proof.
  intros m.
  assert (Hm : MultiDict.nonempty_values m).
  { intros k l [[= <- <-]|[]]. discriminate. }
  split; [exact Hm|]. split.
  - exact (proj1 (proj2 (proj2 (get_gives_the_last_value_or_the_default m "A" PNone Hm))
                    [PInt 1; PInt 2] eq_refl)).
  - exact (proj1 (proj1 (proj2 (get_gives_the_last_value_or_the_default
                                  m "b" (PStr "none") Hm)) eq_refl)).
Defined.

End GetGivesTheLastValueOrTheDefaultRun.

(** X6.  On a [MultiDict] whose keys all own at least one value,
    [setdefault] returns what a [get] of the key returns afterwards: the
    last stored value when the key was there, the default otherwise.  A
    second [setdefault] of the key, whatever its default, changes nothing
    and returns the same value. *)
Theorem setdefault_returns_the_value_then_read {L : Lower}
  (m : MultiDict.t) (key : string) (default again fallback : Any) :
  MultiDict.nonempty_values m ->
  let after := MultiDict.setdefault m key default in
  snd after = MultiDict.get (fst after) key fallback
  /\ snd after = Some (match PyDict.get m (lower key) with
                       | Some stored => List.last stored default
                       | None => default
                       end)
  /\ MultiDict.setdefault (fst after) key again = after.
Proof.
  intros Hm after. unfold after, MultiDict.setdefault, PyDict.setdefault, MultiDict.get,
    PyDict.get_default.
  destruct (PyDict.get m (lower key)) as [stored|] eqn:Hget; simpl.
  - assert (Hne : stored <> []) by (apply get_In in Hget; exact (Hm _ _ Hget)).
    rewrite Hget. simpl. rewrite (last_item_last stored default Hne). auto.
  - rewrite get_setitem_eq. simpl. auto.
Qed.

Section SetdefaultReturnsTheValueThenReadRun.
#[local] Existing Instance Sample.ascii.

Lemma setdefault_returns_the_value_then_read_witness :
  let m : MultiDict.t := [("content-type", [PStr "text/plain"])] in
  MultiDict.nonempty_values m
  /\ snd (MultiDict.setdefault m "Content-Type" (PStr "text/html")) = Some (PStr "text/plain")
  /\ snd (MultiDict.setdefault m "Content-Length" (PInt 0)) = Some (PInt 0).
Proof.
  intros m.
  assert (Hm : MultiDict.nonempty_values m).
  { intros k l [[= <- <-]|[]]. discriminate. }
  split; [exact Hm|]. split.
  - exact (proj1 (proj2 (setdefault_returns_the_value_then_read
                           m "Content-Type" (PStr "text/html") PNone PNone Hm))).
  - exact (proj1 (proj2 (setdefault_returns_the_value_then_read
                           m "Content-Length" (PInt 0) PNone PNone Hm))).
Defined.

End SetdefaultReturnsTheValueThenReadRun.

Lemma items_of_nonempty {L : Lower} (m : MultiDict.t) (default : Any) :
  MultiDict.nonempty_values m ->
  MultiDict.items m = Some (map (fun kl => (lower (fst kl), List.last (snd kl) default)) m)
  /\ MultiDict.values m = Some (map (fun kl => List.last (snd kl) default) m).
Proof.
  induction m as [|[k stored] m IH]; intros Hm; simpl; [auto|].
  assert (Hne : stored <> []) by (apply (Hm k); now left).
  assert (Hrest : MultiDict.nonempty_values m).
  { intros k' l' Hin. apply (Hm k'). now right. }
  destruct (IH Hrest) as (-> & ->).
  rewrite (last_item_last stored default Hne). auto.
Qed.

(** X7.  On a [MultiDict] with lowercase keys stored once and at least one
    value per key, [items] lists every stored key, in storage order, with
    the value that [get] gives for it, and [values] lists those values. *)
Theorem items_pair_each_key_with_its_last_value {L : Lower} (m : MultiDict.t) (default : Any) :
  NoDup (PyDict.keys m) ->
  lowercase_keys m ->
  MultiDict.nonempty_values m ->
  exists its,
    MultiDict.items m = Some its
    /\ map fst its = PyDict.keys m
    /\ MultiDict.values m = Some (map snd its)
    /\ forall k v, In (k, v) its -> MultiDict.get m k default = Some v.
Proof.
  intros Hnd Hlow Hm.
  destruct (items_of_nonempty m default Hm) as (Hitems & Hvalues).
  eexists. split; [exact Hitems|]. split; [|split].
  - rewrite map_map. simpl. unfold PyDict.keys.
    unfold lowercase_keys, PyDict.keys in Hlow. rewrite Forall_map in Hlow.
    apply map_ext_in. intros kl Hin. rewrite Forall_forall in Hlow. now apply Hlow.
  - rewrite Hvalues, map_map. reflexivity.
  - intros k v Hin. apply in_map_iff in Hin. destruct Hin as ([k0 stored] & [= <- <-] & Hin).
    simpl.
    assert (Hk : lower k0 = k0).
    { unfold lowercase_keys in Hlow. rewrite Forall_forall in Hlow. apply Hlow.
      change k0 with (fst (k0, stored)). now apply in_map. }
    unfold MultiDict.get, PyDict.get_default. rewrite !Hk.
    rewrite (In_get m k0 stored Hnd Hin).
    apply last_item_last. exact (Hm _ _ Hin).
Qed.

Section ItemsPairEachKeyWithItsLastValueRun.
#[local] Existing Instance Sample.ascii.

Lemma items_pair_each_key_with_its_last_value_witness :
  let m : MultiDict.t := [("accept", [PStr "a"; PStr "b"]); ("host", [PStr "h"])] in
  MultiDict.items m = Some [("accept", PStr "b"); ("host", PStr "h")]
  /\ exists its, MultiDict.items m = Some its
                 /\ forall k v, In (k, v) its -> MultiDict.get m k PNone = Some v.
Proof.
  intros m.
  assert (Hnd : NoDup (PyDict.keys m)).
  { repeat constructor; simpl; intuition discriminate. }
  assert (Hlow : lowercase_keys m) by (repeat constructor).
  assert (Hm : MultiDict.nonempty_values m).
  { intros k l [[= <- <-]|[[= <- <-]|[]]]; discriminate. }
  split; [reflexivity|].
  destruct (items_pair_each_key_with_its_last_value m PNone Hnd Hlow Hm)
    as (its & Hits & _ & _ & Hget).
  exists its. split; assumption.
Defined.

End ItemsPairEachKeyWithItsLastValueRun.

(** ** More about [Response] *)


(** ** More about the HTTP protocol *)

Section Pipeline.

Variable E : Stdlib.
Context {L : Lower}.

Lemma body_loop_complete (max_content : Z) (body : bytes)
  (before : list BodyEvent) (final : BodyEvent) (rest : list BodyEvent) :
  Forall (fun ev => more_body ev = true) before ->
  more_body final = false ->
  (Z.of_nat (List.length (body ++ List.concat (map chunk before) ++ chunk final))
   <= max_content)%Z ->
  body_loop E max_content body (before ++ final :: rest)
  = (body ++ List.concat (map chunk before) ++ chunk final, rest, inl tt).
Proof.
  revert body. induction before as [|ev before IH]; intros body Hmore Hfinal Hfit; simpl.
  - simpl in Hfit. apply Z.ltb_ge in Hfit. now rewrite Hfit, Hfinal.
  - inversion Hmore as [|? ? Hev Hmore']; subst.
    simpl in Hfit.
    assert (Hstep : Z.ltb max_content (Z.of_nat (List.length (body ++ chunk ev))) = false).
    { apply Z.ltb_ge. rewrite !length_app in Hfit. rewrite length_app. lia. }
    rewrite Hstep, Hev. simpl.
    rewrite (IH (body ++ chunk ev)); try assumption.
    + now rewrite <- !app_assoc.
    + rewrite <- !app_assoc. rewrite <- !app_assoc in Hfit. exact Hfit.
Qed.

(** X9.  When the body events announce more until one that does not, and
    the whole body is not longer than [max_content] (a body of exactly
    [max_content] bytes passes), reading the body succeeds: the request body
    is the chunks in the order received, appended to what it held; the
    events after the final one stay unread; no call is made and the rest of
    the request is as it was. *)
Theorem body_within_limit_is_assembled (max_content : Z) (tx : Tx)
  (before : list BodyEvent) (final : BodyEvent) (rest : list BodyEvent) :
  inbox tx = before ++ final :: rest ->
  Forall (fun ev => more_body ev = true) before ->
  more_body final = false ->
  (Z.of_nat (List.length (Request.body (request tx)
                          ++ List.concat (map chunk before) ++ chunk final))
   <= max_content)%Z ->
  read_body E max_content tx
  = (inl tt,
     {| request := Request.set_body (request tx)
                     (Request.body (request tx)
                      ++ List.concat (map chunk before) ++ chunk final);
        inbox := rest;
        calls := calls tx |}).
Proof.
  intros Hin Hmore Hfinal Hfit. unfold read_body. rewrite Hin.
  now rewrite (body_loop_complete max_content _ before final rest Hmore Hfinal Hfit).
Qed.

End Pipeline.

Section BodyWithinLimitIsAssembledRun.
#[local] Existing Instance Sample.ascii.

Lemma body_within_limit_is_assembled_witness :
  let first := {| chunk := [x61; x62]; more_body := true |} in
  let last := {| chunk := [x63]; more_body := false |} in
  let extra := {| chunk := [x64]; more_body := false |} in
  let tx := start Sample.python Sample.get_x [first; last; extra] in
  exists tx',
    read_body Sample.python 3 tx = (inl tt, tx')
    /\ Request.body (request tx') = [x61; x62; x63]
    /\ inbox tx' = [extra].
Proof.
  intros first last extra tx. eexists. split; [|split].
  - apply (body_within_limit_is_assembled Sample.python 3 tx [first] last [extra]).
    + reflexivity.
    + repeat constructor.
    + reflexivity.
    + simpl. lia.
  - reflexivity.
  - reflexivity.
Defined.

End BodyWithinLimitIsAssembledRun.


Section CallOrder.

Variable E : Stdlib.
Context {L : Lower}.

Lemma bind_cases {A B} (m : M A) (f : A -> M B) (tx : Tx) :
  (exists e, fst (m tx) = inr e /\ bind m f tx = (inr e, snd (m tx)))
  \/ (exists a, fst (m tx) = inl a /\ bind m f tx = f a (snd (m tx))).
Proof.
  unfold bind. destruct (m tx) as [[a|e] tx']; simpl; eauto.
Qed.

Lemma load_headers_calls (scope : Scope) (tx : Tx) :
  calls (snd (load_headers E scope tx)) = calls tx.
Proof.
  unfold load_headers. destruct (decode_headers E (scope_headers scope)); reflexivity.
Qed.

Lemma load_cookies_calls (tx : Tx) : calls (snd (load_cookies E tx)) = calls tx.
Proof.
  unfold load_cookies, bind, get_request.
  destruct (MultiDict.get (Request.headers (request tx)) "cookie" (PStr "")) as [h|];
    [|reflexivity].
  destruct (cookie_load E h); reflexivity.
Qed.

Lemma read_body_calls (max_content : Z) (tx : Tx) :
  calls (snd (read_body E max_content tx)) = calls tx.
Proof.
  unfold read_body.
  destruct (body_loop E max_content (Request.body (request tx)) (inbox tx)) as [[b r] o].
  reflexivity.
Qed.

Lemma decode_content_calls (tx : Tx) : calls (snd (decode_content E tx)) = calls tx.
Proof.
  unfold decode_content, bind, get_request.
  destruct (MultiDict.get (Request.headers (request tx)) "content-type" (PStr ""))
    as [[| |ct| | | |]|]; try reflexivity.
  destruct (contains "application/json" ct).
  - destruct (decode E (Request.body (request tx))) as [text|]; [|reflexivity].
    destruct (json_loads E text); reflexivity.
  - destruct (contains "application/x-www-form-urlencoded" ct); reflexivity.
Qed.

(** The before-chain calls its hooks in order from the first, and calls all
    of them when it runs to its end. *)
Lemma run_before_kinds (hooks : list Handler) (i : nat) (tx : Tx) :
  exists n,
    map kind_of (calls (snd (run_before E hooks i tx)))
    = map kind_of (calls tx) ++ map BeforeHook (seq i n)
    /\ n <= List.length hooks
    /\ (forall u, fst (run_before E hooks i tx) = inl u -> n = List.length hooks).
Proof.
  revert i tx. induction hooks as [|func hooks IH]; intros i tx; simpl.
  - exists 0. simpl. rewrite app_nil_r. auto.
  - unfold bind at 1. unfold call_before, bind, get_request, record_call. simpl.
    destruct (func (request tx)) as [req' o]. simpl.
    destruct o as [v|r|e]; simpl.
    + destruct (Response.truthy v).
      * exists 1. unfold raise_from_any.
        destruct (Response.from_any E v); simpl; rewrite map_app; simpl;
          (split; [reflexivity|split; [lia|discriminate]]).
      * match goal with |- context [run_before E hooks ?j ?t] =>
          destruct (IH j t) as (n & Hcalls & Hle & Hall) end.
        exists (S n). rewrite Hcalls. simpl. rewrite map_app. simpl.
        rewrite <- app_assoc. simpl.
        split; [reflexivity|]. split; [lia|]. intros u Hu. f_equal. eauto.
    + exists 1. rewrite map_app. simpl. split; [reflexivity|split; [lia|discriminate]].
    + exists 1. rewrite map_app. simpl. split; [reflexivity|split; [lia|discriminate]].
Qed.

Lemma before_routing_kinds (app : Application) (scope : Scope) (tx : Tx) :
  exists n,
    map kind_of (calls (snd (before_routing E app scope tx)))
    = map kind_of (calls tx) ++ map BeforeHook (seq 0 n)
    /\ n <= List.length (_before app)
    /\ (forall u, fst (before_routing E app scope tx) = inl u ->
                  n = List.length (_before app)).
Proof.
  assert (Hnone : forall (r : unit + Exn) (t : Tx) e,
             r = inr e -> calls t = calls tx ->
             exists n, map kind_of (calls (snd (r, t)))
                       = map kind_of (calls tx) ++ map BeforeHook (seq 0 n)
                       /\ n <= List.length (_before app)
                       /\ (forall u, fst (r, t) = inl u -> n = List.length (_before app))).
  { intros r t e -> Hc. exists 0. simpl. rewrite Hc, app_nil_r.
    split; [reflexivity|split; [lia|discriminate]]. }
  unfold before_routing.
  destruct (bind_cases (load_headers E scope)
              (fun _ => load_cookies E ;;; read_body E (_max_content app) ;;;
                        decode_content E ;;; run_before E (_before app) 0) tx)
    as [(e & H1 & ->)|(a1 & H1 & ->)];
    [eapply Hnone; [reflexivity|apply load_headers_calls]|].
  pose proof (load_headers_calls scope tx) as C1.
  set (t1 := snd (load_headers E scope tx)) in *.
  destruct (bind_cases (load_cookies E)
              (fun _ => read_body E (_max_content app) ;;;
                        decode_content E ;;; run_before E (_before app) 0) t1)
    as [(e & H2 & ->)|(a2 & H2 & ->)];
    [eapply Hnone; [reflexivity|rewrite load_cookies_calls; exact C1]|].
  pose proof (load_cookies_calls t1) as C2.
  set (t2 := snd (load_cookies E t1)) in *.
  destruct (bind_cases (read_body E (_max_content app))
              (fun _ => decode_content E ;;; run_before E (_before app) 0) t2)
    as [(e & H3 & ->)|(a3 & H3 & ->)];
    [eapply Hnone; [reflexivity|rewrite read_body_calls; congruence]|].
  pose proof (read_body_calls (_max_content app) t2) as C3.
  set (t3 := snd (read_body E (_max_content app) t2)) in *.
  destruct (bind_cases (decode_content E)
              (fun _ => run_before E (_before app) 0) t3)
    as [(e & H4 & ->)|(a4 & H4 & ->)];
    [eapply Hnone; [reflexivity|rewrite decode_content_calls; congruence]|].
  pose proof (decode_content_calls t3) as C4.
  set (t4 := snd (decode_content E t3)) in *.
  destruct (run_before_kinds (_before app) 0 t4) as (n & Hcalls & Hle & Hall).
  exists n. rewrite Hcalls.
  replace (calls t4) with (calls tx) by congruence. auto.
Qed.

Lemma steps_split (app : Application) (scope : Scope) (tx : Tx) :
  steps E app scope tx
  = bind (before_routing E app scope) (fun _ => dispatch E (_routes app)) tx.
Proof.
  unfold steps, before_routing, bind.
  destruct (load_headers E scope tx) as [[u1|e1] t1]; [|reflexivity].
  destruct (load_cookies E t1) as [[u2|e2] t2]; [|reflexivity].
  destruct (read_body E (_max_content app) t2) as [[u3|e3] t3]; [|reflexivity].
  destruct (decode_content E t3) as [[u4|e4] t4]; [|reflexivity].
  destruct (run_before E (_before app) 0 t4) as [[u5|e5] t5]; reflexivity.
Qed.

(** Route resolution calls at most one handler. *)
Lemma resolve_kinds (table : list (Pattern * Methods)) (tx : Tx) :
  exists n,
    map kind_of (calls (snd (resolve E table tx)))
    = map kind_of (calls tx) ++ repeat RouteHandler n
    /\ n <= 1.
Proof.
  induction table as [|[route methods] table IH]; simpl.
  - exists 0. simpl. rewrite app_nil_r. auto.
  - unfold bind at 1, get_request.
    destruct (fullmatch route (Request.path (request tx))) as [groups|]; [|exact IH].
    unfold bind at 1, put_request.
    destruct (PyDict.get methods (Request.method (request tx))) as [func|].
    + unfold bind. rewrite call_handler_spec.
      destruct (snd (func _)) as [v|r|e]; simpl;
        try (exists 1; rewrite map_app; simpl; auto).
      unfold normalize. destruct (Response.from_any E v); simpl;
        exists 1; rewrite map_app; simpl; auto.
    + exists 0. simpl. rewrite app_nil_r. auto.
Qed.

Lemma dispatch_kinds (routes : Routes) (tx : Tx) :
  exists n,
    map kind_of (calls (snd (dispatch E routes tx)))
    = map kind_of (calls tx) ++ repeat RouteHandler n
    /\ n <= 1.
Proof.
  destruct routes as [[|entry table]|table]; simpl.
  - exists 0. simpl. rewrite app_nil_r. auto.
  - exists 0. simpl. rewrite app_nil_r. auto.
  - apply resolve_kinds.
Qed.

(** The after-chain calls its hooks in order from the first. *)
Lemma after_loop_kinds (hooks : list AfterHook) (i : nat) (response : Response.t)
  (tx : Tx) :
  exists n,
    map kind_of (calls (snd (after_loop E hooks i response tx)))
    = map kind_of (calls tx) ++ map AfterHookCall (seq i n)
    /\ n <= List.length hooks.
Proof.
  revert i response tx. induction hooks as [|func hooks IH]; intros i response tx; simpl.
  - exists 0. simpl. rewrite app_nil_r. auto.
  - unfold bind at 1. unfold call_after, bind, get_request, record_call. simpl.
    destruct (func (request tx) response) as [[req' response'] o]. simpl.
    destruct o as [v|r|e]; simpl.
    + destruct (Response.truthy v).
      * exists 1. unfold raise_from_any.
        destruct (Response.from_any E v); simpl; rewrite map_app; simpl;
          (split; [reflexivity|lia]).
      * match goal with |- context [after_loop E hooks ?j ?r ?t] =>
          destruct (IH j r t) as (n & Hcalls & Hle) end.
        exists (S n). rewrite Hcalls. simpl. rewrite map_app. simpl.
        rewrite <- app_assoc. simpl. split; [reflexivity|lia].
    + exists 1. rewrite map_app. simpl. split; [reflexivity|lia].
    + exists 1. rewrite map_app. simpl. split; [reflexivity|lia].
Qed.

Lemma run_after_kinds (hooks : list AfterHook) (response : Response.t) (tx : Tx) :
  exists n,
    map kind_of (calls (snd (run_after E hooks response tx)))
    = map kind_of (calls tx) ++ map AfterHookCall (seq 0 n)
    /\ n <= List.length hooks.
Proof.
  unfold run_after, except_response.
  pose proof (after_loop_kinds hooks 0 response tx) as H.
  destruct (after_loop E hooks 0 response tx) as [[r|[r|e|]] tx']; exact H.
Qed.

(** X10.  The calls that the application makes while serving one request
    are, in this order: before-hooks from the first on, then at most one
    route handler, then after-hooks from the first on.  A handler is called
    only after every before-hook was called. *)
Theorem calls_follow_the_pipeline (app : Application) (scope : Scope)
  (events : list BodyEvent) :
  exists nb nh na,
    map kind_of (calls (http_tx (http E app scope events)))
    = map BeforeHook (seq 0 nb) ++ repeat RouteHandler nh ++ map AfterHookCall (seq 0 na)
    /\ nb <= List.length (_before app)
    /\ nh <= 1
    /\ na <= List.length (_after app)
    /\ (nh = 1 -> nb = List.length (_before app)).
Proof.
  set (tx0 := {| request := request_of_scope E scope; inbox := events; calls := [] |}).
  assert (Hsteps : exists nb nh,
             map kind_of (calls (snd (steps E app scope tx0)))
             = map BeforeHook (seq 0 nb) ++ repeat RouteHandler nh
             /\ nb <= List.length (_before app) /\ nh <= 1
             /\ (nh = 1 -> nb = List.length (_before app))).
  { rewrite steps_split.
    destruct (before_routing_kinds app scope tx0) as (nb & Hb & Hble & Hball).
    destruct (bind_cases (before_routing E app scope)
                (fun _ => dispatch E (_routes app)) tx0)
      as [(e & H1 & ->)|(a & H1 & ->)].
    - exists nb, 0. simpl. rewrite Hb. simpl. rewrite app_nil_r.
      repeat split; try lia.
    - destruct (dispatch_kinds (_routes app) (snd (before_routing E app scope tx0)))
        as (nh & Hd & Hdle).
      exists nb, nh. rewrite Hd, Hb. simpl.
      repeat split; try lia. intros _. eauto. }
  destruct Hsteps as (nb & nh & Hcalls & Hble & Hhle & Hfull).
  assert (Htx : http_tx (http E app scope events)
                = snd (transaction E app scope tx0)).
  { unfold http. fold tx0. destruct (transaction E app scope tx0) as [[r|e] t]; reflexivity. }
  rewrite Htx. unfold transaction, bind, respond, except_response.
  destruct (steps E app scope tx0) as [[r|[r|e|]] t]; simpl in *.
  - destruct (run_after_kinds (_after app) r t) as (na & Ha & Hale).
    exists nb, nh, na. rewrite Ha, Hcalls, <- app_assoc. auto.
  - destruct (run_after_kinds (_after app) r t) as (na & Ha & Hale).
    exists nb, nh, na. rewrite Ha, Hcalls, <- app_assoc. auto.
  - exists nb, nh, 0. simpl. rewrite app_nil_r. repeat split; try lia; assumption.
  - exists nb, nh, 0. simpl. rewrite app_nil_r. repeat split; try lia; assumption.
Qed.

End CallOrder.

Section Chains.

Variable E : Stdlib.
Context {L : Lower}.

Lemma run_before_app (first second : list Handler) (i : nat) (tx : Tx) :
  run_before E (first ++ second) i tx =
  match run_before E first i tx with
  | (inl _, tx') => run_before E second (i + List.length first) tx'
  | (inr e, tx') => (inr e, tx')
  end.
Proof.
  revert i tx. induction first as [|func first IH]; intros i tx; simpl.
  - now rewrite Nat.add_0_r.
  - unfold bind at 1 2.
    destruct (call_before i func tx) as [[v|e] tx']; [|reflexivity].
    destruct (Response.truthy v).
    + unfold raise_from_any, raise. destruct (Response.from_any E v); reflexivity.
    + rewrite IH. now rewrite Nat.add_succ_r.
Qed.

(** X11.  The before-chain stops at the first hook that returns a truthy
    value: when the hooks before it ran to their end, the chain ends with
    the normalized value as an early response, the last call made is the
    call of that hook, and the hooks after it are not called. *)
Theorem before_chain_stops_at_the_first_truthy_hook
  (first : list Handler) (func : Handler) (later : list Handler)
  (tx tx1 : Tx) (v : Response.Returned) (r : Response.t) :
  run_before E first 0 tx = (inl tt, tx1) ->
  snd (func (request tx1)) = Return v ->
  Response.truthy v = true ->
  Response.from_any E v = inl r ->
  run_before E (first ++ func :: later) 0 tx
  = (inr (Early r),
     {| request := fst (func (request tx1));
        inbox := inbox tx1;
        calls := calls tx1 ++ [CallBefore (List.length first) (request tx1)] |}).
Proof.
  intros Hfirst Hret Htruthy Hnorm. rewrite run_before_app, Hfirst. simpl.
  exact (run_before_interrupt E func later _ tx1 v r Hret Htruthy Hnorm).
Qed.

(** X12.  Hooks that return a falsy value ([None], 0, an empty string, an
    empty mapping) never interrupt the before-chain: it runs to its end,
    calling every hook once, in order, and reads no body event. *)
Theorem falsy_before_hooks_do_not_interrupt (hooks : list Handler) (i : nat) (tx : Tx) :
  (forall func, In func hooks ->
                forall req, exists v, snd (func req) = Return v
                                      /\ Response.truthy v = false) ->
  exists tx',
    run_before E hooks i tx = (inl tt, tx')
    /\ inbox tx' = inbox tx
    /\ map kind_of (calls tx')
       = map kind_of (calls tx) ++ map BeforeHook (seq i (List.length hooks)).
Proof.
  revert i tx. induction hooks as [|func hooks IH]; intros i tx Hfalsy.
  - exists tx. simpl. rewrite app_nil_r. auto.
  - destruct (Hfalsy func (or_introl eq_refl) (request tx)) as (v & Hret & Hv).
    rewrite (run_before_falsy E func hooks i tx v Hret Hv).
    destruct (IH (S i)
                {| request := fst (func (request tx)); inbox := inbox tx;
                   calls := calls tx ++ [CallBefore i (request tx)] |})
      as (tx' & Hrun & Hinbox & Hcalls).
    { intros f Hf. apply Hfalsy. now right. }
    exists tx'. split; [exact Hrun|]. split; [exact Hinbox|].
    rewrite Hcalls. simpl. rewrite map_app. simpl. now rewrite <- app_assoc.
Qed.

End Chains.

Section BeforeChainStopsAtTheFirstTruthyHookRun.
#[local] Existing Instance Sample.ascii.

Lemma before_chain_stops_at_the_first_truthy_hook_witness :
  let pass : Handler := fun req => (req, Return (Response.Value (PDict []))) in
  let deny : Handler := fun req => (req, Return (Response.Value (PInt 401))) in
  let tx := start Sample.python Sample.get_x [] in
  exists tx',
    run_before Sample.python ([pass] ++ deny :: [Sample.hello]) 0 tx 
    = (inr (Early (Response.assign Sample.python 401
                     [("content-type", [PStr "text/html; charset=utf-8"])] []
                     (Sample.ascii_encode "Unauthorized") Sample.dumps)), tx')
    /\ map kind_of (calls tx') = [BeforeHook 0; BeforeHook 1].
Proof.
  intros pass deny tx. eexists. split.
  - apply (before_chain_stops_at_the_first_truthy_hook Sample.python
             [pass] deny [Sample.hello] tx
             {| request := request tx; inbox := inbox tx;
                calls := [CallBefore 0 (request tx)] |}
             (Response.Value (PInt 401))); reflexivity.
  - reflexivity.
Defined.

End BeforeChainStopsAtTheFirstTruthyHookRun.

Section FalsyBeforeHooksDoNotInterruptRun.
#[local] Existing Instance Sample.ascii.

Lemma falsy_before_hooks_do_not_interrupt_witness :
  let none : Handler := fun req => (req, Return (Response.Value PNone)) in
  let empty : Handler := fun req => (req, Return (Response.Value (PStr ""))) in
  let tx := start Sample.python Sample.get_x [] in
  exists tx',
    run_before Sample.python [none; empty] 0 tx = (inl tt, tx')
    /\ map kind_of (calls tx') = [BeforeHook 0; BeforeHook 1].
Proof.
  intros none empty tx.
  destruct (falsy_before_hooks_do_not_interrupt Sample.python [none; empty] 0 tx)
    as (tx' & Hrun & _ & Hcalls).
  - intros func [<-|[<-|[]]] req; eexists; split; reflexivity.
  - exists tx'. split; [exact Hrun|exact Hcalls].
Defined.

End FalsyBeforeHooksDoNotInterruptRun.

Lemma last_item_none {A} (xs : list A) : last_item xs = None <-> xs = [].
Proof.
  split; [|now intros ->]. unfold last_item. intros H.
  destruct (rev xs) as [|x r] eqn:Hrev; [|discriminate].
  rewrite <- (rev_involutive xs), Hrev. reflexivity.
Qed.

(** X13.  Finalizing a response raises [IndexError] exactly when its
    [content-length] header is stored without a value.  Otherwise it leaves
    the status, body and cookies of the response as they are; a
    [content-length] header that the response already has is kept, and
    else the header becomes the length of the body; the [set-cookie] header
    becomes the values of the cookie jar, one per cookie, whatever the
    header held before (with an empty jar it holds no value); every other
    header is untouched. *)
Theorem finalize_fills_content_length_and_overwrites_set_cookie {L : Lower}
  (response : Response.t) :
  let given := Response.headers response in
  match finalize response with
  | inr e =>
      PyDict.get given "content-length" = Some [] /\ cls e = "IndexError"
  | inl final =>
      PyDict.get given "content-length" <> Some []
      /\ Response.status final = Response.status response
      /\ Response.body final = Response.body response
      /\ Response.cookies final = Response.cookies response
      /\ PyDict.get (Response.headers final) "content-length"
         = Some (match PyDict.get given "content-length" with
                 | Some stored => stored
                 | None => [PInt (Z.of_nat (List.length (Response.body response)))]
                 end)
      /\ PyDict.get (Response.headers final) "set-cookie"
         = Some (map PStr (Response.cookies response))
      /\ forall k, k <> "content-length" -> k <> "set-cookie" ->
                   PyDict.get (Response.headers final) k = PyDict.get given k
  end.
Proof.
  intros given.
  unfold finalize, MultiDict._update, MultiDict.setdefault, PyDict.setdefault.
  lower_keys. change (ascii_lower "content-length") with "content-length".
  fold given. destruct (PyDict.get given "content-length") as [stored|] eqn:Hget.
  - destruct (last_item stored) as [v|] eqn:Hlast.
    + split; [intros [= ->]; discriminate|].
      split; [reflexivity|]. split; [reflexivity|]. split; [reflexivity|].
      cbn [Response.headers Response.set_headers PyDict.update fold_left fst snd].
      split; [|split].
      * rewrite get_setitem_neq by discriminate. exact Hget.
      * apply get_setitem_eq.
      * intros k _ Hcookie. now apply get_setitem_neq.
    + apply last_item_none in Hlast. subst stored. split; reflexivity.
  - cbn [snd last_item rev app].
    split; [discriminate|].
    split; [reflexivity|]. split; [reflexivity|]. split; [reflexivity|].
    cbn [Response.headers Response.set_headers PyDict.update fold_left fst snd].
    split; [|split].
    + rewrite get_setitem_neq by discriminate. apply get_setitem_eq.
    + apply get_setitem_eq.
    + intros k Hlen Hcookie. rewrite get_setitem_neq by assumption.
      now apply get_setitem_neq.
Qed.

Section FinalizeFillsContentLengthAndOverwritesSetCookieRun.
#[local] Existing Instance Sample.ascii.

(** A response whose [content-length] header was emptied, as
    [response.headers._update({"content-length": []})] leaves it, cannot be
    finalized; a response from [from_any] can. *)
Example finalize_raises_on_an_emptied_content_length :
  let response := Response.of_status Sample.python 200 in
  let emptied := Response.set_headers response
                   (MultiDict._update (Response.headers response)
                      [("content-length", [])]) in
  finalize emptied = inr {| cls := "IndexError"; message := "list index out of range" |}
  /\ exists final,
      finalize response = inl final
      /\ PyDict.get (Response.headers final) "content-length" = Some [PInt 0].
Proof. split; [reflexivity|]. eexists. split; reflexivity. Qed.

End FinalizeFillsContentLengthAndOverwritesSetCookieRun.

Section BeforeStartup.

Variable E : Stdlib.
Context {L : Lower}.

(** X14.  An application whose routing table was never compiled (no
    startup event came) and holds at least one route cannot answer: every
    request that gets past the before-chain ends with [AttributeError],
    nothing is sent, and no handler or after-hook is called. *)
Theorem serving_before_startup_raises (app : Application) (scope : Scope)
  (events : list BodyEvent) (entry : string * Methods) (table : PyDict.t Methods)
  (tx : Tx) :
  _routes app = Uncompiled (entry :: table) ->
  before_routing E app scope (start E scope events) = (inl tt, tx) ->
  http E app scope events
  = {| http_sent := inr (Fatal {| cls := "AttributeError";
                                  message := "'str' object has no attribute 'fullmatch'" |});
       http_tx := tx |}.
Proof.
  intros Hroutes Hbefore. unfold http. fold (start E scope events).
  unfold transaction, bind, respond, except_response.
  rewrite steps_split. unfold bind. rewrite Hbefore, Hroutes. reflexivity.
Qed.

End BeforeStartup.

Section ServingBeforeStartupRaisesRun.
#[local] Existing Instance Sample.ascii.

Lemma serving_before_startup_raises_witness :
  let app := route (Sample.app [] [Sample.quiet] 1048576) "/x" ["GET"] Sample.hello in
  let events := [{| chunk := []; more_body := false |}] in
  exists tx,
    http_sent (http Sample.python app Sample.get_x events)
    = inr (Fatal {| cls := "AttributeError";
                    message := "'str' object has no attribute 'fullmatch'" |})
    /\ http_tx (http Sample.python app Sample.get_x events) = tx
    /\ calls tx = [].
Proof.
  intros app events. eexists. split; [|split].
  - rewrite (serving_before_startup_raises Sample.python app Sample.get_x events
               ("/x", [("GET", Sample.hello)]) []
               {| request :=
                    Request.set_body
                      (Request.set_cookies
                         (Request.set_headers
                            (request (start Sample.python Sample.get_x events))
                            PyDict.empty) []) [];
                  inbox := []; calls := [] |} eq_refl eq_refl).
    reflexivity.
  - reflexivity.
  - reflexivity.
Defined.

End ServingBeforeStartupRaisesRun.

(** ** More about the lifespan protocol and the routing table *)

(** X15.  Compiling the routing table keeps the routes in their order,
    each with its method table, and replaces each pattern string by what
    [re.compile] gives for it.  When a pattern does not compile, the error
    is the one of the first such pattern, in table order. *)
Theorem compile_keeps_the_order_of_the_routes (E : Stdlib) (table : PyDict.t Methods) :
  match compile_table E table with
  | inl compiled =>
      Forall2 (fun kv pm => re_compile E (fst kv) = inl (fst pm) /\ snd pm = snd kv)
        table compiled
  | inr msg =>
      exists good k v bad,
        table = good ++ (k, v) :: bad
        /\ re_compile E k = inr msg
        /\ Forall (fun kv => exists p, re_compile E (fst kv) = inl p) good
  end.
Proof.
  induction table as [|[k v] table IH]; simpl; [constructor|].
  destruct (re_compile E k) as [p|msg] eqn:Hk.
  - destruct (compile_table E table) as [compiled|msg].
    + constructor; [split; [exact Hk|reflexivity]|exact IH].
    + destruct IH as (good & k' & v' & bad & -> & Hbad & Hgood).
      exists ((k, v) :: good), k', v', bad. split; [reflexivity|]. split; [exact Hbad|].
      constructor; [simpl; eauto|exact Hgood].
  - exists [], k, v, table. split; [reflexivity|]. split; [exact Hk|constructor].
Qed.


Section StartupEventRun.
#[local] Existing Instance Sample.ascii.


End StartupEventRun.

Lemma get_update_In {V} (d : PyDict.t V) (items : list (string * V)) (k : string) :
  In k (map fst items) ->
  exists v, PyDict.get (PyDict.update d items) k = Some v /\ In (k, v) items.
Proof.
  revert d. induction items as [|[k0 v0] items IH]; intros d; simpl; [tauto|].
  intros Hin.
  destruct (in_dec string_dec k (map fst items)) as [Hlater|Hlater].
  - destruct (IH (PyDict.setitem d k0 v0) Hlater) as (v & Hget & Hv). eauto.
  - destruct Hin as [->|Hin]; [|contradiction].
    exists v0. split; [|now left].
    change (PyDict.get (PyDict.update (PyDict.setitem d k v0) items) k = Some v0).
    rewrite get_update_other by assumption. apply get_setitem_eq.
Qed.

(** [existing.update({method: func for method in methods})]: each of the
    methods gets the handler, the others keep theirs. *)
Lemma update_methods (old : Methods) (methods : list string) (func : Handler) :
  let ms := PyDict.update old
              (PyDict.update PyDict.empty (map (fun m => (m, func)) methods)) in
  (forall m, In m methods -> PyDict.get ms m = Some func)
  /\ (forall m, ~ In m methods -> PyDict.get ms m = PyDict.get old m).
Proof.
  intros ms.
  set (new := PyDict.update (@PyDict.empty Handler) (map (fun m => (m, func)) methods)).
  assert (Hnew : NoDup (PyDict.keys new)) by (apply NoDup_update; constructor).
  split.
  - intros m Hm. unfold ms. fold new. rewrite get_update_dict by exact Hnew.
    destruct (get_update_In (@PyDict.empty Handler) (map (fun m => (m, func)) methods) m)
      as (v & Hget & Hv).
    { rewrite map_map. simpl. now rewrite map_id. }
    fold new in Hget. rewrite Hget.
    apply in_map_iff in Hv. destruct Hv as (m' & [= _ <-] & _). reflexivity.
  - intros m Hm. unfold ms. fold new. rewrite get_update_dict by exact Hnew.
    unfold new. rewrite get_update_other; [reflexivity|].
    rewrite map_map. simpl. now rewrite map_id.
Qed.

Lemma deref_store_same (heap : Registry.Heap) (a : nat) (x : Methods) :
  a < List.length heap -> Registry.deref (Registry.store a x heap) a = x.
Proof.
  revert a. induction heap as [|y heap IH]; intros a; simpl; [lia|].
  destruct a as [|a]; [reflexivity|]. intros H. apply IH. lia.
Qed.

Lemma deref_store_other (heap : Registry.Heap) (a b : nat) (x : Methods) :
  b <> a -> Registry.deref (Registry.store a x heap) b = Registry.deref heap b.
Proof.
  revert a b. induction heap as [|y heap IH]; intros a b Hne.
  - destruct a; reflexivity.
  - destruct a as [|a], b as [|b]; try reflexivity; [congruence|].
    apply IH. congruence.
Qed.

Lemma deref_allocate (heap : Registry.Heap) (x : Methods) (b : nat) :
  Registry.deref (heap ++ [x]) b
  = if Nat.eqb b (List.length heap) then x else Registry.deref heap b.
Proof.
  unfold Registry.deref. destruct (Nat.eqb b (List.length heap)) eqn:Hb.
  - apply Nat.eqb_eq in Hb. subst b. now rewrite nth_middle.
  - apply Nat.eqb_neq in Hb. destruct (Nat.lt_ge_cases b (List.length heap)) as [Hlt|Hge].
    + now apply app_nth1.
    + rewrite !nth_overflow; [reflexivity|lia|rewrite length_app; simpl; lia].
Qed.

Lemma get_view (heap : Registry.Heap) (table : Registry.Table) (k : string) :
  PyDict.get (Registry.view heap table) k
  = option_map (Registry.deref heap) (PyDict.get table k).
Proof.
  induction table as [|[k0 a] table IH]; simpl; [reflexivity|].
  destruct (String.eqb k k0); [reflexivity|exact IH].
Qed.

Lemma view_setitem (heap : Registry.Heap) (table : Registry.Table) (k : string) (a : nat) :
  Registry.view heap (PyDict.setitem table k a)
  = PyDict.setitem (Registry.view heap table) k (Registry.deref heap a).
Proof.
  induction table as [|[k0 b] table IH]; simpl; [reflexivity|].
  destruct (String.eqb k k0); simpl; [reflexivity|]. now rewrite IH.
Qed.

Lemma view_ext (heap heap' : Registry.Heap) (table : Registry.Table) :
  (forall k a, In (k, a) table -> Registry.deref heap' a = Registry.deref heap a) ->
  Registry.view heap' table = Registry.view heap table.
Proof.
  intros H. unfold Registry.view. apply map_ext_in. intros [k a] Hin. simpl.
  now rewrite (H k a Hin).
Qed.

(** Updating in place the dictionary of a path that shares it with no
    other path of the table shows as replacing the value of the path. *)
Lemma view_store (heap : Registry.Heap) (table : Registry.Table) (path : string)
  (a : nat) (x : Methods) :
  NoDup (PyDict.keys table) ->
  a < List.length heap ->
  PyDict.get table path = Some a ->
  (forall other, other <> path -> PyDict.get table other <> Some a) ->
  Registry.view (Registry.store a x heap) table
  = PyDict.setitem (Registry.view heap table) path x.
Proof.
  intros Hnd Ha Hget Hown.
  assert (Hothers : forall k b, In (k, b) table -> k <> path -> b <> a).
  { intros k b Hin Hk ->. apply (Hown k Hk). now apply In_get. }
  clear Hown. induction table as [|[k b] table IH]; simpl in *; [discriminate|].
  inversion Hnd as [|? ? Hk Hnd']; subst.
  destruct (String.eqb path k) eqn:Hpk.
  - apply String.eqb_eq in Hpk. subst k. injection Hget as ->.
    rewrite deref_store_same by assumption. f_equal.
    apply view_ext. intros k' b' Hin. apply deref_store_other.
    apply (Hothers k' b'); [now right|]. intros ->. apply Hk.
    change path with (fst (path, b')). now apply in_map.
  - apply String.eqb_neq in Hpk.
    rewrite deref_store_other by (apply (Hothers k b); [now left|congruence]).
    f_equal. apply IH; try assumption. intros k' b' Hin. apply Hothers. now right.
Qed.

(** X17.  The method dictionaries of a routing table are objects: [route]
    updates the dictionary of a path in place, and gives a new path a new
    dictionary.  With the dictionaries in a heap and tables holding their
    addresses: after registering a handler for some methods of a path, the
    dictionary of the path holds the new handler for each of these methods
    (a handler registered before for the same method is replaced) and
    every other method keeps the handler it had; every path, of this table
    or of another, that holds the same dictionary shows the same change
    (so a path under which [mount] put the dictionary changes with it);
    every other dictionary is as it was; the other paths keep their
    dictionaries, and the order of the paths is the order of their first
    registration.  When no other path of the table holds the dictionary,
    the table changes as [route_table] says. *)
Theorem route_registers_the_methods_of_a_path
  (heap : Registry.Heap) (table : Registry.Table) (path : string)
  (methods : list string) (func : Handler) :
  NoDup (PyDict.keys table) ->
  (forall k a, In (k, a) table -> a < List.length heap) ->
  let heap' := fst (Registry.route heap table path methods func) in
  let table' := snd (Registry.route heap table path methods func) in
  let old := match PyDict.get table path with
             | Some a => Registry.deref heap a
             | None => PyDict.empty
             end in
  exists a ms,
    PyDict.get table' path = Some a
    /\ Registry.deref heap' a = ms
    /\ (forall m, In m methods -> PyDict.get ms m = Some func)
    /\ (forall m, ~ In m methods -> PyDict.get ms m = PyDict.get old m)
    /\ (forall (shared : Registry.Table) other,
           PyDict.get shared other = Some a ->
           PyDict.get (Registry.view heap' shared) other = Some ms)
    /\ (forall b, b <> a -> Registry.deref heap' b = Registry.deref heap b)
    /\ (forall other, other <> path -> PyDict.get table' other = PyDict.get table other)
    /\ PyDict.keys table'
       = (if PyDict.mem table path then PyDict.keys table else PyDict.keys table ++ [path])
    /\ ((forall other, other <> path -> PyDict.get table other <> Some a) ->
        Registry.view heap' table'
        = route_table (Registry.view heap table) path methods func).
Proof.
  intros Hnd Hwf heap' table' old.
  set (new := PyDict.update (@PyDict.empty Handler) (map (fun m => (m, func)) methods)).
  destruct (update_methods old methods func) as (Hnew & Hold). fold new in Hnew, Hold.
  unfold heap', table', Registry.route, PyDict.mem. fold new.
  unfold old in Hnew, Hold. unfold route_table, PyDict.setdefault. fold new.
  rewrite get_view.
  destruct (PyDict.get table path) as [a|] eqn:Hget; cbn [fst snd option_map].
  - assert (Ha : a < List.length heap) by (apply (Hwf path); now apply get_In).
    exists a, (PyDict.update (Registry.deref heap a) new).
    split; [exact Hget|]. split; [now apply deref_store_same|].
    split; [exact Hnew|]. split; [exact Hold|]. split; [|split; [|split; [|split]]].
    + intros shared other Hother. rewrite get_view, Hother. simpl.
      now rewrite deref_store_same.
    + intros b Hb. now apply deref_store_other.
    + reflexivity.
    + reflexivity.
    + intros Hown. now apply view_store.
  - exists (List.length heap), (PyDict.update PyDict.empty new).
    split; [apply get_setitem_eq|].
    split; [rewrite deref_allocate; now rewrite Nat.eqb_refl|].
    split; [exact Hnew|]. split; [exact Hold|]. split; [|split; [|split; [|split]]].
    + intros shared other Hother. rewrite get_view, Hother. simpl.
      rewrite deref_allocate. now rewrite Nat.eqb_refl.
    + intros b Hb. rewrite deref_allocate.
      apply Nat.eqb_neq in Hb. now rewrite Hb.
    + intros other Hother. now apply get_setitem_neq.
    + apply keys_setitem_absent. now apply get_none_keys.
    + intros _. rewrite view_setitem, setitem_setitem.
      rewrite deref_allocate, Nat.eqb_refl. f_equal.
      apply view_ext. intros k a Hin. rewrite deref_allocate.
      assert (Hlt : a < List.length heap) by exact (Hwf k a Hin).
      apply Nat.lt_neq in Hlt. apply Nat.eqb_neq in Hlt. now rewrite Hlt.
Qed.

Lemma string_app_inv_head (prefix a b : string) :
  (prefix ++ a)%string = (prefix ++ b)%string -> a = b.
Proof.
  induction prefix as [|c prefix IH]; simpl; [auto|]. intros [= H]. auto.
Qed.

(** X18.  Mounting an application under a prefix, before startup, puts
    each of its routes at the prefixed path with the method table it had:
    a route that the mounting application already had at that path is
    replaced as a whole, not merged method by method.  The other paths keep
    their tables; the hook lists of the mounted application come after the
    own ones; the body limit becomes the larger of the two. *)
Theorem mount_puts_routes_under_the_prefix
  (self app : Application) (prefix : string) (mine theirs : PyDict.t Methods) :
  _routes self = Uncompiled mine ->
  _routes app = Uncompiled theirs ->
  NoDup (PyDict.keys theirs) ->
  exists merged,
    _routes (mount self app prefix) = Uncompiled merged
    /\ (forall k ms, In (k, ms) theirs ->
                     PyDict.get merged (prefix ++ k)%string = Some ms)
    /\ (forall path,
           (forall k, In k (PyDict.keys theirs) -> path <> (prefix ++ k)%string) ->
           PyDict.get merged path = PyDict.get mine path)
    /\ _before (mount self app prefix) = _before self ++ _before app
    /\ _after (mount self app prefix) = _after self ++ _after app
    /\ _startup (mount self app prefix) = _startup self ++ _startup app
    /\ _shutdown (mount self app prefix) = _shutdown self ++ _shutdown app
    /\ _max_content (mount self app prefix)
       = Z.max (_max_content self) (_max_content app).
Proof.
  intros Hmine Htheirs Hnd.
  set (moved := PyDict.comprehension (fun k => (prefix ++ k)%string)
                  (fun (_ : string) (v : Methods) => v) theirs).
  exists (PyDict.update mine moved).
  split; [unfold mount; now rewrite Hmine, Htheirs|].
  assert (Hmoved : NoDup (PyDict.keys moved)).
  { unfold moved, PyDict.comprehension. apply NoDup_update. constructor. }
  split; [|split; [|repeat split]].
  - intros k ms Hin. rewrite get_update_dict by exact Hmoved.
    destruct (in_split _ _ Hin) as (front & back & Hsplit).
    assert (Hback : ~ In k (PyDict.keys back)).
    { rewrite Hsplit in Hnd. unfold PyDict.keys in Hnd. rewrite map_app in Hnd.
      simpl in Hnd. apply NoDup_remove_2 in Hnd. rewrite in_app_iff in Hnd.
      unfold PyDict.keys. tauto. }
    assert (Hget : PyDict.get moved (prefix ++ k)%string = Some ms).
    { unfold moved, PyDict.comprehension. rewrite Hsplit, map_app. simpl.
      apply get_update_last. rewrite map_map. simpl.
      intros H. apply in_map_iff in H. destruct H as ([k' v'] & Heq & Hk').
      simpl in Heq. apply string_app_inv_head in Heq. subst k'.
      apply Hback. change k with (fst (k, v')). now apply in_map. }
    now rewrite Hget.
  - intros path Hpath. rewrite get_update_dict by exact Hmoved.
    assert (Hget : PyDict.get moved path = None).
    { unfold moved, PyDict.comprehension. rewrite get_update_other; [reflexivity|].
      rewrite map_map. simpl. intros H. apply in_map_iff in H.
      destruct H as ([k' v'] & <- & Hk'). simpl in Hpath.
      apply (Hpath k'); [|reflexivity].
      change k' with (fst (k', v')). now apply in_map. }
    now rewrite Hget.
Qed.

Section RouteRegistersTheMethodsOfAPathRun.
#[local] Existing Instance Sample.ascii.

(** A sub-application has [/x] for GET; it is mounted under [/api], and
    then registers POST for [/x]: the mounted path [/api/x] of the parent
    answers POST too. *)
Lemma route_registers_the_methods_of_a_path_witness :
  let heap : Registry.Heap := [[("GET", Sample.hello)]] in
  let theirs : Registry.Table := [("/x", 0)] in
  let mine := Registry.mount [] theirs "/api" in
  let heap' := fst (Registry.route heap theirs "/x" ["POST"] Sample.other) in
  mine = [("/api/x", 0)]
  /\ Registry.view heap mine = [("/api/x", [("GET", Sample.hello)])]
  /\ Registry.view heap' mine
     = [("/api/x", [("GET", Sample.hello); ("POST", Sample.other)])]
  /\ exists ms, PyDict.get (Registry.view heap' mine) "/api/x" = Some ms
                /\ PyDict.get ms "POST" = Some Sample.other
                /\ PyDict.get ms "GET" = Some Sample.hello.
Proof.
  intros heap theirs mine heap'.
  split; [reflexivity|]. split; [reflexivity|]. split; [reflexivity|].
  destruct (route_registers_the_methods_of_a_path heap theirs "/x" ["POST"] Sample.other)
    as (a & ms & Ha & _ & Hnew & Hold & Hshared & _).
  - repeat constructor. simpl. tauto.
  - intros k a [[= <- <-]|[]]. simpl. lia.
  - injection Ha as <-.
    exists ms. split; [exact (Hshared mine "/api/x" eq_refl)|]. split.
    + apply Hnew. now left.
    + rewrite Hold; [reflexivity|]. intros [H|[]]. discriminate.
Defined.

End RouteRegistersTheMethodsOfAPathRun.

Section MountPutsRoutesUnderThePrefixRun.
#[local] Existing Instance Sample.ascii.

Lemma mount_puts_routes_under_the_prefix_witness :
  let self := Sample.app [("/x", [("GET", Sample.hello); ("PUT", Sample.hello)])] [] 10 in
  let sub := Sample.app [("/x", [("POST", Sample.other)]); ("/y", [("GET", Sample.other)])]
               [Sample.quiet] 20 in
  exists merged,
    _routes (mount self sub "") = Uncompiled merged
    /\ PyDict.get merged "/x" = Some [("POST", Sample.other)]
    /\ _max_content (mount self sub "") = 20%Z.
Proof.
  intros self sub.
  destruct (mount_puts_routes_under_the_prefix self sub ""
              [("/x", [("GET", Sample.hello); ("PUT", Sample.hello)])]
              [("/x", [("POST", Sample.other)]); ("/y", [("GET", Sample.other)])]
              eq_refl eq_refl)
    as (merged & Hroutes & Hget & _ & _ & _ & _ & _ & Hmax).
  - repeat constructor; simpl; intuition discriminate.
  - exists merged. split; [exact Hroutes|]. split.
    + apply (Hget "/x"). now left.
    + exact Hmax.
Defined.

End MountPutsRoutesUnderThePrefixRun.

(** X19.  [update] keeps the stored keys lowercase and stored once; and
    when no value of the source is the empty list, every key still owns at
    least one value afterwards. *)
Theorem update_keeps_the_keys_well_formed {L : Lower} (m : MultiDict.t) (s : MultiDict.Source) :
  NoDup (PyDict.keys m) ->
  lowercase_keys m ->
  MultiDict.nonempty_values m ->
  NoDup (PyDict.keys (MultiDict.update m s))
  /\ lowercase_keys (MultiDict.update m s)
  /\ ((forall k, ~ In (k, PList []) (MultiDict.collect s)) ->
      MultiDict.nonempty_values (MultiDict.update m s)).
Proof.
  intros Hnd Hlow Hm.
  unfold MultiDict.update. split; [now apply NoDup_update|]. split.
  - apply keys_update_Forall; [assumption|apply of_dict_lowercase].
  - intros Hflat k stored Hin. apply In_update in Hin. destruct Hin as [Hin|Hin].
    + exact (Hm _ _ Hin).
    + exact (of_dict_nonempty _ Hflat _ _ Hin).
Qed.

Section UpdateKeepsTheKeysWellFormedRun.
#[local] Existing Instance Sample.ascii.

Lemma update_keeps_the_keys_well_formed_witness :
  let m : MultiDict.t := [("a", [PInt 1])] in
  let s := MultiDict.SPairs [("B", PInt 2); ("A", PList [PInt 3; PInt 4])] in
  MultiDict.update m s = [("a", [PInt 3; PInt 4]); ("b", [PInt 2])]
  /\ NoDup (PyDict.keys (MultiDict.update m s))
  /\ MultiDict.nonempty_values (MultiDict.update m s).
Proof.
  intros m s.
  assert (Hnd : NoDup (PyDict.keys m)) by (repeat constructor; simpl; tauto).
  assert (Hlow : lowercase_keys m) by (repeat constructor).
  assert (Hm : MultiDict.nonempty_values m).
  { intros k l [[= <- <-]|[]]. discriminate. }
  destruct (update_keeps_the_keys_well_formed m s Hnd Hlow Hm) as (H1 & _ & H3).
  split; [reflexivity|]. split; [exact H1|].
  apply H3. intros k [H|[H|[]]]; discriminate.
Defined.

End UpdateKeepsTheKeysWellFormedRun.

Section Observers.

Variable E : Stdlib.
Context {L : Lower}.

(** X20.  After-hooks that return a falsy value and leave the response as
    they got it (loggers) do not change the outcome: the after-chain calls
    every one of them, in order, each with the response in flight, and that
    response stays the response. *)
Theorem observing_after_hooks_keep_the_response
  (hooks : list AfterHook) (response : Response.t) (tx : Tx) :
  (forall func, In func hooks ->
                forall req, exists req' v,
                  func req response = (req', response, Return v)
                  /\ Response.truthy v = false) ->
  exists tx',
    run_after E hooks response tx = (inl response, tx')
    /\ inbox tx' = inbox tx
    /\ map kind_of (calls tx')
       = map kind_of (calls tx) ++ map AfterHookCall (seq 0 (List.length hooks))
    /\ Forall (fun c => match c with
                        | CallAfter _ _ given => given = response
                        | _ => True
                        end) (skipn (List.length (calls tx)) (calls tx')).
Proof.
  intros Hobs.
  assert (Hloop : forall i tx0,
             exists tx',
               after_loop E hooks i response tx0 = (inl response, tx')
               /\ inbox tx' = inbox tx0
               /\ exists made,
                   calls tx' = calls tx0 ++ made
                   /\ map kind_of made = map AfterHookCall (seq i (List.length hooks))
                   /\ Forall (fun c => match c with
                                       | CallAfter _ _ given => given = response
                                       | _ => True
                                       end) made).
  { induction hooks as [|func hooks IH]; intros i tx0.
    - exists tx0. simpl. repeat split. exists []. rewrite app_nil_r. auto.
    - destruct (Hobs func (or_introl eq_refl) (request tx0)) as (req' & v & Hf & Hv).
      simpl. unfold bind at 1. unfold call_after, bind, get_request, record_call. simpl.
      rewrite Hf. simpl. rewrite Hv.
      destruct (IH (fun f Hin => Hobs f (or_intror Hin)) (S i)
                  {| request := req'; inbox := inbox tx0;
                     calls := calls tx0 ++ [CallAfter i (request tx0) response] |})
        as (tx' & Hrun & Hinbox & made & Hcalls & Hkinds & Hgiven).
      exists tx'. split; [exact Hrun|]. split; [exact Hinbox|].
      exists (CallAfter i (request tx0) response :: made).
      split; [rewrite Hcalls; simpl; now rewrite <- app_assoc|].
      split; [simpl; now rewrite Hkinds|]. now constructor. }
  destruct (Hloop 0 tx) as (tx' & Hrun & Hinbox & made & Hcalls & Hkinds & Hgiven).
  exists tx'. unfold run_after, except_response. rewrite Hrun.
  split; [reflexivity|]. split; [exact Hinbox|]. split.
  - rewrite Hcalls, map_app. now rewrite Hkinds.
  - rewrite Hcalls, skipn_app, skipn_all, Nat.sub_diag. exact Hgiven.
Qed.

End Observers.

Section ObservingAfterHooksKeepTheResponseRun.
#[local] Existing Instance Sample.ascii.

Lemma observing_after_hooks_keep_the_response_witness :
  let tx := start Sample.python Sample.get_x [] in
  let response := Response.of_status Sample.python 404 in
  exists tx',
    run_after Sample.python [Sample.quiet; Sample.quiet] response tx = (inl response, tx')
    /\ map kind_of (calls tx') = [AfterHookCall 0; AfterHookCall 1].
Proof.
  intros tx response.
  destruct (observing_after_hooks_keep_the_response Sample.python
              [Sample.quiet; Sample.quiet] response tx)
    as (tx' & Hrun & _ & Hkinds & _).
  - intros func [<-|[<-|[]]] req; exists req, (Response.Value PNone); split; reflexivity.
  - exists tx'. split; [exact Hrun|exact Hkinds].
Defined.

End ObservingAfterHooksKeepTheResponseRun.

Section HappyPath.

Variable E : Stdlib.
Context {L : Lower}.

(** X21.  A request that gets past the before-chain and whose path is
    first matched by a route holding its method is answered by that route's
    handler: the handler is the only handler called, it gets the request
    with the named groups as [params], and the value it returns,
    normalized, is the response on which the after-chain runs.  With no
    after-hook registered, that response, finalized, is what is sent. *)
Theorem matching_request_is_answered_by_its_handler
  (app : Application) (scope : Scope) (events : list BodyEvent) (tx : Tx)
  (skipped : list (Pattern * Methods)) (route : Pattern) (methods : Methods)
  (later : list (Pattern * Methods)) (groups : PyDict.t Any) (func : Handler)
  (v : Response.Returned) (r : Response.t) :
  _routes app = Compiled (skipped ++ (route, methods) :: later) ->
  before_routing E app scope (start E scope events) = (inl tt, tx) ->
  Forall (no_match tx) skipped ->
  fullmatch route (Request.path (request tx)) = Some groups ->
  PyDict.get methods (Request.method (request tx)) = Some func ->
  snd (func (Request.set_params (request tx) groups)) = Return v ->
  Response.from_any E v = inl r ->
  transaction E app scope (start E scope events)
  = run_after E (_after app) r (handled (matched tx groups) route func)
  /\ (_after app = [] ->
      http E app scope events
      = {| http_sent := match finalize r with
                        | inl final => inl (emit E final)
                        | inr e => inr (Fatal e)
                        end;
           http_tx := handled (matched tx groups) route func |}).
Proof.
  intros Hroutes Hbefore Hskip Hmatch Hfunc Hret Hnorm.
  assert (Hsteps : steps E app scope (start E scope events)
                   = (inl r, handled (matched tx groups) route func)).
  { rewrite steps_split. unfold bind at 1. rewrite Hbefore, Hroutes. simpl.
    rewrite (resolve_skip E _ _ _ Hskip), (resolve_first E _ _ _ _ _ Hmatch), Hfunc.
    unfold bind. rewrite call_handler_spec. simpl. rewrite Hret.
    unfold normalize. now rewrite Hnorm. }
  assert (Htrans : transaction E app scope (start E scope events)
                   = run_after E (_after app) r (handled (matched tx groups) route func)).
  { unfold transaction, bind, respond, except_response. now rewrite Hsteps. }
  split; [exact Htrans|].
  intros Hafter. unfold http. fold (start E scope events).
  rewrite Htrans, Hafter. reflexivity.
Qed.

End HappyPath.

Section MatchingRequestIsAnsweredByItsHandlerRun.
#[local] Existing Instance Sample.ascii.

Lemma matching_request_is_answered_by_its_handler_witness :
  let scope := {| scope_method := "GET"; scope_path := "/items/7";
                  scope_client := Some ("10.0.0.1", 4000%Z); scope_query_string := [];
                  scope_headers := [([x68; x6f; x73; x74], [x68])];
                  scope_state := None |} in
  let app := route (route (Sample.app [] [] 1048576) "/x" ["GET"] Sample.hello)
               "/items/(?P<id>[0-9]+)" ["GET"] Sample.show_id in
  let started := ls_app (lifespan Sample.python app PyDict.empty [LifespanStartup]) in
  let events := [{| chunk := []; more_body := false |}] in
  http_sent (http Sample.python started scope events)
  = inl [ResponseStart 200
           [(Sample.ascii_encode "content-type", Sample.ascii_encode "application/json");
            (Sample.ascii_encode "content-length", Sample.ascii_encode "11")];
         ResponseBody [x7b; x22; x69; x64; x22; x3a; x20; x22; x37; x22; x7d]].
Proof.
  intros scope app started events.
  set (tx := {| request :=
                  Request.set_body
                    (Request.set_cookies
                       (Request.set_headers
                          (request (start Sample.python scope events))
                          (MultiDict.of_pairs [("host", PStr "h")])) []) [];
                inbox := []; calls := [] |}).
  destruct (matching_request_is_answered_by_its_handler Sample.python started scope events
              tx [(Sample.literal "/x", [("GET", Sample.hello)])] Sample.item_path
              [("GET", Sample.show_id)] [] [("id", PStr "7")] Sample.show_id
              (Response.Value (PDict [("id", PStr "7")]))
              (Response.assign Sample.python 200
                 [("content-type", [PStr "application/json"])] []
                 [x7b; x22; x69; x64; x22; x3a; x20; x22; x37; x22; x7d] Sample.dumps))
    as (_ & Hsent).
  - reflexivity.
  - reflexivity.
  - repeat constructor.
  - reflexivity.
  - reflexivity.
  - reflexivity.
  - reflexivity.
  - now rewrite (Hsent eq_refl).
Defined.

End MatchingRequestIsAnsweredByItsHandlerRun.
